(** * Expensify backend: borrowed-money ledger, payments, expenses, categories

    A shallow embedding of the Mongoose models and of the Express route
    handlers of the repository, and the properties of the repayment
    reconciliation, of the expense reference checks, of the category
    uniqueness check and of the payment totals report.

    Conventions of the embedding.
    - A JavaScript [Number] holding an amount of money is a rational [Q]:
      comparisons, sums and [Math.min] are exact, and two amounts are equal
      when they are equal as numbers ([==]). The repay action, whose guard
      and whose sum depend on the rounding of the engine, is embedded a
      second time on binary64 numbers, with the amount of the body as the
      JavaScript value that was sent (module [Binary64], at the end).
    - A string is its UTF-8 encoding, one [ascii] for each byte; its length
      is counted in UTF-16 code units, as [String.prototype.length] does.
    - A [Date] is its timestamp, a [Z].
    - An [ObjectId] is a natural number; the driver's generator is a counter
      kept in the store, and the cast from a request string is a parameter
      ([castObjectId]) of the route handlers.
    - A collection is the list of its documents in insertion order.
    - A request body holds, under each key, a value of the type the schema
      gives the path, or nothing: an amount is a number or undefined, an id
      is a string, null or undefined. The body of an expense has the key
      [user_id] as well, which the update of an expense passes on.
    - Mongoose: [save] validates the document and then runs the schema's
      [pre('save')] hooks; [findOneAndUpdate] and [findByIdAndUpdate] run no
      [save] hook, drop the keys of the update whose value is undefined, and
      with [runValidators: true] run the validators of the paths the update
      sets.
    - A route handler is a state-passing computation over the store that
      ends by sending a response; an exception is caught by the handler's
      [catch] block, which answers 500 and keeps the writes already made. *)

From Stdlib Require Import QArith Qminmax Lqa ZArith List String Ascii Bool Arith Lia.
From Stdlib Require PrimFloat SpecFloat FloatOps FloatAxioms.
Import ListNotations.
Local Open Scope string_scope.
Local Open Scope nat_scope.

(** ** JavaScript values *)

Definition ObjectId := nat.

(** A request field that, when present, holds a string. *)
Inductive JsStr : Type :=
| JUndefined
| JNull
| JString (s : string).

(** [!v] for such a field: undefined, null and the empty string are falsy. *)
Definition falsy (v : JsStr) : bool :=
  match v with
  | JUndefined | JNull => true
  | JString s => (s =? "")%string
  end.

(** [!s] for an optional string. *)
Definition falsy_str (v : option string) : bool :=
  match v with
  | None => true
  | Some s => (s =? "")%string
  end.

(** [!n] for an optional number: undefined and zero are falsy. *)
Definition falsy_num (v : option Q) : bool :=
  match v with
  | None => true
  | Some q => Qeq_bool q 0
  end.

(** [v === m] for an optional string and a string literal. *)
Definition is_str (v : option string) (m : string) : bool :=
  match v with
  | Some s => (s =? m)%string
  | None => false
  end.

(** [a < b] on numbers. *)
Definition Qltb (a b : Q) : bool := negb (Qle_bool b a).

(** [a || b] on optional values. *)
Definition or_else {A : Type} (v : option A) (d : A) : A :=
  match v with
  | Some a => a
  | None => d
  end.

(** [a || b] on optional strings: the empty string is falsy too. *)
Definition str_or_else (v : option string) (d : string) : string :=
  match v with
  | Some s => if (s =? "")%string then d else s
  | None => d
  end.

(** *** Strings: length, String.prototype.trim and case folding

    A JavaScript string is written as its UTF-8 encoding, one [ascii] for
    each byte. *)

Definition byte (c : ascii) : nat := nat_of_ascii c.

(** [s.length] counts UTF-16 code units. A character is one unit, or two
    when it lies beyond U+FFFF; in the encoding, a character starts at each
    byte that is not a continuation byte (10xxxxxx), and those beyond U+FFFF
    start with a byte 11110xxx. *)
Definition code_units (c : ascii) : nat :=
  if byte c <? 128 then 1
  else if byte c <? 192 then 0
  else if byte c <? 240 then 1
  else 2.

Fixpoint js_length (s : string) : nat :=
  match s with
  | EmptyString => 0
  | String c r => code_units c + js_length r
  end.

(** The white space and line terminators that [trim] strips. One byte: tab,
    line feed, vertical tab, form feed, carriage return, space. *)
Definition is_space (c : ascii) : bool :=
  match nat_of_ascii c with
  | 9 | 10 | 11 | 12 | 13 | 32 => true
  | _ => false
  end.

(** Two bytes: U+00A0. *)
Definition is_space2 (c0 c1 : ascii) : bool := (byte c0 =? 194) && (byte c1 =? 160).

(** Three bytes: U+1680, U+2000 to U+200A, U+2028, U+2029, U+202F, U+205F,
    U+3000 and U+FEFF. *)
Definition is_space3 (c0 c1 c2 : ascii) : bool :=
  (byte c0 =? 225) && (byte c1 =? 154) && (byte c2 =? 128)
  || (byte c0 =? 226) && (byte c1 =? 128)
     && ((128 <=? byte c2) && (byte c2 <=? 138)
         || (byte c2 =? 168) || (byte c2 =? 169) || (byte c2 =? 175))
  || (byte c0 =? 226) && (byte c1 =? 129) && (byte c2 =? 159)
  || (byte c0 =? 227) && (byte c1 =? 128) && (byte c2 =? 128)
  || (byte c0 =? 239) && (byte c1 =? 187) && (byte c2 =? 191).

Fixpoint trim_start (s : string) : string :=
  match s with
  | EmptyString => EmptyString
  | String c0 r0 =>
      if is_space c0 then trim_start r0
      else
        match r0 with
        | EmptyString => s
        | String c1 r1 =>
            if is_space2 c0 c1 then trim_start r1
            else
              match r1 with
              | EmptyString => s
              | String c2 r2 => if is_space3 c0 c1 c2 then trim_start r2 else s
              end
        end
  end.

Fixpoint reverse_onto (s acc : string) : string :=
  match s with
  | EmptyString => acc
  | String c r => reverse_onto r (String c acc)
  end.

Definition reverse (s : string) : string := reverse_onto s EmptyString.

(** [trim_start] on a string read from its end. *)
Fixpoint trim_reversed (s : string) : string :=
  match s with
  | EmptyString => EmptyString
  | String c0 r0 =>
      if is_space c0 then trim_reversed r0
      else
        match r0 with
        | EmptyString => s
        | String c1 r1 =>
            if is_space2 c1 c0 then trim_reversed r1
            else
              match r1 with
              | EmptyString => s
              | String c2 r2 => if is_space3 c2 c1 c0 then trim_reversed r2 else s
              end
        end
  end.

Definition trim_end (s : string) : string := reverse (trim_reversed (reverse s)).

Definition trim (s : string) : string := trim_end (trim_start s).

Definition to_upper (c : ascii) : ascii :=
  let n := nat_of_ascii c in
  if (97 <=? n) && (n <=? 122) then ascii_of_nat (n - 32) else c.

Fixpoint upper (s : string) : string :=
  match s with
  | EmptyString => EmptyString
  | String c r => String (to_upper c) (upper r)
  end.

(** The characters with a meaning of their own in a regular expression. *)
Definition regex_meta (c : ascii) : bool :=
  match nat_of_ascii c with
  | 92 | 94 | 36 | 46 | 124 | 63 | 42 | 43 | 40 | 41 | 91 | 93 | 123 | 125 => true
  | _ => false
  end.

(** A pattern source made of ASCII characters that stand for themselves. *)
Fixpoint regex_literal (p : string) : bool :=
  match p with
  | EmptyString => true
  | String c r => negb (regex_meta c) && (nat_of_ascii c <? 128) && regex_literal r
  end.

(** Schema option [maxlength] on an optional string path with [trim: true]. *)
Definition text_ok (max : nat) (v : option string) : bool :=
  match v with
  | None => true
  | Some s => js_length (trim s) <=? max
  end.

Definition trimmed (v : option string) : option string := option_map trim v.

(** Schema options [required] and [maxlength] on a string path with [trim: true]. *)
Definition required_text_ok (max : nat) (v : option string) : bool :=
  match v with
  | None => false
  | Some s => negb (trim s =? "")%string && (js_length (trim s) <=? max)
  end.

(** Schema option [min: 0.01] on an amount. *)
Definition amount_ok (q : Q) : bool := Qle_bool (1 # 100) q.

(** ** Models *)

(** *** models/CreditCard.js *)
Module CreditCard.

Record t : Type := {
  _id : ObjectId;
  user_id : ObjectId;
  bank_name : string;
  card_number : string;
  limit_amount : option Q;
  due_date : nat;
  is_active : bool
}.

End CreditCard.

(** *** models/BorrowedMoney.js *)
Module BorrowedMoney.

Inductive Kind : Type := borrowed | lent.
Inductive Status : Type := pending | repaid | partial.

Record t : Type := {
  _id : ObjectId;
  user_id : ObjectId;
  name : string;
  phone : option string;
  amount : Q;
  type : Kind;
  status : Status;
  note : option string;
  repaid_amount : Q
}.

(** The virtual [remaining_amount]. *)
Definition remaining_amount (b : t) : Q := (amount b - repaid_amount b)%Q.

Definition with_repaid_amount (r : Q) (b : t) : t :=
  {| _id := _id b; user_id := user_id b; name := name b; phone := phone b;
     amount := amount b; type := type b; status := status b; note := note b;
     repaid_amount := r |}.

Definition with_status (st : Status) (b : t) : t :=
  {| _id := _id b; user_id := user_id b; name := name b; phone := phone b;
     amount := amount b; type := type b; status := st; note := note b;
     repaid_amount := repaid_amount b |}.

(** The [pre('save')] hook: clamp the repaid amount, then derive the status. *)
Definition pre_save (b : t) : t :=
  let b1 := if Qltb (amount b) (repaid_amount b)
            then with_repaid_amount (amount b) b else b in
  if Qeq_bool (repaid_amount b1) 0 then with_status pending b1
  else if Qle_bool (amount b1) (repaid_amount b1) then with_status repaid b1
  else with_status partial b1.

(** The enum of the path [type]. *)
Definition kind_of_string (s : string) : option Kind :=
  if (s =? "borrowed")%string then Some borrowed
  else if (s =? "lent")%string then Some lent
  else None.

(** [new BorrowedMoney({ user_id, name, phone, amount, type, note })] followed
    by the schema validation that [save] runs: [None] is a ValidationError.
    [status] and [repaid_amount] take their defaults. *)
Definition create (id user : ObjectId) (name_ phone_ : option string)
    (amount_ : option Q) (type_ note_ : option string) : option t :=
  match name_, amount_, type_ with
  | Some n, Some a, Some ty =>
      match kind_of_string ty with
      | Some k =>
          if required_text_ok 100 name_ && text_ok 20 phone_ && amount_ok a
             && text_ok 500 note_
          then Some {| _id := id; user_id := user; name := trim n;
                       phone := trimmed phone_; amount := a; type := k;
                       status := pending; note := trimmed note_;
                       repaid_amount := 0 |}
          else None
      | None => None
      end
  | _, _, _ => None
  end.

(** An update document: the paths it sets. A key whose value is undefined
    is dropped from the update, so an absent field leaves the path alone. *)
Record Update : Type := {
  set_name : option string;
  set_phone : option string;
  set_amount : option Q;
  set_type : option string;
  set_note : option string;
  set_repaid_amount : option Q;
  set_status : option Status
}.

(** The update validators ([runValidators: true]): each validator of a path
    the update sets; nothing looks at the paths it leaves alone. *)
Definition update_valid (u : Update) : bool :=
  match set_name u with Some _ => required_text_ok 100 (set_name u) | None => true end
  && text_ok 20 (set_phone u)
  && match set_amount u with Some a => amount_ok a | None => true end
  && match set_type u with
     | Some ty => match kind_of_string ty with Some _ => true | None => false end
     | None => true
     end
  && text_ok 500 (set_note u)
  && match set_repaid_amount u with Some r => Qle_bool 0 r | None => true end.

Definition apply_update (u : Update) (b : t) : t :=
  {| _id := _id b;
     user_id := user_id b;
     name := match set_name u with Some n => trim n | None => name b end;
     phone := match set_phone u with Some p => Some (trim p) | None => phone b end;
     amount := or_else (set_amount u) (amount b);
     type := match set_type u with
             | Some ty => or_else (kind_of_string ty) (type b)
             | None => type b
             end;
     status := or_else (set_status u) (status b);
     note := match set_note u with Some p => Some (trim p) | None => note b end;
     repaid_amount := or_else (set_repaid_amount u) (repaid_amount b) |}.

(** [{ repaid_amount: r }] *)
Definition set_repaid (r : Q) : Update :=
  {| set_name := None; set_phone := None; set_amount := None; set_type := None;
     set_note := None; set_repaid_amount := Some r; set_status := None |}.

(** [{ repaid_amount: r, status: st }] *)
Definition set_repaid_status (r : Q) (st : Status) : Update :=
  {| set_name := None; set_phone := None; set_amount := None; set_type := None;
     set_note := None; set_repaid_amount := Some r; set_status := Some st |}.

End BorrowedMoney.

(** *** models/Payment.js *)
Module Payment.

Inductive Kind : Type := credit_card | borrowed.

Record t : Type := {
  _id : ObjectId;
  user_id : ObjectId;
  type : Kind;
  reference_id : ObjectId;
  amount : Q;
  payment_date : Z;
  note : option string;
  payment_method : string
}.

Definition kind_eqb (a b : Kind) : bool :=
  match a, b with
  | credit_card, credit_card | borrowed, borrowed => true
  | _, _ => false
  end.

(** The enum of the path [payment_method]. *)
Definition method_ok (m : string) : bool :=
  (m =? "cash")%string || (m =? "bank_transfer")%string
  || (m =? "upi")%string || (m =? "cheque")%string.

(** [new Payment({ ... })] followed by the schema validation that [save]
    runs: [None] is a ValidationError. An undefined [payment_method] takes
    the default ['bank_transfer']. *)
Definition create (id user : ObjectId) (k : Kind) (ref : ObjectId)
    (amount_ : option Q) (date : Z) (note_ payment_method_ : option string)
    : option t :=
  match amount_ with
  | Some a =>
      let m := or_else payment_method_ "bank_transfer" in
      if amount_ok a && text_ok 500 note_ && method_ok m
      then Some {| _id := id; user_id := user; type := k; reference_id := ref;
                   amount := a; payment_date := date; note := trimmed note_;
                   payment_method := m |}
      else None
  | None => None
  end.

(** The update document of [PUT /api/payments/:id]. *)
Record Update : Type := {
  set_amount : option Q;
  set_payment_date : option Z;
  set_note : option string;
  set_payment_method : option string
}.

Definition update_valid (u : Update) : bool :=
  match set_amount u with Some a => amount_ok a | None => true end
  && text_ok 500 (set_note u)
  && match set_payment_method u with Some m => method_ok m | None => true end.

Definition apply_update (u : Update) (p : t) : t :=
  {| _id := _id p;
     user_id := user_id p;
     type := type p;
     reference_id := reference_id p;
     amount := or_else (set_amount u) (amount p);
     payment_date := or_else (set_payment_date u) (payment_date p);
     note := match set_note u with Some n => Some (trim n) | None => note p end;
     payment_method := or_else (set_payment_method u) (payment_method p) |}.

End Payment.

(** *** models/Category.js *)
Module Category.

Record t : Type := {
  _id : ObjectId;
  name : string;
  user_id : ObjectId;
  is_default : bool;
  color : string;
  icon : string
}.

(** [new Category({ name, user_id, color, icon })] followed by the schema
    validation that [save] runs. *)
Definition create (id user : ObjectId) (name_ : option string)
    (color_ icon_ : string) : option t :=
  match name_ with
  | Some n =>
      if required_text_ok 50 name_
      then Some {| _id := id; name := trim n; user_id := user;
                   is_default := false; color := color_; icon := icon_ |}
      else None
  | None => None
  end.

(** The unique compound index [{ name: 1, user_id: 1 }]: the key of [c] is
    already taken in the collection. *)
Definition duplicate_key (c : t) (l : list t) : bool :=
  existsb (fun d => (name d =? name c)%string && (user_id d =? user_id c)) l.

End Category.

(** *** models/Expense.js *)
Module Expense.

Inductive Mode : Type := cash | credit_card | borrowed.

Record t : Type := {
  _id : ObjectId;
  user_id : ObjectId;
  amount : Q;
  category_id : ObjectId;
  payment_mode : Mode;
  credit_card_id : option ObjectId;
  borrowed_id : option ObjectId;
  date : Z;
  note : option string;
  is_recurring : bool;
  recurring_frequency : option string
}.

(** The enum of the path [payment_mode]. *)
Definition mode_of_string (s : string) : option Mode :=
  if (s =? "cash")%string then Some cash
  else if (s =? "credit_card")%string then Some credit_card
  else if (s =? "borrowed")%string then Some borrowed
  else None.

(** The enum of the path [recurring_frequency]. *)
Definition frequency_ok (v : option string) : bool :=
  match v with
  | None => true
  | Some f => (f =? "daily")%string || (f =? "weekly")%string
              || (f =? "monthly")%string || (f =? "yearly")%string
  end.

(** The [pre('save')] hook: [true] when it calls [next()] without an error. *)
Definition pre_save (e : t) : bool :=
  match payment_mode e, credit_card_id e, borrowed_id e with
  | credit_card, None, _ => false
  | borrowed, _, None => false
  | _, _, _ => true
  end.

End Expense.

(** ** The document store *)

Record Store : Type := {
  categories : list Category.t;
  creditCards : list CreditCard.t;
  borrowedMoney : list BorrowedMoney.t;
  payments : list Payment.t;
  expenses : list Expense.t;
  next_id : ObjectId
}.

Definition empty_store : Store :=
  {| categories := []; creditCards := []; borrowedMoney := []; payments := [];
     expenses := []; next_id := 0 |}.

Definition with_categories (f : list Category.t -> list Category.t) (s : Store) : Store :=
  {| categories := f (categories s); creditCards := creditCards s;
     borrowedMoney := borrowedMoney s; payments := payments s;
     expenses := expenses s; next_id := next_id s |}.

Definition with_borrowedMoney (f : list BorrowedMoney.t -> list BorrowedMoney.t)
    (s : Store) : Store :=
  {| categories := categories s; creditCards := creditCards s;
     borrowedMoney := f (borrowedMoney s); payments := payments s;
     expenses := expenses s; next_id := next_id s |}.

Definition with_payments (f : list Payment.t -> list Payment.t) (s : Store) : Store :=
  {| categories := categories s; creditCards := creditCards s;
     borrowedMoney := borrowedMoney s; payments := f (payments s);
     expenses := expenses s; next_id := next_id s |}.

Definition with_expenses (f : list Expense.t -> list Expense.t) (s : Store) : Store :=
  {| categories := categories s; creditCards := creditCards s;
     borrowedMoney := borrowedMoney s; payments := payments s;
     expenses := f (expenses s); next_id := next_id s |}.

Definition with_next_id (n : ObjectId) (s : Store) : Store :=
  {| categories := categories s; creditCards := creditCards s;
     borrowedMoney := borrowedMoney s; payments := payments s;
     expenses := expenses s; next_id := n |}.

(** *** Queries on a collection *)

(** [Model.findOne(filter)]: the first document that matches. *)
Definition findOne {A : Type} (p : A -> bool) (l : list A) : option A := find p l.

(** [Model.findOneAndUpdate(filter, update)]: the first match is rewritten. *)
Fixpoint update_first {A : Type} (p : A -> bool) (f : A -> A) (l : list A) : list A :=
  match l with
  | [] => []
  | x :: r => if p x then f x :: r else x :: update_first p f r
  end.

(** [Model.findByIdAndDelete(id)]: the first match is removed. *)
Fixpoint delete_first {A : Type} (p : A -> bool) (l : list A) : list A :=
  match l with
  | [] => []
  | x :: r => if p x then r else x :: delete_first p r
  end.

(** ** Responses *)

Inductive Message : Type :=
| Msg (s : string)
| RepayExceeds (amount remaining : Q).
    (* `Repayment amount (${amount}) cannot exceed remaining amount (${remainingAmount})` *)

(** The report of [GET /api/payments/summary/totals]. *)
Module Totals.

Record Entry : Type := { amount : Q; count : nat }.

Record t : Type := { credit_card : Entry; borrowed : Entry }.

Definition with_credit_card (e : Entry) (x : t) : t :=
  {| credit_card := e; borrowed := borrowed x |}.

Definition with_borrowed (e : Entry) (x : t) : t :=
  {| credit_card := credit_card x; borrowed := e |}.

End Totals.

(** What a response carries besides its message. *)
Inductive Payload : Type :=
| NoPayload
| FieldName (field : string)                       (* { field } *)
| FieldError (field : string) (value : JsStr)      (* { field, value } *)
| RemainingAmount (remaining_amount : Q)           (* { remaining_amount } *)
| BorrowedDoc (borrowedMoney : BorrowedMoney.t)
| PaymentDoc (payment : Payment.t)
| RepaymentDoc (payment : Payment.t) (borrowedMoney : BorrowedMoney.t)
    (remaining_amount : Q)
| CategoryDoc (category : Category.t)
| ExpenseDoc (expense : Expense.t)
| TotalsDoc (totals : Totals.t).

Record Response : Type := {
  code : nat;
  message : option Message;
  payload : Payload
}.

(** [res.status(c).json({ message: m, ...p })] *)
Definition json (c : nat) (m : string) (p : Payload) : Response :=
  {| code := c; message := Some (Msg m); payload := p |}.

(** The [remaining_amount] key of a response, when it has one. *)
Definition reported_remaining (r : Response) : option Q :=
  match payload r with
  | RemainingAmount q => Some q
  | RepaymentDoc _ _ q => Some q
  | _ => None
  end.

(** ** Route handlers as computations *)

Inductive Outcome (A : Type) : Type :=
| Next (a : A)          (* the handler goes on *)
| Sent (r : Response)   (* [return res.status(..).json(..)] *)
| Thrown.               (* an exception, on its way to the [catch] block *)

Arguments Next {A} a.
Arguments Sent {A} r.
Arguments Thrown {A}.

Definition Handler (A : Type) : Type := Store -> Store * Outcome A.

Definition ret {A : Type} (a : A) : Handler A := fun s => (s, Next a).

Definition bind {A B : Type} (m : Handler A) (k : A -> Handler B) : Handler B :=
  fun s =>
    match m s with
    | (s', Next a) => k a s'
    | (s', Sent r) => (s', Sent r)
    | (s', Thrown) => (s', Thrown)
    end.

Notation "x <- m ;; k" := (bind m (fun x => k))
  (at level 100, m at next level, right associativity).
Notation "m ;;; k" := (bind m (fun _ => k))
  (at level 100, right associativity).

Definition send {A : Type} (r : Response) : Handler A := fun s => (s, Sent r).
Definition throw {A : Type} : Handler A := fun s => (s, Thrown).

(** [if (c) return res.status(..).json(..);] *)
Definition reject_if (c : bool) (r : Response) : Handler unit :=
  if c then send r else ret tt.

Definition read {A : Type} (f : Store -> A) : Handler A := fun s => (s, Next (f s)).
Definition write (f : Store -> Store) : Handler unit := fun s => (f s, Next tt).

(** [new ObjectId()] *)
Definition newObjectId : Handler ObjectId :=
  fun s => (with_next_id (S (next_id s)) s, Next (next_id s)).

(** A route: [try { body } catch (error) { res.status(500).json(..) }]. *)
Definition Route : Type := Store -> Store * Response.

Definition try_catch (body : Handler Response) (on_error : Response) : Route :=
  fun s =>
    match body s with
    | (s', Next r) => (s', r)
    | (s', Sent r) => (s', r)
    | (s', Thrown) => (s', on_error)
    end.

(** ** Request bodies *)

(** [req.body] of [POST] and [PUT /api/borrowed-money]. *)
Module BorrowedMoneyBody.
Record t : Type := {
  name : option string;
  phone : option string;
  amount : option Q;
  type : option string;
  note : option string
}.
End BorrowedMoneyBody.

(** [req.body] of [POST /api/borrowed-money/:id/repay], with a number (or
    nothing) under [amount]; [Binary64.RepayBody] has the body with any
    value there. *)
Module RepayBody.
Record t : Type := {
  amount : option Q;
  payment_date : option Z;
  note : option string;
  payment_method : option string
}.
End RepayBody.

(** [req.body] of [POST] and [PUT /api/payments], with a number (or
    nothing) under [amount]. *)
Module PaymentBody.
Record t : Type := {
  type : option string;
  reference_id : JsStr;
  amount : option Q;
  payment_date : option Z;
  note : option string;
  payment_method : option string
}.
End PaymentBody.

(** [req.body] of [POST] and [PUT /api/expenses]: the keys that are paths of
    the schema. [POST] reads the nine keys it names; [PUT] spreads the whole
    body into its update, the key [user_id] with the rest. *)
Module ExpenseBody.
Record t : Type := {
  user_id : JsStr;
  amount : option Q;
  category_id : JsStr;
  payment_mode : option string;
  credit_card_id : JsStr;
  borrowed_id : JsStr;
  date : option Z;
  note : option string;
  is_recurring : option bool;
  recurring_frequency : option string
}.
End ExpenseBody.

(** [req.body] of [POST /api/categories]. *)
Module CategoryBody.
Record t : Type := {
  name : option string;
  color : option string;
  icon : option string
}.
End CategoryBody.

(** ** Aggregations over the payments *)

Definition sum_amounts (l : list Payment.t) : Q :=
  fold_left (fun acc p => (acc + Payment.amount p)%Q) l 0%Q.

(** The [$match] stage of the recomputation: the caller's payments of type
    ['borrowed'] that reference the record. *)
Definition repayment_of (user ref : ObjectId) (p : Payment.t) : bool :=
  (Payment.user_id p =? user) && Payment.kind_eqb (Payment.type p) Payment.borrowed
  && (Payment.reference_id p =? ref).

(** [Payment.aggregate([{ $match }, { $group: { _id: null, total: { $sum:
    '$amount' } } }])]: one group when a payment matches, none otherwise. *)
Definition aggregate_total (user ref : ObjectId) (l : list Payment.t) : list Q :=
  match filter (repayment_of user ref) l with
  | [] => []
  | m => [sum_amounts m]
  end.

(** [totalPaid[0]?.total || 0] *)
Definition total_or_zero (r : list Q) : Q :=
  match r with
  | t :: _ => if Qeq_bool t 0 then 0%Q else t
  | [] => 0%Q
  end.

(** A group of [{ $group: { _id: '$type', total_amount: { $sum: '$amount' },
    count: { $sum: 1 } } }]. *)
Record TypeGroup : Type := {
  group_id : Payment.Kind;
  total_amount : Q;
  group_count : nat
}.

Fixpoint add_to_groups (p : Payment.t) (gs : list TypeGroup) : list TypeGroup :=
  match gs with
  | [] => [{| group_id := Payment.type p; total_amount := (0 + Payment.amount p)%Q;
              group_count := 1 |}]
  | g :: r =>
      if Payment.kind_eqb (group_id g) (Payment.type p)
      then {| group_id := group_id g;
              total_amount := (total_amount g + Payment.amount p)%Q;
              group_count := S (group_count g) |} :: r
      else g :: add_to_groups p r
  end.

Definition group_by_type (l : list Payment.t) : list TypeGroup :=
  fold_left (fun gs p => add_to_groups p gs) l [].

(** The filter of the totals report: the caller's payments, within the
    optional date range (both ends included). *)
Definition in_range (start_date end_date : option Z) (d : Z) : bool :=
  match start_date with Some a => (a <=? d)%Z | None => true end
  && match end_date with Some b => (d <=? b)%Z | None => true end.

Definition totals_filter (user : ObjectId) (start_date end_date : option Z)
    (p : Payment.t) : bool :=
  (Payment.user_id p =? user) && in_range start_date end_date (Payment.payment_date p).

(** The [forEach] over the groups, starting from the zero totals. *)
Definition zero_entry : Totals.Entry := {| Totals.amount := 0; Totals.count := 0 |}.

Definition zero_totals : Totals.t :=
  {| Totals.credit_card := zero_entry; Totals.borrowed := zero_entry |}.

Definition record_group (t : Totals.t) (item : TypeGroup) : Totals.t :=
  let e := {| Totals.amount := total_amount item; Totals.count := group_count item |} in
  match group_id item with
  | Payment.credit_card => Totals.with_credit_card e t
  | Payment.borrowed => Totals.with_borrowed e t
  end.

Definition totals_of (summary : list TypeGroup) : Totals.t :=
  fold_left record_group summary zero_totals.

(** ** The routers *)

Section Routes.

(** Mongoose's cast of a request string to an ObjectId; [None] when the
    string is not a valid id ([mongoose.Types.ObjectId.isValid] is false,
    and a query on it raises a CastError). *)
Variable castObjectId : string -> option ObjectId.

Definition cast_field (v : JsStr) : option ObjectId :=
  match v with
  | JString s => castObjectId s
  | JUndefined | JNull => None
  end.

Definition isValidObjectId (v : JsStr) : bool :=
  match cast_field v with
  | Some _ => true
  | None => false
  end.

(** The filters [{ _id: id }] and [{ _id: id, user_id: req.user._id }]. *)
Definition borrowed_by_id (id : ObjectId) (b : BorrowedMoney.t) : bool :=
  BorrowedMoney._id b =? id.

Definition borrowed_owned (id user : ObjectId) (b : BorrowedMoney.t) : bool :=
  (BorrowedMoney._id b =? id) && (BorrowedMoney.user_id b =? user).

Definition payment_by_id (id : ObjectId) (p : Payment.t) : bool :=
  Payment._id p =? id.

Definition payment_owned (id user : ObjectId) (p : Payment.t) : bool :=
  (Payment._id p =? id) && (Payment.user_id p =? user).

Definition card_owned (id user : ObjectId) (c : CreditCard.t) : bool :=
  (CreditCard._id c =? id) && (CreditCard.user_id c =? user).

Definition category_owned (id user : ObjectId) (c : Category.t) : bool :=
  (Category._id c =? id) && (Category.user_id c =? user).

Definition expense_by_id (id : ObjectId) (e : Expense.t) : bool :=
  Expense._id e =? id.

Definition expense_owned (id user : ObjectId) (e : Expense.t) : bool :=
  (Expense._id e =? id) && (Expense.user_id e =? user).

(** [BorrowedMoney.findByIdAndUpdate(id, update, { new: true })]: the
    updated document, or null. No [save] hook runs on this path. *)
Definition findByIdAndUpdate_borrowed (id : ObjectId) (u : BorrowedMoney.Update)
    : Handler (option BorrowedMoney.t) :=
  fun s =>
    match findOne (borrowed_by_id id) (borrowedMoney s) with
    | Some b =>
        (with_borrowedMoney
           (update_first (borrowed_by_id id) (BorrowedMoney.apply_update u)) s,
         Next (Some (BorrowedMoney.apply_update u b)))
    | None => (s, Next None)
    end.

(** [!(!amount || amount <= 0)]: the amount, when it passes the check. *)
Definition positive_amount (v : option Q) : option Q :=
  match v with
  | Some a => if falsy_num v || Qle_bool a 0 then None else Some a
  | None => None
  end.

(** *** routes/borrowedMoney.js *)

(** [POST /api/borrowed-money] *)
Definition post_borrowed_money (user : ObjectId) (body : BorrowedMoneyBody.t) : Route :=
  try_catch
    (id <- newObjectId ;;
     match BorrowedMoney.create id user (BorrowedMoneyBody.name body)
             (BorrowedMoneyBody.phone body) (BorrowedMoneyBody.amount body)
             (BorrowedMoneyBody.type body) (BorrowedMoneyBody.note body) with
     | None => throw
     | Some doc =>
         let saved := BorrowedMoney.pre_save doc in
         write (with_borrowedMoney (fun l => (l ++ [saved])%list)) ;;;
         ret (json 201
                ((if is_str (BorrowedMoneyBody.type body) "borrowed"
                  then "Borrowed" else "Lent") ++ " money recorded successfully")
                (BorrowedDoc saved))
     end)
    (json 500 "Server error while recording borrowed money" NoPayload).

(** [PUT /api/borrowed-money/:id] *)
Definition put_borrowed_money (user : ObjectId) (id : string)
    (body : BorrowedMoneyBody.t) : Route :=
  try_catch
    (match castObjectId id with
     | None => throw
     | Some rid =>
         let u := {| BorrowedMoney.set_name := BorrowedMoneyBody.name body;
                     BorrowedMoney.set_phone := BorrowedMoneyBody.phone body;
                     BorrowedMoney.set_amount := BorrowedMoneyBody.amount body;
                     BorrowedMoney.set_type := BorrowedMoneyBody.type body;
                     BorrowedMoney.set_note := BorrowedMoneyBody.note body;
                     BorrowedMoney.set_repaid_amount := None;
                     BorrowedMoney.set_status := None |} in
         if negb (BorrowedMoney.update_valid u) then throw
         else
           found <- read (fun s => findOne (borrowed_owned rid user) (borrowedMoney s)) ;;
           match found with
           | None => send (json 404 "Record not found" NoPayload)
           | Some b =>
               write (with_borrowedMoney
                        (update_first (borrowed_owned rid user)
                                      (BorrowedMoney.apply_update u))) ;;;
               ret (json 200 "Record updated successfully"
                         (BorrowedDoc (BorrowedMoney.apply_update u b)))
           end
     end)
    (json 500 "Server error while updating record" NoPayload).

(** [POST /api/borrowed-money/:id/repay], on exact amounts;
    [Binary64.post_borrowed_money_repay] is the action on the numbers of the
    engine. *)
Definition post_borrowed_money_repay (user : ObjectId) (id : string)
    (body : RepayBody.t) : Route :=
  try_catch
    (match positive_amount (RepayBody.amount body) with
     | None => send (json 400 "Valid repayment amount is required" NoPayload)
     | Some amount =>
     match RepayBody.payment_date body with
     | None => send (json 400 "Payment date is required" NoPayload)
     | Some payment_date =>
     match castObjectId id with
     | None => throw
     | Some rid =>
     found <- read (fun s => findOne (borrowed_owned rid user) (borrowedMoney s)) ;;
     match found with
     | None => send (json 404 "Record not found" NoPayload)
     | Some b =>
         let remainingAmount :=
           (BorrowedMoney.amount b - BorrowedMoney.repaid_amount b)%Q in
         reject_if (Qltb remainingAmount amount)
           {| code := 400;
              message := Some (RepayExceeds amount remainingAmount);
              payload := RemainingAmount remainingAmount |} ;;;
         pid <- newObjectId ;;
         match Payment.create pid user Payment.borrowed rid (Some amount) payment_date
                 (Some (str_or_else (RepayBody.note body)
                                    ("Repayment for " ++ BorrowedMoney.name b)))
                 (Some (str_or_else (RepayBody.payment_method body) "cash")) with
         | None => throw
         | Some payment =>
             write (with_payments (fun l => (l ++ [payment])%list)) ;;;
             let newRepaidAmount := (BorrowedMoney.repaid_amount b + amount)%Q in
             let u := BorrowedMoney.set_repaid_status newRepaidAmount
                        (if Qle_bool (BorrowedMoney.amount b) newRepaidAmount
                         then BorrowedMoney.repaid else BorrowedMoney.partial) in
             if negb (BorrowedMoney.update_valid u) then throw
             else
               updated <- findByIdAndUpdate_borrowed rid u ;;
               match updated with
               | None => throw
               | Some b' =>
                   ret (json 201 "Repayment recorded successfully"
                          (RepaymentDoc payment b'
                             (BorrowedMoney.amount b' - BorrowedMoney.repaid_amount b')%Q))
               end
         end
     end end end end)
    (json 500 "Server error while recording repayment" NoPayload).

(** [DELETE /api/borrowed-money/:id] *)
Definition delete_borrowed_money (user : ObjectId) (id : string) : Route :=
  try_catch
    (match castObjectId id with
     | None => throw
     | Some rid =>
         found <- read (fun s => findOne (borrowed_owned rid user) (borrowedMoney s)) ;;
         match found with
         | None => send (json 404 "Record not found" NoPayload)
         | Some _ =>
             hasPayments <- read (fun s => existsb (repayment_of user rid) (payments s)) ;;
             reject_if hasPayments
               (json 400
                  "Cannot delete record with payment history. Please delete payments first."
                  NoPayload) ;;;
             write (with_borrowedMoney (delete_first (borrowed_by_id rid))) ;;;
             ret (json 200 "Record deleted successfully" NoPayload)
         end
     end)
    (json 500 "Server error while deleting record" NoPayload).

(** *** routes/payments.js *)

Definition dquote : string := String (ascii_of_nat 34) EmptyString.

Definition invalid_payment_type : string :=
  "Invalid payment type. Must be either " ++ dquote ++ "credit_card" ++ dquote
  ++ " or " ++ dquote ++ "borrowed" ++ dquote.

(** The recomputation shared by the update and the delete of a payment:
    when the record still exists, its repaid amount becomes the smaller of
    the sum of the caller's payments against it and its principal. *)
Definition recompute_repaid (user ref : ObjectId) : Handler unit :=
  borrowed <- read (fun s => findOne (borrowed_by_id ref) (borrowedMoney s)) ;;
  match borrowed with
  | None => ret tt
  | Some b =>
      totalPaid <- read (fun s => aggregate_total user ref (payments s)) ;;
      let newRepaidAmount := Qmin (total_or_zero totalPaid) (BorrowedMoney.amount b) in
      findByIdAndUpdate_borrowed ref (BorrowedMoney.set_repaid newRepaidAmount) ;;;
      ret tt
  end.

(** [POST /api/payments] *)
Definition post_payments (user : ObjectId) (now : Z) (body : PaymentBody.t) : Route :=
  try_catch
    (match cast_field (PaymentBody.reference_id body) with
     | None =>
         send (json 400
                 "Invalid reference ID format. Reference ID must be a valid MongoDB ObjectId."
                 (FieldError "reference_id" (PaymentBody.reference_id body)))
     | Some ref =>
         kind <-
           (if is_str (PaymentBody.type body) "credit_card" then
              creditCard <- read (fun s => findOne (card_owned ref user) (creditCards s)) ;;
              match creditCard with
              | None =>
                  send (json 400 "Credit card not found or does not belong to you"
                          (FieldError "reference_id" (PaymentBody.reference_id body)))
              | Some _ => ret Payment.credit_card
              end
            else if is_str (PaymentBody.type body) "borrowed" then
              borrowed <- read (fun s => findOne (borrowed_owned ref user) (borrowedMoney s)) ;;
              match borrowed with
              | None =>
                  send (json 400 "Borrowed money record not found or does not belong to you"
                          (FieldError "reference_id" (PaymentBody.reference_id body)))
              | Some _ => ret Payment.borrowed
              end
            else
              send (json 400 invalid_payment_type
                      (FieldError "type"
                         (match PaymentBody.type body with
                          | Some s => JString s
                          | None => JUndefined
                          end)))) ;;
         id <- newObjectId ;;
         match Payment.create id user kind ref (PaymentBody.amount body)
                 (or_else (PaymentBody.payment_date body) now)
                 (PaymentBody.note body) (PaymentBody.payment_method body) with
         | None => throw
         | Some payment =>
             write (with_payments (fun l => (l ++ [payment])%list)) ;;;
             match kind with
             | Payment.borrowed =>
                 borrowed <- read (fun s => findOne (borrowed_by_id ref) (borrowedMoney s)) ;;
                 match borrowed with
                 | None => throw
                 | Some b =>
                     let newRepaidAmount :=
                       Qmin (BorrowedMoney.repaid_amount b + Payment.amount payment)
                            (BorrowedMoney.amount b) in
                     findByIdAndUpdate_borrowed ref
                       (BorrowedMoney.set_repaid newRepaidAmount) ;;;
                     ret tt
                 end
             | Payment.credit_card => ret tt
             end ;;;
             ret (json 201 "Payment recorded successfully" (PaymentDoc payment))
         end
     end)
    (json 500 "Server error while recording payment" NoPayload).

(** [PUT /api/payments/:id] *)
Definition put_payments (user : ObjectId) (id : string) (body : PaymentBody.t) : Route :=
  try_catch
    (match castObjectId id with
     | None => throw
     | Some pid =>
         let u := {| Payment.set_amount := PaymentBody.amount body;
                     Payment.set_payment_date := PaymentBody.payment_date body;
                     Payment.set_note := PaymentBody.note body;
                     Payment.set_payment_method := PaymentBody.payment_method body |} in
         if negb (Payment.update_valid u) then throw
         else
           found <- read (fun s => findOne (payment_owned pid user) (payments s)) ;;
           match found with
           | None => send (json 404 "Payment not found" NoPayload)
           | Some old =>
               let payment := Payment.apply_update u old in
               write (with_payments
                        (update_first (payment_owned pid user) (Payment.apply_update u))) ;;;
               match Payment.type payment with
               | Payment.borrowed => recompute_repaid user (Payment.reference_id payment)
               | Payment.credit_card => ret tt
               end ;;;
               ret (json 200 "Payment updated successfully" (PaymentDoc payment))
           end
     end)
    (json 500 "Server error while updating payment" NoPayload).

(** [DELETE /api/payments/:id] *)
Definition delete_payments (user : ObjectId) (id : string) : Route :=
  try_catch
    (match castObjectId id with
     | None => throw
     | Some pid =>
         found <- read (fun s => findOne (payment_owned pid user) (payments s)) ;;
         match found with
         | None => send (json 404 "Payment not found" NoPayload)
         | Some payment =>
             write (with_payments (delete_first (payment_by_id pid))) ;;;
             match Payment.type payment with
             | Payment.borrowed => recompute_repaid user (Payment.reference_id payment)
             | Payment.credit_card => ret tt
             end ;;;
             ret (json 200 "Payment deleted successfully" NoPayload)
         end
     end)
    (json 500 "Server error while deleting payment" NoPayload).

(** [GET /api/payments/summary/totals] *)
Definition get_payments_summary_totals (user : ObjectId)
    (start_date end_date : option Z) : Route :=
  try_catch
    (summary <- read (fun s => group_by_type
                                 (filter (totals_filter user start_date end_date)
                                         (payments s))) ;;
     ret {| code := 200; message := None; payload := TotalsDoc (totals_of summary) |})
    (json 500 "Server error while fetching payment summary" NoPayload).

(** *** routes/expenses.js *)

(** [v && v.trim() !== '' ? v : undefined] *)
Definition clean_id (v : JsStr) : JsStr :=
  match v with
  | JString s => if falsy v || (trim s =? "")%string then JUndefined else v
  | JUndefined | JNull => JUndefined
  end.

(** The cast of a value to an optional ObjectId path: undefined and null are
    null, a string is cast; the outer [None] is a CastError. *)
Definition cast_ref (v : JsStr) : option (option ObjectId) :=
  match v with
  | JUndefined | JNull => Some None
  | JString s =>
      match castObjectId s with
      | Some i => Some (Some i)
      | None => None
      end
  end.

(** [new Expense({ ... })] followed by the schema validation that [save]
    runs: [None] is a CastError or a ValidationError. *)
Definition Expense_create (id user : ObjectId) (amount_ : option Q) (category_ : JsStr)
    (mode_ : option string) (card_ borrowed_ : JsStr) (date_ : Z)
    (note_ : option string) (recurring_ : option bool) (frequency_ : option string)
    : option Expense.t :=
  match amount_, cast_field category_, mode_, cast_ref card_, cast_ref borrowed_ with
  | Some a, Some cat, Some m, Some card, Some bor =>
      match Expense.mode_of_string m with
      | Some mode =>
          if amount_ok a && text_ok 500 note_ && Expense.frequency_ok frequency_
          then Some {| Expense._id := id; Expense.user_id := user;
                       Expense.amount := a; Expense.category_id := cat;
                       Expense.payment_mode := mode;
                       Expense.credit_card_id := card; Expense.borrowed_id := bor;
                       Expense.date := date_; Expense.note := trimmed note_;
                       Expense.is_recurring := or_else recurring_ false;
                       Expense.recurring_frequency := frequency_ |}
          else None
      | None => None
      end
  | _, _, _, _, _ => None
  end.

(** [if (mode === v) { if (!id) 400; if (!isValidObjectId(id)) 400;
    if (!found) 400 }]: the three rejections of a conditional reference. *)
Definition check_reference {A : Type} (missing : bool) (v : JsStr)
    (lookup : ObjectId -> Store -> option A)
    (required_msg invalid_msg not_found_msg field : string) : Handler unit :=
  reject_if missing (json 400 required_msg (FieldName field)) ;;;
  match cast_field v with
  | None => send (json 400 invalid_msg (FieldError field v))
  | Some i =>
      found <- read (lookup i) ;;
      match found with
      | None => send (json 400 not_found_msg (FieldError field v))
      | Some _ => ret tt
      end
  end.

Definition blank (v : JsStr) : bool :=
  match v with
  | JString s => (trim s =? "")%string
  | JUndefined | JNull => false
  end.

Definition check_credit_card (user : ObjectId) (missing : bool) (v : JsStr) : Handler unit :=
  check_reference missing v
    (fun i s => findOne (card_owned i user) (creditCards s))
    "Credit card is required for credit card payment"
    "Invalid credit card ID format. Credit card ID must be a valid MongoDB ObjectId."
    "Credit card not found or does not belong to you"
    "credit_card_id".

Definition check_borrowed (user : ObjectId) (missing : bool) (v : JsStr) : Handler unit :=
  check_reference missing v
    (fun i s => findOne (borrowed_owned i user) (borrowedMoney s))
    "Borrowed money reference is required"
    "Invalid borrowed money ID format. Borrowed money ID must be a valid MongoDB ObjectId."
    "Borrowed money record not found or does not belong to you"
    "borrowed_id".

Definition check_category (user : ObjectId) (v : JsStr) : Handler unit :=
  match cast_field v with
  | None =>
      send (json 400
              "Invalid category ID format. Category ID must be a valid MongoDB ObjectId."
              (FieldError "category_id" v))
  | Some i =>
      category <- read (fun s => findOne (category_owned i user) (categories s)) ;;
      match category with
      | None => send (json 400 "Category not found or does not belong to you"
                        (FieldError "category_id" v))
      | Some _ => ret tt
      end
  end.

(** [POST /api/expenses] *)
Definition post_expenses (user : ObjectId) (now : Z) (body : ExpenseBody.t) : Route :=
  try_catch
    (reject_if (match positive_amount (ExpenseBody.amount body) with
                | None => true | Some _ => false end)
       (json 400 "Valid amount is required" NoPayload) ;;;
     reject_if (falsy (ExpenseBody.category_id body))
       (json 400 "Category is required" NoPayload) ;;;
     reject_if (falsy_str (ExpenseBody.payment_mode body))
       (json 400 "Payment mode is required" NoPayload) ;;;
     check_category user (ExpenseBody.category_id body) ;;;
     (if is_str (ExpenseBody.payment_mode body) "credit_card"
      then check_credit_card user (falsy (ExpenseBody.credit_card_id body))
             (ExpenseBody.credit_card_id body)
      else ret tt) ;;;
     (if is_str (ExpenseBody.payment_mode body) "borrowed"
      then check_borrowed user
             (falsy (ExpenseBody.borrowed_id body) || blank (ExpenseBody.borrowed_id body))
             (ExpenseBody.borrowed_id body)
      else ret tt) ;;;
     id <- newObjectId ;;
     match Expense_create id user (ExpenseBody.amount body)
             (ExpenseBody.category_id body) (ExpenseBody.payment_mode body)
             (clean_id (ExpenseBody.credit_card_id body))
             (clean_id (ExpenseBody.borrowed_id body))
             (or_else (ExpenseBody.date body) now) (ExpenseBody.note body)
             (ExpenseBody.is_recurring body) (ExpenseBody.recurring_frequency body) with
     | None => throw
     | Some expense =>
         if negb (Expense.pre_save expense) then throw
         else
           write (with_expenses (fun l => (l ++ [expense])%list)) ;;;
           ret (json 201 "Expense created successfully" (ExpenseDoc expense))
     end)
    (json 500 "Server error while creating expense" NoPayload).

(** The cleanup of [updateData]: a blank id string becomes undefined; null
    and undefined stay as they are. *)
Definition clean_update_id (v : JsStr) : JsStr :=
  match v with
  | JString s => if (trim s =? "")%string then JUndefined else v
  | JUndefined | JNull => v
  end.

(** The cast and the update validators of [Expense.findByIdAndUpdate(id,
    updateData, { runValidators: true })], on the paths the update sets. *)
Definition expense_update_valid (d : ExpenseBody.t) : bool :=
  match ExpenseBody.user_id d with
  | JUndefined => true
  | JNull => false
  | JString _ => isValidObjectId (ExpenseBody.user_id d)
  end
  && match ExpenseBody.amount d with Some a => amount_ok a | None => true end
  && match ExpenseBody.category_id d with
     | JUndefined => true
     | JNull => false
     | JString _ => isValidObjectId (ExpenseBody.category_id d)
     end
  && match ExpenseBody.payment_mode d with
     | Some m => match Expense.mode_of_string m with Some _ => true | None => false end
     | None => true
     end
  && match cast_ref (ExpenseBody.credit_card_id d) with Some _ => true | None => false end
  && match cast_ref (ExpenseBody.borrowed_id d) with Some _ => true | None => false end
  && text_ok 500 (ExpenseBody.note d)
  && Expense.frequency_ok (ExpenseBody.recurring_frequency d).

(** A path of the update: undefined leaves the stored value alone. *)
Definition set_ref (v : JsStr) (old : option ObjectId) : option ObjectId :=
  match v with
  | JUndefined => old
  | JNull => None
  | JString s => castObjectId s
  end.

Definition expense_apply_update (d : ExpenseBody.t) (e : Expense.t) : Expense.t :=
  {| Expense._id := Expense._id e;
     Expense.user_id :=
       or_else (cast_field (ExpenseBody.user_id d)) (Expense.user_id e);
     Expense.amount := or_else (ExpenseBody.amount d) (Expense.amount e);
     Expense.category_id :=
       or_else (cast_field (ExpenseBody.category_id d)) (Expense.category_id e);
     Expense.payment_mode :=
       match ExpenseBody.payment_mode d with
       | Some m => or_else (Expense.mode_of_string m) (Expense.payment_mode e)
       | None => Expense.payment_mode e
       end;
     Expense.credit_card_id :=
       set_ref (ExpenseBody.credit_card_id d) (Expense.credit_card_id e);
     Expense.borrowed_id := set_ref (ExpenseBody.borrowed_id d) (Expense.borrowed_id e);
     Expense.date := or_else (ExpenseBody.date d) (Expense.date e);
     Expense.note :=
       match ExpenseBody.note d with
       | Some n => Some (trim n)
       | None => Expense.note e
       end;
     Expense.is_recurring := or_else (ExpenseBody.is_recurring d) (Expense.is_recurring e);
     Expense.recurring_frequency :=
       match ExpenseBody.recurring_frequency d with
       | Some f => Some f
       | None => Expense.recurring_frequency e
       end |}.

(** [const updateData = { ...req.body }] and its cleanup: every key of the
    body is a key of the update. *)
Definition updateData (body : ExpenseBody.t) : ExpenseBody.t :=
  {| ExpenseBody.user_id := ExpenseBody.user_id body;
     ExpenseBody.amount := ExpenseBody.amount body;
     ExpenseBody.category_id := ExpenseBody.category_id body;
     ExpenseBody.payment_mode := ExpenseBody.payment_mode body;
     ExpenseBody.credit_card_id := clean_update_id (ExpenseBody.credit_card_id body);
     ExpenseBody.borrowed_id := clean_update_id (ExpenseBody.borrowed_id body);
     ExpenseBody.date := ExpenseBody.date body;
     ExpenseBody.note := ExpenseBody.note body;
     ExpenseBody.is_recurring := ExpenseBody.is_recurring body;
     ExpenseBody.recurring_frequency := ExpenseBody.recurring_frequency body |}.

(** [PUT /api/expenses/:id] *)
Definition put_expenses (user : ObjectId) (id : string) (body : ExpenseBody.t) : Route :=
  try_catch
    (match castObjectId id with
     | None => throw
     | Some eid =>
         expense <- read (fun s => findOne (expense_owned eid user) (expenses s)) ;;
         match expense with
         | None => send (json 404 "Expense not found" NoPayload)
         | Some old =>
             (if negb (falsy (ExpenseBody.category_id body))
              then check_category user (ExpenseBody.category_id body)
              else ret tt) ;;;
             (if is_str (ExpenseBody.payment_mode body) "credit_card"
                 && negb (falsy (ExpenseBody.credit_card_id body))
              then check_credit_card user false (ExpenseBody.credit_card_id body)
              else ret tt) ;;;
             (if is_str (ExpenseBody.payment_mode body) "borrowed"
                 && negb (falsy (ExpenseBody.borrowed_id body))
              then check_borrowed user
                     (falsy (ExpenseBody.borrowed_id body)
                      || blank (ExpenseBody.borrowed_id body))
                     (ExpenseBody.borrowed_id body)
              else ret tt) ;;;
             let d := updateData body in
             if negb (expense_update_valid d) then throw
             else
               write (with_expenses
                        (update_first (expense_by_id eid) (expense_apply_update d))) ;;;
               ret (json 200 "Expense updated successfully"
                         (ExpenseDoc (expense_apply_update d old)))
         end
     end)
    (json 500 "Server error while updating expense" NoPayload).

(** *** routes/categories.js *)

(** [new RegExp(source, 'i')] for a source that is not a literal: [None]
    when the source is a SyntaxError, the test function otherwise. *)
Variable RegExp_i : string -> option (string -> bool).

(** [new RegExp(`^${name}$`, 'i')]: a name made of literal ASCII characters
    matches the strings equal to it up to case; any other name is left to
    the engine. An undefined name is interpolated as the text [undefined]. *)
Definition name_regexp (name : option string) : option (string -> bool) :=
  let n := or_else name "undefined" in
  if regex_literal n then Some (fun s => (upper s =? upper n)%string)
  else RegExp_i ("^" ++ n ++ "$").

(** [POST /api/categories] *)
Definition post_categories (user : ObjectId) (body : CategoryBody.t) : Route :=
  try_catch
    (match name_regexp (CategoryBody.name body) with
     | None => throw
     | Some test =>
         existingCategory <-
           read (fun s => findOne (fun c => test (Category.name c)
                                            && (Category.user_id c =? user))
                                  (categories s)) ;;
         match existingCategory with
         | Some _ => send (json 400 "Category with this name already exists" NoPayload)
         | None =>
             id <- newObjectId ;;
             match Category.create id user (CategoryBody.name body)
                     (str_or_else (CategoryBody.color body) "#667eea")
                     (str_or_else (CategoryBody.icon body) "💰") with
             | None => throw
             | Some category =>
                 dup <- read (fun s => Category.duplicate_key category (categories s)) ;;
                 if dup then throw
                 else
                   write (with_categories (fun l => (l ++ [category])%list)) ;;;
                   ret (json 201 "Category created successfully" (CategoryDoc category))
             end
         end
     end)
    (json 500 "Server error while creating category" NoPayload).

End Routes.

(** ** The claimed behaviour, in the specification's words *)

(** The status as the pure function of the repaid amount and the principal:
    pending when nothing is repaid, repaid when the repaid amount reaches
    the principal, partial in between. *)
Definition derived_status (repaid_amount amount : Q) : BorrowedMoney.Status :=
  if Qeq_bool repaid_amount 0 then BorrowedMoney.pending
  else if Qle_bool amount repaid_amount then BorrowedMoney.repaid
  else BorrowedMoney.partial.

(** A payment of type ['borrowed'] that references the record [ref]. *)
Definition references (ref : ObjectId) (p : Payment.t) : bool :=
  Payment.kind_eqb (Payment.type p) Payment.borrowed && (Payment.reference_id p =? ref).

(** The sum of the amounts of all the payments of type ['borrowed'] that
    reference a record; zero when there is none. *)
Definition paid_against (ref : ObjectId) (l : list Payment.t) : Q :=
  sum_amounts (filter (references ref) l).

(** The data model's invariant on payments: the record a payment of type
    ['borrowed'] references, when it exists, belongs to the payment's user. *)
Definition reference_owned (s : Store) (p : Payment.t) : bool :=
  match Payment.type p with
  | Payment.credit_card => true
  | Payment.borrowed =>
      match findOne (borrowed_by_id (Payment.reference_id p)) (borrowedMoney s) with
      | Some b => BorrowedMoney.user_id b =? Payment.user_id p
      | None => true
      end
  end.

Definition references_owned (s : Store) : bool :=
  forallb (reference_owned s) (payments s).

(** The entry of the report under the key of a payment type. *)
Definition entry (k : Payment.Kind) (t : Totals.t) : Totals.Entry :=
  match k with
  | Payment.credit_card => Totals.credit_card t
  | Payment.borrowed => Totals.borrowed t
  end.

(** The payments of the report's filter that have the type [k]. *)
Definition matching (user : ObjectId) (start_date end_date : option Z)
    (k : Payment.Kind) (l : list Payment.t) : list Payment.t :=
  filter (fun p => totals_filter user start_date end_date p
                   && Payment.kind_eqb (Payment.type p) k) l.

(** ** Example requests and stores *)

(** The cast of the examples: an id is written as a letter and a digit,
    [b0], [p1], ... *)
Definition demo_cast (s : string) : option ObjectId :=
  match s with
  | String _ (String d EmptyString) =>
      let n := nat_of_ascii d in
      if (48 <=? n) && (n <=? 57) then Some (n - 48) else None
  | _ => None
  end.

(** The engine of the examples rejects every pattern that is not literal. *)
Definition demo_regexp (source : string) : option (string -> bool) := None.

(** The body [{ name: 'Asha', amount: a, type: 'borrowed' }]. *)
Definition loan (a : Q) : BorrowedMoneyBody.t :=
  {| BorrowedMoneyBody.name := Some "Asha"; BorrowedMoneyBody.phone := None;
     BorrowedMoneyBody.amount := Some a; BorrowedMoneyBody.type := Some "borrowed";
     BorrowedMoneyBody.note := None |}.

(** The body [{ amount: a, payment_date: d }] of a repay request. *)
Definition repayment (a : Q) (d : option Z) : RepayBody.t :=
  {| RepayBody.amount := Some a; RepayBody.payment_date := d;
     RepayBody.note := None; RepayBody.payment_method := None |}.

(** The body [{ type: 'borrowed', reference_id: ref, amount: a }]. *)
Definition payment_against (ref : string) (a : Q) : PaymentBody.t :=
  {| PaymentBody.type := Some "borrowed"; PaymentBody.reference_id := JString ref;
     PaymentBody.amount := Some a; PaymentBody.payment_date := None;
     PaymentBody.note := None; PaymentBody.payment_method := None |}.

(** User 7 records a loan of 1000: the record gets the id 0. *)
Definition one_loan : Store := fst (post_borrowed_money 7 (loan 1000) empty_store).

(** ... and repays 400 of it through the repay action: payment 1. *)
Definition loan_repaid_400 : Store :=
  fst (post_borrowed_money_repay demo_cast 7 "b0" (repayment 400 (Some 5%Z)) one_loan).

(** [PUT /api/payments/:id] with the amount [a] and the other fields of
    the repayment above. *)
Definition payment_edit (a : Q) : PaymentBody.t :=
  {| PaymentBody.type := None; PaymentBody.reference_id := JUndefined;
     PaymentBody.amount := Some a; PaymentBody.payment_date := Some 5%Z;
     PaymentBody.note := Some "Repayment for Asha";
     PaymentBody.payment_method := Some "cash" |}.

(** The loan of 1000 after its payment of 400 was edited to 250. *)
Definition loan_payment_edited : Store :=
  fst (put_payments demo_cast 7 "p1" (payment_edit 250) loan_repaid_400).

(** [POST /api/categories] with the body [{ name: n }]. *)
Definition named (n : string) : CategoryBody.t :=
  {| CategoryBody.name := Some n; CategoryBody.color := None; CategoryBody.icon := None |}.

(** User 7 creates the category "Food": it gets the id 0. *)
Definition one_category : Store :=
  fst (post_categories demo_regexp 7 (named "Food") empty_store).

(** An expense of 50 in that category, paid in the given mode, with no
    credit card id and no borrowed id. *)
Definition expense_paid_by (mode : string) : ExpenseBody.t :=
  {| ExpenseBody.user_id := JUndefined;
     ExpenseBody.amount := Some 50%Q; ExpenseBody.category_id := JString "c0";
     ExpenseBody.payment_mode := Some mode; ExpenseBody.credit_card_id := JUndefined;
     ExpenseBody.borrowed_id := JUndefined; ExpenseBody.date := None;
     ExpenseBody.note := None; ExpenseBody.is_recurring := None;
     ExpenseBody.recurring_frequency := None |}.

(** User 7 records a cash expense of 50 in the category "Food": expense 1. *)
Definition one_expense : Store :=
  fst (post_expenses demo_cast 7 9%Z (expense_paid_by "cash") one_category).

(** [PUT /api/expenses/:id] with the body [{ payment_mode: m }]. *)
Definition mode_only (m : string) : ExpenseBody.t :=
  {| ExpenseBody.user_id := JUndefined;
     ExpenseBody.amount := None; ExpenseBody.category_id := JUndefined;
     ExpenseBody.payment_mode := Some m; ExpenseBody.credit_card_id := JUndefined;
     ExpenseBody.borrowed_id := JUndefined; ExpenseBody.date := None;
     ExpenseBody.note := None; ExpenseBody.is_recurring := None;
     ExpenseBody.recurring_frequency := None |}.

(** The projection of a record on the three fields of the invariant. *)
Definition ledger (s : Store) : list (Q * Q * BorrowedMoney.Status) :=
  map (fun b => (BorrowedMoney.amount b, BorrowedMoney.repaid_amount b,
                 BorrowedMoney.status b))
      (borrowedMoney s).

(** * Properties *)

(** ** Rational comparisons *)

Lemma Qltb_true (a b : Q) : Qltb a b = true <-> (a < b)%Q.
Proof.
  unfold Qltb. rewrite negb_true_iff. split; intro H.
  - apply Qnot_le_lt. intro L. apply Qle_bool_iff in L. congruence.
  - destruct (Qle_bool b a) eqn:E; [|reflexivity].
    apply Qle_bool_iff in E. lra.
Qed.

Lemma Qltb_false (a b : Q) : Qltb a b = false <-> (b <= a)%Q.
Proof.
  unfold Qltb. rewrite negb_false_iff. apply Qle_bool_iff.
Qed.

Lemma Qle_bool_false (a b : Q) : Qle_bool a b = false <-> (b < a)%Q.
Proof.
  split; intro H.
  - apply Qnot_le_lt. intro L. apply Qle_bool_iff in L. congruence.
  - destruct (Qle_bool a b) eqn:E; [|reflexivity].
    apply Qle_bool_iff in E. lra.
Qed.

Lemma positive_amount_Some (v : option Q) (a : Q) :
  positive_amount v = Some a <-> v = Some a /\ (0 < a)%Q.
Proof.
  unfold positive_amount, falsy_num. destruct v as [q|]; [|split; [discriminate|intros [H _]; discriminate]].
  destruct (Qeq_bool q 0) eqn:E0; simpl.
  - apply Qeq_bool_iff in E0. split; [discriminate|].
    intros [H L]. injection H as ->. lra.
  - destruct (Qle_bool q 0) eqn:E1.
    + apply Qle_bool_iff in E1. split; [discriminate|].
      intros [H L]. injection H as ->. lra.
    + apply Qle_bool_false in E1. split.
      * intro H. injection H as ->. split; [reflexivity|exact E1].
      * intros [H _]. exact H.
Qed.

(** ** Reading a collection after a write *)

Lemma borrowedMoney_with_payments f s :
  borrowedMoney (with_payments f s) = borrowedMoney s.
Proof. reflexivity. Qed.

Lemma borrowedMoney_with_next_id n s :
  borrowedMoney (with_next_id n s) = borrowedMoney s.
Proof. reflexivity. Qed.

Lemma borrowedMoney_with_borrowedMoney f s :
  borrowedMoney (with_borrowedMoney f s) = f (borrowedMoney s).
Proof. reflexivity. Qed.

Lemma payments_with_payments f s :
  payments (with_payments f s) = f (payments s).
Proof. reflexivity. Qed.

Lemma payments_with_next_id n s :
  payments (with_next_id n s) = payments s.
Proof. reflexivity. Qed.

Lemma payments_with_borrowedMoney f s :
  payments (with_borrowedMoney f s) = payments s.
Proof. reflexivity. Qed.

Lemma categories_with_next_id n s :
  categories (with_next_id n s) = categories s.
Proof. reflexivity. Qed.

Lemma categories_with_categories f s :
  categories (with_categories f s) = f (categories s).
Proof. reflexivity. Qed.

Lemma expenses_with_expenses f s :
  expenses (with_expenses f s) = f (expenses s).
Proof. reflexivity. Qed.

Create Rewrite HintDb store.

#[local] Hint Rewrite borrowedMoney_with_payments borrowedMoney_with_next_id
  borrowedMoney_with_borrowedMoney payments_with_payments payments_with_next_id
  payments_with_borrowedMoney categories_with_next_id categories_with_categories
  expenses_with_expenses : store.

(** ** Queries after a write *)

Section Collections.

Context {A : Type}.
Variables (p : A -> bool) (f : A -> A).

Lemma find_update_first (l : list A) :
  (forall x, p (f x) = p x) ->
  find p (update_first p f l) = option_map f (find p l).
Proof.
  intro Hp. induction l as [|x r IH]; simpl; [reflexivity|].
  destruct (p x) eqn:E; simpl.
  - rewrite Hp, E. reflexivity.
  - rewrite E. exact IH.
Qed.

Lemma in_update_first (l : list A) (y : A) :
  In y (update_first p f l) -> In y l \/ exists x, In x l /\ y = f x.
Proof.
  induction l as [|x r IH]; simpl; [tauto|].
  destruct (p x); simpl.
  - intros [<-|H]; [right; exists x; auto | left; auto].
  - intros [<-|H]; [left; auto|].
    destruct (IH H) as [H1|[z [Hz ->]]]; [left; auto | right; exists z; auto].
Qed.

End Collections.

Lemma in_delete_first {A : Type} (p : A -> bool) (l : list A) (y : A) :
  In y (delete_first p l) -> In y l.
Proof.
  induction l as [|x r IH]; simpl; [tauto|].
  destruct (p x); simpl; [auto|]. intros [<-|H]; auto.
Qed.

(** ** The reconciliation of the repaid amount *)

Lemma borrowed_by_id_apply_update (id : ObjectId) (u : BorrowedMoney.Update)
    (x : BorrowedMoney.t) :
  borrowed_by_id id (BorrowedMoney.apply_update u x) = borrowed_by_id id x.
Proof. reflexivity. Qed.

(** What [findByIdAndUpdate] does to a record that exists: the record found
    under the id afterwards is the old one with the update applied, and the
    other collections are untouched. *)
Lemma findByIdAndUpdate_borrowed_found (id : ObjectId) (u : BorrowedMoney.Update)
    (s : Store) (b : BorrowedMoney.t) :
  findOne (borrowed_by_id id) (borrowedMoney s) = Some b ->
  exists s',
    findByIdAndUpdate_borrowed id u s = (s', Next (Some (BorrowedMoney.apply_update u b)))
    /\ findOne (borrowed_by_id id) (borrowedMoney s')
       = Some (BorrowedMoney.apply_update u b)
    /\ payments s' = payments s.
Proof.
  intro Hb. unfold findByIdAndUpdate_borrowed. rewrite Hb.
  eexists. split; [reflexivity|]. split; [|reflexivity].
  simpl. unfold findOne in *.
  rewrite find_update_first by (intro x; apply borrowed_by_id_apply_update).
  rewrite Hb. reflexivity.
Qed.

Lemma Payment_create_amount (id user ref : ObjectId) (k : Payment.Kind) (a : option Q)
    (d : Z) (n m : option string) (p : Payment.t) :
  Payment.create id user k ref a d n m = Some p ->
  a = Some (Payment.amount p) /\ Payment.type p = k /\ Payment.reference_id p = ref
  /\ Payment.user_id p = user /\ Payment._id p = id.
Proof.
  unfold Payment.create. destruct a as [q|]; [|discriminate].
  destruct (_ && _); [|discriminate].
  intro H. injection H as <-. simpl. repeat split; reflexivity.
Qed.

Lemma owned_found_by_id (rid user : ObjectId) (l : list BorrowedMoney.t)
    (b : BorrowedMoney.t) :
  findOne (borrowed_owned rid user) l = Some b ->
  exists b0, findOne (borrowed_by_id rid) l = Some b0.
Proof.
  unfold findOne. induction l as [|x r IH]; simpl; [discriminate|].
  unfold borrowed_owned at 1, borrowed_by_id at 1.
  destruct (BorrowedMoney._id x =? rid); simpl.
  - intros _. exists x. reflexivity.
  - exact IH.
Qed.

(** *** Recomputation from the payments *)

Lemma total_or_zero_aggregate (user ref : ObjectId) (l : list Payment.t) :
  (forall q, In q l -> references ref q = true -> Payment.user_id q = user) ->
  (total_or_zero (aggregate_total user ref l) == paid_against ref l)%Q.
Proof.
  intro Hown. unfold aggregate_total, paid_against.
  assert (filter (repayment_of user ref) l = filter (references ref) l) as ->.
  { apply filter_ext_in. intros q Hq. unfold repayment_of.
    rewrite <- andb_assoc. fold (references ref q).
    destruct (references ref q) eqn:E; [|apply andb_false_r].
    rewrite (Hown q Hq E), Nat.eqb_refl. reflexivity. }
  destruct (filter (references ref) l) as [|q m]; [reflexivity|].
  unfold total_or_zero.
  destruct (Qeq_bool _ 0) eqn:E; [|reflexivity].
  apply Qeq_bool_iff in E. symmetry. exact E.
Qed.

Lemma referencing_payments_owned (s : Store) (ref : ObjectId) (b : BorrowedMoney.t) :
  references_owned s = true ->
  findOne (borrowed_by_id ref) (borrowedMoney s) = Some b ->
  forall x, In x (payments s) -> references ref x = true ->
            Payment.user_id x = BorrowedMoney.user_id b.
Proof.
  intros Hown Hb x Hx Hr. unfold references_owned in Hown.
  rewrite forallb_forall in Hown. specialize (Hown x Hx).
  unfold references in Hr. apply andb_true_iff in Hr. destruct Hr as [Hk Hid].
  apply Nat.eqb_eq in Hid. unfold reference_owned in Hown.
  destruct (Payment.type x); [discriminate|].
  rewrite Hid, Hb in Hown. apply Nat.eqb_eq in Hown. auto.
Qed.

Lemma recompute_repaid_found (user ref : ObjectId) (s : Store) (b : BorrowedMoney.t) :
  findOne (borrowed_by_id ref) (borrowedMoney s) = Some b ->
  exists s',
    recompute_repaid user ref s = (s', Next tt)
    /\ payments s' = payments s
    /\ findOne (borrowed_by_id ref) (borrowedMoney s')
       = Some (BorrowedMoney.apply_update
                 (BorrowedMoney.set_repaid
                    (Qmin (total_or_zero (aggregate_total user ref (payments s)))
                          (BorrowedMoney.amount b))) b).
Proof.
  intro Hb. unfold recompute_repaid, bind, read. rewrite Hb.
  match goal with
  | |- context [findByIdAndUpdate_borrowed ?i ?u ?st] =>
      destruct (findByIdAndUpdate_borrowed_found i u st b Hb) as [s2 [Hupd [Hfind Hpay]]];
      rewrite Hupd
  end.
  exists s2. repeat split; assumption.
Qed.

Lemma recompute_repaid_next (user ref : ObjectId) (s : Store) :
  exists s', recompute_repaid user ref s = (s', Next tt).
Proof.
  destruct (findOne (borrowed_by_id ref) (borrowedMoney s)) as [b|] eqn:Hb.
  - destruct (recompute_repaid_found user ref s b Hb) as [s' [H _]]. eauto.
  - exists s. unfold recompute_repaid, bind, read. rewrite Hb. reflexivity.
Qed.

Lemma references_apply_update (ref : ObjectId) (u : Payment.Update) (x : Payment.t) :
  references ref (Payment.apply_update u x) = references ref x.
Proof. reflexivity. Qed.

Section Recomputed.

Variable castObjectId : string -> option ObjectId.

(** The update document [PUT /api/payments/:id] builds from its body. *)
Definition payment_update (body : PaymentBody.t) : Payment.Update :=
  {| Payment.set_amount := PaymentBody.amount body;
     Payment.set_payment_date := PaymentBody.payment_date body;
     Payment.set_note := PaymentBody.note body;
     Payment.set_payment_method := PaymentBody.payment_method body |}.

(** A request that recomputes the repaid amount of the record with the id
    [ref], with the store and the response it ends in: the update, with a
    body that passes the update validators, or the delete, of a payment of
    the caller of type ['borrowed'] that references the record. *)
Inductive recomputing_request (s : Store) (ref : ObjectId) : Store * Response -> Prop :=
| update_of (user pid : ObjectId) (id : string) (body : PaymentBody.t) (old : Payment.t) :
    castObjectId id = Some pid ->
    Payment.update_valid (payment_update body) = true ->
    findOne (payment_owned pid user) (payments s) = Some old ->
    Payment.type old = Payment.borrowed ->
    Payment.reference_id old = ref ->
    recomputing_request s ref (put_payments castObjectId user id body s)
| delete_of (user pid : ObjectId) (id : string) (p : Payment.t) :
    castObjectId id = Some pid ->
    findOne (payment_owned pid user) (payments s) = Some p ->
    Payment.type p = Payment.borrowed ->
    Payment.reference_id p = ref ->
    recomputing_request s ref (delete_payments castObjectId user id s).

Lemma payment_owned_user (pid user : ObjectId) (l : list Payment.t) (p : Payment.t) :
  findOne (payment_owned pid user) l = Some p ->
  In p l /\ Payment.user_id p = user.
Proof.
  intro H. apply find_some in H. destruct H as [Hin Hp].
  unfold payment_owned in Hp. apply andb_true_iff in Hp. destruct Hp as [_ Hu].
  apply Nat.eqb_eq in Hu. auto.
Qed.

(** Every update that is answered 200 with a payment of type ['borrowed']
    is such a request, and so is every delete that finds a payment of the
    caller of that type. *)
Lemma successful_update_recomputes (s s' : Store) (ref user : ObjectId) (id : string)
    (body : PaymentBody.t) (r : Response) (p : Payment.t) :
  put_payments castObjectId user id body s = (s', r) ->
  code r = 200 ->
  payload r = PaymentDoc p ->
  Payment.type p = Payment.borrowed ->
  Payment.reference_id p = ref ->
  recomputing_request s ref (put_payments castObjectId user id body s).
Proof.
  intros Hrun Hcode Hpay Hty Href.
  unfold put_payments, try_catch in Hrun.
  destruct (castObjectId id) as [pid|] eqn:Hid.
  2:{ injection Hrun as <- <-. discriminate. }
  change (Payment.update_valid _) with (Payment.update_valid (payment_update body))
    in Hrun.
  destruct (Payment.update_valid (payment_update body)) eqn:Hvalid.
  2:{ injection Hrun as <- <-. discriminate. }
  cbn [negb] in Hrun.
  unfold bind at 1 in Hrun. unfold read at 1 in Hrun.
  destruct (findOne (payment_owned pid user) (payments s)) as [old|] eqn:Hold.
  2:{ injection Hrun as <- <-. discriminate. }
  unfold bind at 1 in Hrun. unfold write at 1 in Hrun. unfold bind at 1 in Hrun.
  assert (p = Payment.apply_update (payment_update body) old) as Hp.
  { destruct (Payment.type (Payment.apply_update _ old)).
    - unfold ret in Hrun. injection Hrun as <- <-. simpl in Hpay.
      injection Hpay as Hp. symmetry. exact Hp.
    - match type of Hrun with
      | context [recompute_repaid ?u ?i ?st] =>
          destruct (recompute_repaid_next u i st) as [s2 Hnext]; rewrite Hnext in Hrun
      end.
      unfold ret in Hrun. injection Hrun as <- <-. simpl in Hpay.
      injection Hpay as Hp. symmetry. exact Hp. }
  apply update_of with (pid := pid) (old := old); try assumption.
  - rewrite Hp in Hty. exact Hty.
  - rewrite Hp in Href. exact Href.
Qed.

(** The two requests succeed, and what they do to the store is one write to
    the payments followed by the recomputation, run for the caller. *)
Lemma recomputing_request_steps (s : Store) (ref : ObjectId) (out : Store * Response)
    (b : BorrowedMoney.t) :
  references_owned s = true ->
  recomputing_request s ref out ->
  findOne (borrowed_by_id ref) (borrowedMoney s) = Some b ->
  code (snd out) = 200 /\
  exists user s1,
    (forall q, In q (payments s1) -> references ref q = true -> Payment.user_id q = user)
    /\ borrowedMoney s1 = borrowedMoney s
    /\ recompute_repaid user ref s1 = (fst out, Next tt).
Proof.
  intros Hown W Hb.
  destruct W as [user pid id body old Hid Hvalid Hfound Hty Href
                | user pid id p Hid Hfound Hty Href].
  - destruct (put_payments castObjectId user id body s) as [s' r] eqn:Hrun.
    cbn [fst snd].
    unfold put_payments, try_catch in Hrun. rewrite Hid in Hrun.
    change (Payment.update_valid _) with (Payment.update_valid (payment_update body))
      in Hrun.
    rewrite Hvalid in Hrun. cbn [negb] in Hrun.
    unfold bind at 1 in Hrun. unfold read at 1 in Hrun. rewrite Hfound in Hrun.
    pose proof (payment_owned_user _ _ _ _ Hfound) as [Hin Huser].
    unfold bind at 1 in Hrun. unfold write at 1 in Hrun. unfold bind at 1 in Hrun.
    change (Payment.type (Payment.apply_update _ old)) with (Payment.type old) in Hrun.
    change (Payment.reference_id (Payment.apply_update _ old))
      with (Payment.reference_id old) in Hrun.
    rewrite Hty, Href in Hrun.
    match type of Hrun with
    | context [recompute_repaid user ref ?st] => set (s1 := st) in *
    end.
    destruct (recompute_repaid_found user ref s1 b Hb) as [s2 [Hrec _]].
    rewrite Hrec in Hrun. unfold ret in Hrun. injection Hrun as <- <-.
    split; [reflexivity|].
    exists user, s1. split; [|split; [reflexivity|exact Hrec]].
    unfold s1. autorewrite with store. intros q Hq Hr.
    assert (BorrowedMoney.user_id b = user) as Hbu.
    { rewrite <- Huser. symmetry.
      apply (referencing_payments_owned s ref b Hown Hb old Hin).
      unfold references. rewrite Hty, Href, Nat.eqb_refl. reflexivity. }
    rewrite <- Hbu.
    apply in_update_first in Hq. destruct Hq as [Hq | [x [Hx ->]]].
    + exact (referencing_payments_owned s ref b Hown Hb q Hq Hr).
    + rewrite references_apply_update in Hr.
      exact (referencing_payments_owned s ref b Hown Hb x Hx Hr).
  - destruct (delete_payments castObjectId user id s) as [s' r] eqn:Hrun.
    cbn [fst snd].
    unfold delete_payments, try_catch in Hrun. rewrite Hid in Hrun.
    unfold bind at 1 in Hrun. unfold read at 1 in Hrun. rewrite Hfound in Hrun.
    pose proof (payment_owned_user _ _ _ _ Hfound) as [Hin Huser].
    unfold bind at 1 in Hrun. unfold write at 1 in Hrun. unfold bind at 1 in Hrun.
    rewrite Hty, Href in Hrun.
    match type of Hrun with
    | context [recompute_repaid user ref ?st] => set (s1 := st) in *
    end.
    destruct (recompute_repaid_found user ref s1 b Hb) as [s2 [Hrec _]].
    rewrite Hrec in Hrun. unfold ret in Hrun. injection Hrun as <- <-.
    split; [reflexivity|].
    exists user, s1. split; [|split; [reflexivity|exact Hrec]].
    unfold s1. autorewrite with store. intros q Hq Hr.
    assert (BorrowedMoney.user_id b = user) as Hbu.
    { rewrite <- Huser. symmetry.
      apply (referencing_payments_owned s ref b Hown Hb p Hin).
      unfold references. rewrite Hty, Href, Nat.eqb_refl. reflexivity. }
    rewrite <- Hbu. apply in_delete_first in Hq.
    exact (referencing_payments_owned s ref b Hown Hb q Hq Hr).
Qed.

(** The recomputation over a store that keeps the ownership invariant: the
    sum the aggregate takes over the caller's payments is the sum over all
    the payments that reference the record. *)
Lemma recomputed_under_ownership (s : Store) (ref : ObjectId) (out : Store * Response)
    (b : BorrowedMoney.t) :
  references_owned s = true ->
  recomputing_request s ref out ->
  findOne (borrowed_by_id ref) (borrowedMoney s) = Some b ->
  code (snd out) = 200 /\
  exists b',
    findOne (borrowed_by_id ref) (borrowedMoney (fst out)) = Some b' /\
    BorrowedMoney.amount b' = BorrowedMoney.amount b /\
    (BorrowedMoney.repaid_amount b'
     == Qmin (paid_against ref (payments (fst out))) (BorrowedMoney.amount b))%Q /\
    (filter (references ref) (payments (fst out)) = [] ->
     (BorrowedMoney.repaid_amount b' == Qmin 0 (BorrowedMoney.amount b))%Q).
Proof.
  intros Hown W Hb.
  destruct (recomputing_request_steps s ref out b Hown W Hb)
    as [Hcode [user [s1 [Hl' [Hb1 Hrec]]]]].
  split; [exact Hcode|].
  rewrite <- Hb1 in Hb.
  destruct (recompute_repaid_found user ref s1 b Hb) as [s2 [Hrec2 [Hpay2 Hfind2]]].
  rewrite Hrec2 in Hrec. injection Hrec as Hs2. rewrite <- Hs2.
  eexists. split; [exact Hfind2|]. split; [reflexivity|].
  assert (BorrowedMoney.repaid_amount
            (BorrowedMoney.apply_update
               (BorrowedMoney.set_repaid
                  (Qmin (total_or_zero (aggregate_total user ref (payments s1)))
                        (BorrowedMoney.amount b))) b)
          == Qmin (paid_against ref (payments s2)) (BorrowedMoney.amount b))%Q as Heq.
  { simpl. rewrite Hpay2.
    rewrite (total_or_zero_aggregate user ref (payments s1) Hl'). reflexivity. }
  split; [exact Heq|].
  intro Hnone. rewrite Heq. unfold paid_against. rewrite Hnone. reflexivity.
Qed.

End Recomputed.

(** ** Where the stored status and the clamp are left behind *)

(** The [pre('save')] hook itself derives the status it is meant to. *)
Lemma pre_save_derives_status (b : BorrowedMoney.t) :
  BorrowedMoney.status (BorrowedMoney.pre_save b)
  = derived_status (BorrowedMoney.repaid_amount (BorrowedMoney.pre_save b))
                   (BorrowedMoney.amount (BorrowedMoney.pre_save b)).
Proof.
  unfold BorrowedMoney.pre_save, derived_status.
  destruct (Qltb (BorrowedMoney.amount b) (BorrowedMoney.repaid_amount b)); simpl;
    repeat match goal with
           | |- context [if ?c then _ else _] => destruct c eqn:?; simpl
           end; congruence.
Qed.

(** ... and clamps the repaid amount to the principal. *)
Lemma pre_save_clamps (b : BorrowedMoney.t) :
  (BorrowedMoney.repaid_amount (BorrowedMoney.pre_save b)
   <= BorrowedMoney.amount (BorrowedMoney.pre_save b))%Q.
Proof.
  unfold BorrowedMoney.pre_save.
  destruct (Qltb (BorrowedMoney.amount b) (BorrowedMoney.repaid_amount b)) eqn:E; simpl;
    repeat match goal with
           | |- context [if ?c then _ else _] => destruct c; simpl
           end; try lra; apply Qltb_false in E; exact E.
Qed.

(** No hook runs on [findByIdAndUpdate]: an update that sets only the
    repaid amount leaves the stored status as it was. *)
Lemma set_repaid_keeps_status (r : Q) (b : BorrowedMoney.t) :
  BorrowedMoney.status (BorrowedMoney.apply_update (BorrowedMoney.set_repaid r) b)
  = BorrowedMoney.status b.
Proof. reflexivity. Qed.

(** C1, at the failing input. User 7 records a loan of 1000 and then a
    payment of 400 of type ['borrowed'] against it through
    [POST /api/payments]: the record ends with 400 repaid of 1000 and the
    stored status still [pending], where the status derived from these two
    amounts is [partial]. *)
Lemma payment_leaves_status_stale :
  let s := fst (post_payments demo_cast 7 9%Z (payment_against "b0" 400) one_loan) in
  ledger s = [(1000, 0 + 400, BorrowedMoney.pending)]%Q /\
  derived_status (0 + 400) 1000 = BorrowedMoney.partial.
Proof.
  vm_compute. split; reflexivity.
Qed.

(** C2, at the failing input. After 600 of the loan of 1000 is repaid,
    [PUT /api/borrowed-money/:id] with the body of the loan and the amount
    500 is answered 200 and leaves the record with a principal of 500 and 600
    repaid: the repaid amount exceeds the principal. *)
Lemma lowered_principal_is_not_clamped :
  let s := fst (post_borrowed_money_repay demo_cast 7 "b0"
                  (repayment 600 (Some 5%Z)) one_loan) in
  let (s', r) := put_borrowed_money demo_cast 7 "b0" (loan 500) s in
  code r = 200 /\
  exists b, borrowedMoney s' = [b] /\
            BorrowedMoney.amount b = 500%Q /\
            BorrowedMoney.repaid_amount b = (0 + 600)%Q /\
            (BorrowedMoney.amount b < BorrowedMoney.repaid_amount b)%Q.
Proof.
  vm_compute. split; [reflexivity|].
  eexists. split; [reflexivity|]. repeat split.
Qed.

(** C6, at the failing input. The delete of the only payment of the loan
    repaid by 400 recomputes the repaid amount to [min 0 1000], which is 0,
    and leaves the stored status [partial], where the status derived from a
    repaid amount of 0 is [pending]. *)
Lemma last_payment_deleted_status_stale :
  let (s', r) := delete_payments demo_cast 7 "p1" loan_repaid_400 in
  code r = 200 /\ payments s' = [] /\
  ledger s' = [(1000, Qmin 0 1000, BorrowedMoney.partial)]%Q /\
  derived_status (Qmin 0 1000) 1000 = BorrowedMoney.pending.
Proof.
  vm_compute. repeat split; reflexivity.
Qed.

(** ** The conditional references of an expense *)

Section ExpenseReferences.

Variable castObjectId : string -> option ObjectId.

(** A step that either lets the handler go on or answers 400, and writes
    nothing either way. *)
Definition checks (h : Handler unit) : Prop :=
  forall s, h s = (s, Next tt) \/ exists r, h s = (s, Sent r) /\ code r = 400.

(** A computation that answers 400 and writes nothing. *)
Definition rejects {A : Type} (h : Handler A) : Prop :=
  forall s, exists r, h s = (s, Sent r) /\ code r = 400.

Lemma checks_ret : checks (ret tt).
Proof. intro s. left. reflexivity. Qed.

Lemma checks_reject_if (c : bool) (m : string) (p : Payload) :
  checks (reject_if c (json 400 m p)).
Proof.
  intro s. unfold reject_if. destruct c; [right|left; reflexivity].
  eexists. split; reflexivity.
Qed.

Lemma checks_check_category (user : ObjectId) (v : JsStr) :
  checks (check_category castObjectId user v).
Proof.
  intro s. unfold check_category.
  destruct (cast_field castObjectId v) as [i|].
  - unfold bind, read.
    destruct (findOne _ _); [left; reflexivity|right].
    eexists. split; reflexivity.
  - right. eexists. split; reflexivity.
Qed.

Lemma rejects_after_check {A : Type} (h : Handler unit) (k : Handler A) :
  checks h -> rejects k -> rejects (h ;;; k).
Proof.
  intros Hh Hk s. unfold bind.
  destruct (Hh s) as [E | [r [E Hr]]]; rewrite E.
  - apply Hk.
  - exists r. split; [reflexivity|exact Hr].
Qed.

Lemma rejects_bind {A B : Type} (h : Handler A) (k : A -> Handler B) :
  rejects h -> rejects (bind h k).
Proof.
  intros Hh s. unfold bind. destruct (Hh s) as [r [E Hr]]. rewrite E.
  exists r. split; [reflexivity|exact Hr].
Qed.

Lemma rejects_missing_reference {A : Type} (v : JsStr)
    (lookup : ObjectId -> Store -> option A) (m1 m2 m3 field : string) :
  rejects (check_reference castObjectId true v lookup m1 m2 m3 field).
Proof.
  unfold check_reference. apply rejects_bind.
  intro s. eexists. split; reflexivity.
Qed.

Lemma falsy_blank (v : JsStr) : falsy v = true -> falsy v || blank v = true.
Proof. intros ->. reflexivity. Qed.

(** C7. [POST /api/expenses] with the payment mode ['credit_card'] and no
    credit card id (undefined, null or empty) is answered 400 and the store
    is left as it was, so no expense is created; likewise with the payment
    mode ['borrowed'] and no borrowed id. *)
Theorem post_expenses_requires_reference (s : Store) (user : ObjectId) (now : Z)
    (body : ExpenseBody.t) :
  (ExpenseBody.payment_mode body = Some "credit_card"
   /\ falsy (ExpenseBody.credit_card_id body) = true)
  \/ (ExpenseBody.payment_mode body = Some "borrowed"
      /\ falsy (ExpenseBody.borrowed_id body) = true) ->
  let (s', r) := post_expenses castObjectId user now body s in
  s' = s /\ expenses s' = expenses s /\ code r = 400.
Proof.
  intro H.
  assert (forall k : Handler Response,
             rejects
               ((if is_str (ExpenseBody.payment_mode body) "credit_card"
                 then check_credit_card castObjectId user
                        (falsy (ExpenseBody.credit_card_id body))
                        (ExpenseBody.credit_card_id body)
                 else ret tt) ;;;
                (if is_str (ExpenseBody.payment_mode body) "borrowed"
                 then check_borrowed castObjectId user
                        (falsy (ExpenseBody.borrowed_id body)
                         || blank (ExpenseBody.borrowed_id body))
                        (ExpenseBody.borrowed_id body)
                 else ret tt) ;;;
                k)) as Hrefs.
  { intro k. destruct H as [[Hm Hf] | [Hm Hf]]; rewrite Hm.
    - change (is_str (Some "credit_card") "credit_card") with true. cbv iota.
      rewrite Hf. apply rejects_bind. apply rejects_missing_reference.
    - change (is_str (Some "borrowed") "credit_card") with false.
      change (is_str (Some "borrowed") "borrowed") with true. cbv iota.
      rewrite (falsy_blank _ Hf).
      apply rejects_after_check; [apply checks_ret|].
      apply rejects_bind. apply rejects_missing_reference. }
  unfold post_expenses, try_catch.
  match goal with
  | |- context [let (_, _) := ?h s in _] =>
      assert (rejects h) as Hrej
  end.
  { repeat (apply rejects_after_check;
            [first [apply checks_reject_if | apply checks_check_category]|]).
    apply Hrefs. }
  destruct (Hrej s) as [r [E Hr]]. rewrite E.
  repeat split; assumption.
Qed.

End ExpenseReferences.

(** C7, witness: an expense by credit card without a card is refused. *)
Lemma post_expenses_requires_reference_witness :
  let (s', r) := post_expenses demo_cast 7 9%Z (expense_paid_by "credit_card")
                   one_category in
  s' = one_category /\ expenses s' = expenses one_category /\ code r = 400.
Proof.
  apply (post_expenses_requires_reference demo_cast one_category 7 9%Z
           (expense_paid_by "credit_card")).
  left. split; reflexivity.
Defined.

Section ExpenseUpdate.

Variable castObjectId : string -> option ObjectId.

(** The category check of the update lets the request through: the body
    names no category, or one that the caller owns. *)
Definition category_accepted (user : ObjectId) (s : Store) (v : JsStr) : Prop :=
  falsy v = true
  \/ exists i c, cast_field castObjectId v = Some i
                 /\ findOne (category_owned i user) (categories s) = Some c.

Lemma expense_by_id_apply_update (id : ObjectId) (d : ExpenseBody.t) (e : Expense.t) :
  expense_by_id id (expense_apply_update castObjectId d e) = expense_by_id id e.
Proof. reflexivity. Qed.

Lemma expense_owned_by_id (eid user : ObjectId) (l : list Expense.t) (old : Expense.t) :
  findOne (expense_by_id eid) l = Some old ->
  Expense.user_id old = user ->
  findOne (expense_owned eid user) l = Some old.
Proof.
  unfold findOne. intros Hf Hu. induction l as [|x r IH]; simpl in *; [discriminate|].
  unfold expense_owned at 1. unfold expense_by_id at 1 in Hf.
  destruct (Expense._id x =? eid); simpl.
  - injection Hf as ->. rewrite Hu, Nat.eqb_refl. reflexivity.
  - apply IH. exact Hf.
Qed.

Lemma set_ref_falsy (v : JsStr) (old : option ObjectId) :
  falsy v = true -> old = None -> set_ref castObjectId (clean_update_id v) old = None.
Proof.
  intros Hf ->. destruct v as [| |str]; simpl; try reflexivity.
  simpl in Hf. apply String.eqb_eq in Hf. subst str. reflexivity.
Qed.

(** C8. [PUT /api/expenses/:id] on an expense of the caller, with a body
    that sets the payment mode to ['credit_card'] and supplies no credit
    card id (undefined, null or empty), skips the credit card check: when
    the rest of the body passes the category check and the update
    validators, the answer is 200 and the stored expense has the payment
    mode ['credit_card'], with a null credit card reference if it had none
    before. The same holds for ['borrowed'] and the borrowed id. *)
Theorem put_expenses_skips_reference_check (s : Store) (user eid : ObjectId)
    (id : string) (body : ExpenseBody.t) (old : Expense.t) :
  castObjectId id = Some eid ->
  findOne (expense_by_id eid) (expenses s) = Some old ->
  Expense.user_id old = user ->
  category_accepted user s (ExpenseBody.category_id body) ->
  expense_update_valid castObjectId (updateData body) = true ->
  (ExpenseBody.payment_mode body = Some "credit_card"
   /\ falsy (ExpenseBody.credit_card_id body) = true)
  \/ (ExpenseBody.payment_mode body = Some "borrowed"
      /\ falsy (ExpenseBody.borrowed_id body) = true) ->
  exists s' e',
    put_expenses castObjectId user id body s
    = (s', json 200 "Expense updated successfully" (ExpenseDoc e'))
    /\ findOne (expense_by_id eid) (expenses s') = Some e'
    /\ (ExpenseBody.payment_mode body = Some "credit_card" ->
        falsy (ExpenseBody.credit_card_id body) = true ->
        Expense.payment_mode e' = Expense.credit_card
        /\ (Expense.credit_card_id old = None -> Expense.credit_card_id e' = None))
    /\ (ExpenseBody.payment_mode body = Some "borrowed" ->
        falsy (ExpenseBody.borrowed_id body) = true ->
        Expense.payment_mode e' = Expense.borrowed
        /\ (Expense.borrowed_id old = None -> Expense.borrowed_id e' = None)).
Proof.
  intros Hid Hold Huser Hcat Hvalid Hmode.
  exists (with_expenses
            (update_first (expense_by_id eid)
               (expense_apply_update castObjectId (updateData body))) s),
         (expense_apply_update castObjectId (updateData body) old).
  split; [|split; [|split]].
  - unfold put_expenses, try_catch. rewrite Hid.
    unfold bind at 1. unfold read at 1.
    rewrite (expense_owned_by_id _ _ _ _ Hold Huser).
    assert ((if negb (falsy (ExpenseBody.category_id body))
             then check_category castObjectId user (ExpenseBody.category_id body)
             else ret tt) s = (s, Next tt)) as Ecat.
    { destruct Hcat as [Hf | [i [c [Hc Hfound]]]].
      - rewrite Hf. reflexivity.
      - destruct (negb _); [|reflexivity].
        unfold check_category. rewrite Hc. unfold bind, read. rewrite Hfound.
        reflexivity. }
    unfold bind at 1. rewrite Ecat.
    assert (forall k : Handler Response,
               ((if is_str (ExpenseBody.payment_mode body) "credit_card"
                    && negb (falsy (ExpenseBody.credit_card_id body))
                 then check_credit_card castObjectId user false
                        (ExpenseBody.credit_card_id body)
                 else ret tt) ;;;
                (if is_str (ExpenseBody.payment_mode body) "borrowed"
                    && negb (falsy (ExpenseBody.borrowed_id body))
                 then check_borrowed castObjectId user
                        (falsy (ExpenseBody.borrowed_id body)
                         || blank (ExpenseBody.borrowed_id body))
                        (ExpenseBody.borrowed_id body)
                 else ret tt) ;;;
                k) s = k s) as Eskip.
    { intro k. destruct Hmode as [[Hm Hf] | [Hm Hf]]; rewrite Hm, Hf.
      - change (is_str (Some "credit_card") "borrowed") with false. reflexivity.
      - change (is_str (Some "borrowed") "credit_card") with false. reflexivity. }
    rewrite Eskip. rewrite Hvalid. reflexivity.
  - autorewrite with store. unfold findOne in *.
    rewrite find_update_first by (intro x; apply expense_by_id_apply_update).
    rewrite Hold. reflexivity.
  - intros Hm Hf. simpl. rewrite Hm. split; [reflexivity|].
    apply set_ref_falsy. exact Hf.
  - intros Hm Hf. simpl. rewrite Hm. split; [reflexivity|].
    apply set_ref_falsy. exact Hf.
Qed.

End ExpenseUpdate.

(** C8, witness: the cash expense is turned into a credit card expense
    without a card. *)
Lemma put_expenses_skips_reference_check_witness :
  exists s' e',
    put_expenses demo_cast 7 "e1" (mode_only "credit_card") one_expense
    = (s', json 200 "Expense updated successfully" (ExpenseDoc e'))
    /\ findOne (expense_by_id 1) (expenses s') = Some e'
    /\ (ExpenseBody.payment_mode (mode_only "credit_card") = Some "credit_card" ->
        falsy (ExpenseBody.credit_card_id (mode_only "credit_card")) = true ->
        Expense.payment_mode e' = Expense.credit_card
        /\ (@None ObjectId = None -> Expense.credit_card_id e' = None))
    /\ (ExpenseBody.payment_mode (mode_only "credit_card") = Some "borrowed" ->
        falsy (ExpenseBody.borrowed_id (mode_only "credit_card")) = true ->
        Expense.payment_mode e' = Expense.borrowed
        /\ (@None ObjectId = None -> Expense.borrowed_id e' = None)).
Proof.
  apply (put_expenses_skips_reference_check demo_cast one_expense 7 1 "e1"
           (mode_only "credit_card")
           {| Expense._id := 1; Expense.user_id := 7; Expense.amount := 50;
              Expense.category_id := 0; Expense.payment_mode := Expense.cash;
              Expense.credit_card_id := None; Expense.borrowed_id := None;
              Expense.date := 9; Expense.note := None; Expense.is_recurring := false;
              Expense.recurring_frequency := None |});
    try reflexivity.
  - left. reflexivity.
  - left. split; reflexivity.
Defined.

(** The stored expense after that update: paid by credit card, no card. *)
Example credit_card_expense_without_card :
  map (fun e => (Expense.payment_mode e, Expense.credit_card_id e))
      (expenses (fst (put_expenses demo_cast 7 "e1" (mode_only "credit_card")
                        one_expense)))
  = [(Expense.credit_card, None)].
Proof. vm_compute. reflexivity. Qed.

(** ** Category names *)

Lemma find_none_of {A : Type} (p : A -> bool) (l : list A) :
  (forall x, In x l -> p x = false) -> find p l = None.
Proof.
  induction l as [|x r IH]; simpl; intro H; [reflexivity|].
  rewrite (H x (or_introl eq_refl)). apply IH. intros y Hy. apply H. right. exact Hy.
Qed.

Lemma find_exists {A : Type} (p : A -> bool) (l : list A) (x : A) :
  In x l -> p x = true -> exists y, find p l = Some y.
Proof.
  induction l as [|z r IH]; simpl; [tauto|].
  intros [->|Hin] Hp.
  - rewrite Hp. eauto.
  - destruct (p z); eauto.
Qed.

(** A name of ASCII characters has one code unit for each of them. *)
Lemma js_length_literal (n : string) :
  regex_literal n = true -> js_length n = String.length n.
Proof.
  induction n as [|c r IH]; simpl; [reflexivity|].
  intro H. apply andb_true_iff in H. destruct H as [H Hr].
  apply andb_true_iff in H. destruct H as [_ Hc].
  unfold code_units, byte. rewrite Hc, (IH Hr). reflexivity.
Qed.

Section CategoryNames.

Variable RegExp_i : string -> option (string -> bool).

(** A name that the schema accepts as it is written and that the regular
    expression reads literally: trimmed, not empty, at most 50 characters,
    ASCII, with no character that has a meaning in a pattern. *)
Definition plain_name (n : string) : Prop :=
  regex_literal n = true /\ trim n = n /\ n <> "" /\ String.length n <= 50.

(** The user has no category with this name, whatever the case. *)
Definition name_free (s : Store) (user : ObjectId) (n : string) : Prop :=
  forall c, In c (categories s) -> Category.user_id c = user ->
            upper (Category.name c) <> upper n.

(** The category a successful request stores. *)
Definition new_category (s : Store) (user : ObjectId) (n : string)
    (body : CategoryBody.t) : Category.t :=
  {| Category._id := next_id s; Category.name := n; Category.user_id := user;
     Category.is_default := false;
     Category.color := str_or_else (CategoryBody.color body) "#667eea";
     Category.icon := str_or_else (CategoryBody.icon body) "💰" |}.

Definition with_category (c : Category.t) (s : Store) : Store :=
  with_categories (fun l => (l ++ [c])%list) (with_next_id (S (next_id s)) s).

Lemma post_categories_duplicate (s : Store) (user : ObjectId) (n : string)
    (body : CategoryBody.t) (c : Category.t) :
  CategoryBody.name body = Some n ->
  regex_literal n = true ->
  In c (categories s) -> Category.user_id c = user ->
  upper (Category.name c) = upper n ->
  post_categories RegExp_i user body s
  = (s, json 400 "Category with this name already exists" NoPayload).
Proof.
  intros Hn Hlit Hin Hu Hup.
  unfold post_categories, try_catch, name_regexp. rewrite Hn.
  change (or_else (Some n) "undefined") with n. cbv zeta.
  rewrite Hlit. unfold bind, read.
  destruct (find_exists
              (fun c0 => (upper (Category.name c0) =? upper n)%string
                         && (Category.user_id c0 =? user))
              (categories s) c Hin) as [y Hy].
  { rewrite Hup, Hu, String.eqb_refl, Nat.eqb_refl. reflexivity. }
  unfold findOne. rewrite Hy. reflexivity.
Qed.

Lemma post_categories_fresh (s : Store) (user : ObjectId) (n : string)
    (body : CategoryBody.t) :
  CategoryBody.name body = Some n ->
  plain_name n ->
  name_free s user n ->
  post_categories RegExp_i user body s
  = (with_category (new_category s user n body) s,
     json 201 "Category created successfully"
          (CategoryDoc (new_category s user n body))).
Proof.
  intros Hn [Hlit [Htrim [Hne Hlen]]] Hfree.
  unfold post_categories, try_catch, name_regexp. rewrite Hn.
  change (or_else (Some n) "undefined") with n. cbv zeta.
  rewrite Hlit. unfold bind at 1. unfold read at 1.
  unfold findOne. rewrite find_none_of.
  2:{ intros c Hc. destruct (Category.user_id c =? user) eqn:Eu; [|apply andb_false_r].
      apply Nat.eqb_eq in Eu. rewrite andb_true_r. apply String.eqb_neq.
      exact (Hfree c Hc Eu). }
  unfold bind at 1. unfold newObjectId at 1.
  unfold Category.create, required_text_ok. rewrite Htrim.
  apply String.eqb_neq in Hne. rewrite Hne.
  rewrite (js_length_literal n Hlit).
  apply Nat.leb_le in Hlen. rewrite Hlen.
  change (negb false && true) with true. cbv beta iota.
  fold (new_category s user n body).
  unfold bind at 1. unfold read at 1. autorewrite with store.
  assert (Category.duplicate_key (new_category s user n body) (categories s) = false) as ->.
  { unfold Category.duplicate_key. apply not_true_is_false. intro E.
    apply existsb_exists in E. destruct E as [d [Hd Hk]].
    apply andb_true_iff in Hk. destruct Hk as [Hname Hu].
    apply String.eqb_eq in Hname. apply Nat.eqb_eq in Hu. simpl in Hname, Hu.
    apply (Hfree d Hd Hu). rewrite Hname. reflexivity. }
  reflexivity.
Qed.

(** Where the check does what it is meant to, plain names: for one user,
    after a category is created under a plain name, a second request with
    the same name in another case is answered 400 and creates nothing; a
    different user creates a category of that name as well. *)
Lemma plain_names_unique_per_user (s : Store) (u1 u2 : ObjectId)
    (n1 n2 : string) (b1 b2 : CategoryBody.t) :
  u1 <> u2 ->
  plain_name n1 -> plain_name n2 -> upper n1 = upper n2 ->
  name_free s u1 n1 -> name_free s u2 n1 ->
  CategoryBody.name b1 = Some n1 -> CategoryBody.name b2 = Some n2 ->
  let (s1, r1) := post_categories RegExp_i u1 b1 s in
  let (s2, r2) := post_categories RegExp_i u1 b2 s1 in
  let (s3, r3) := post_categories RegExp_i u2 b2 s2 in
  (code r1 = 201 /\ categories s1 = (categories s ++ [new_category s u1 n1 b1])%list)
  /\ (code r2 = 400 /\ s2 = s1)
  /\ (code r3 = 201 /\ categories s3 = (categories s1 ++ [new_category s1 u2 n2 b2])%list).
Proof.
  intros Hu Hp1 Hp2 Hup Hfree1 Hfree2 Hb1 Hb2.
  rewrite (post_categories_fresh s u1 n1 b1 Hb1 Hp1 Hfree1).
  set (c1 := new_category s u1 n1 b1). set (s1 := with_category c1 s).
  assert (categories s1 = (categories s ++ [c1])%list) as Hs1 by reflexivity.
  rewrite (post_categories_duplicate s1 u1 n2 b2 c1 Hb2).
  2:{ destruct Hp2 as [H _]. exact H. }
  2:{ rewrite Hs1. apply in_or_app. right. left. reflexivity. }
  2:{ reflexivity. }
  2:{ exact Hup. }
  rewrite (post_categories_fresh s1 u2 n2 b2 Hb2 Hp2).
  2:{ intros c Hc Hcu. rewrite Hs1 in Hc. apply in_app_or in Hc.
      destruct Hc as [Hc | [<- | []]].
      - rewrite <- Hup. exact (Hfree2 c Hc Hcu).
      - exfalso. apply Hu. exact Hcu. }
  repeat split; reflexivity.
Qed.

End CategoryNames.

(** User 7 creates "Food", is refused "food", and user 8 creates "food". *)
Example food_then_food :
  let (s1, r1) := post_categories demo_regexp 7 (named "Food") empty_store in
  let (s2, r2) := post_categories demo_regexp 7 (named "food") s1 in
  let (s3, r3) := post_categories demo_regexp 8 (named "food") s2 in
  (code r1 = 201
   /\ categories s1
      = (categories empty_store ++ [new_category empty_store 7 "Food" (named "Food")])%list)
  /\ (code r2 = 400 /\ s2 = s1)
  /\ (code r3 = 201
      /\ categories s3 = (categories s1 ++ [new_category s1 8 "food" (named "food")])%list).
Proof.
  apply (plain_names_unique_per_user demo_regexp empty_store 7 8 "Food" "food"
           (named "Food") (named "food")).
  - discriminate.
  - repeat split; [discriminate | simpl; lia].
  - repeat split; [discriminate | simpl; lia].
  - reflexivity.
  - intros c [].
  - intros c [].
  - reflexivity.
  - reflexivity.
Qed.

(** C9. The check reads the name as the request sends it, and the schema
    stores it trimmed: whatever the regular-expression engine, user 7
    creates "Food" and then, with the name "food" followed by a space, a
    second category, stored as "food". The store ends with two categories
    of one user whose names differ in case only. *)
Theorem untrimmed_name_passes_the_check (RegExp_i : string -> option (string -> bool)) :
  let (s1, r1) := post_categories RegExp_i 7 (named "Food") empty_store in
  let (s2, r2) := post_categories RegExp_i 7 (named "food ") s1 in
  code r1 = 201 /\ code r2 = 201
  /\ map (fun c => (Category.user_id c, Category.name c)) (categories s2)
     = [(7, "Food"); (7, "food")]
  /\ upper "Food" = upper "food".
Proof. vm_compute. repeat split; reflexivity. Qed.

(** ** The payment totals *)

Lemma kind_eqb_eq (a b : Payment.Kind) : Payment.kind_eqb a b = true <-> a = b.
Proof. destruct a, b; simpl; split; congruence. Qed.

Lemma add_to_groups_ids (p : Payment.t) (gs : list TypeGroup) (g : TypeGroup) :
  In g (add_to_groups p gs) ->
  group_id g = Payment.type p \/ exists g0, In g0 gs /\ group_id g = group_id g0.
Proof.
  induction gs as [|h r IH]; simpl.
  - intros [<-|[]]. left. reflexivity.
  - destruct (Payment.kind_eqb (group_id h) (Payment.type p)) eqn:E; simpl.
    + intros [<-|Hin].
      * right. exists h. simpl. auto.
      * right. exists g. simpl. auto.
    + intros [<-|Hin].
      * right. exists h. simpl. auto.
      * destruct (IH Hin) as [H | [g0 [H0 H1]]]; [left; exact H|].
        right. exists g0. simpl. auto.
Qed.

Lemma group_by_type_ids (k : Payment.Kind) (l : list Payment.t) (gs : list TypeGroup) :
  (forall g, In g gs -> group_id g <> k) ->
  (forall p, In p l -> Payment.type p <> k) ->
  forall g, In g (fold_left (fun gs p => add_to_groups p gs) l gs) -> group_id g <> k.
Proof.
  revert gs. induction l as [|p r IH]; simpl; intros gs Hgs Hl; [exact Hgs|].
  apply IH.
  - intros g Hg. apply add_to_groups_ids in Hg.
    destruct Hg as [E | [g0 [H0 E]]]; rewrite E; [apply Hl; auto | apply Hgs; exact H0].
  - intros q Hq. apply Hl. auto.
Qed.

Lemma record_group_other (k : Payment.Kind) (t : Totals.t) (item : TypeGroup) :
  group_id item <> k -> entry k (record_group t item) = entry k t.
Proof.
  unfold record_group. destruct (group_id item), k; simpl; congruence.
Qed.

Lemma totals_of_other (k : Payment.Kind) (summary : list TypeGroup) (t : Totals.t) :
  (forall g, In g summary -> group_id g <> k) ->
  entry k (fold_left record_group summary t) = entry k t.
Proof.
  revert t. induction summary as [|g r IH]; simpl; intros t H; [reflexivity|].
  rewrite IH by auto. apply record_group_other. auto.
Qed.

(** C10. The totals report answers 200 with an entry under both keys,
    ['credit_card'] and ['borrowed'], and writes nothing; when no payment
    of the caller in the date range has a type, the entry under its key is
    exactly [{ amount: 0, count: 0 }]. *)
Theorem payment_totals_default_to_zero (s : Store) (user : ObjectId)
    (start_date end_date : option Z) (k : Payment.Kind) :
  matching user start_date end_date k (payments s) = [] ->
  exists t,
    get_payments_summary_totals user start_date end_date s
    = (s, {| code := 200; message := None; payload := TotalsDoc t |})
    /\ entry k t = {| Totals.amount := 0; Totals.count := 0 |}.
Proof.
  intro Hnone. eexists. split; [reflexivity|].
  unfold totals_of, group_by_type. rewrite totals_of_other.
  - destruct k; reflexivity.
  - apply group_by_type_ids.
    + intros g [].
    + intros p Hp Hk. apply filter_In in Hp. destruct Hp as [Hin Hf].
      assert (In p (matching user start_date end_date k (payments s))) as Hm.
      { apply filter_In. split; [exact Hin|].
        rewrite Hf. apply kind_eqb_eq. exact Hk. }
      rewrite Hnone in Hm. exact Hm.
Qed.

(** C10, witness: the user's only payment is of type ['borrowed'], so the
    entry of ['credit_card'] is the zero entry. *)
Lemma payment_totals_default_to_zero_witness :
  exists t,
    get_payments_summary_totals 7 None None loan_repaid_400
    = (loan_repaid_400, {| code := 200; message := None; payload := TotalsDoc t |})
    /\ entry Payment.credit_card t = {| Totals.amount := 0; Totals.count := 0 |}.
Proof.
  exact (payment_totals_default_to_zero loan_repaid_400 7 None None
           Payment.credit_card eq_refl).
Defined.

(** The same report on that store: the repayment of 400 under ['borrowed'],
    the zero entry under ['credit_card']. *)
Example payment_totals_of_one_repayment :
  snd (get_payments_summary_totals 7 None None loan_repaid_400)
  = {| code := 200; message := None;
       payload := TotalsDoc
                    {| Totals.credit_card := {| Totals.amount := 0; Totals.count := 0 |};
                       Totals.borrowed :=
                         {| Totals.amount := 0 + 400; Totals.count := 1 |} |} |}.
Proof. vm_compute. reflexivity. Qed.

(** ** The ownership invariant holds in every store the routes reach *)

(** What the invariant reads of a record and of a payment. *)
Definition owner_key (b : BorrowedMoney.t) : ObjectId * ObjectId :=
  (BorrowedMoney._id b, BorrowedMoney.user_id b).

Definition ref_key (p : Payment.t) : Payment.Kind * ObjectId * ObjectId :=
  (Payment.type p, Payment.reference_id p, Payment.user_id p).

Definition owners (s : Store) : list (ObjectId * ObjectId) :=
  map owner_key (borrowedMoney s).

Definition refs (s : Store) : list (Payment.Kind * ObjectId * ObjectId) :=
  map ref_key (payments s).

(** The ids of the records are distinct and were all generated already; a
    payment of type ['borrowed'] references an id generated already, and a
    record under that id belongs to the payment's user. *)
Definition ledger_ok (os : list (ObjectId * ObjectId))
    (rs : list (Payment.Kind * ObjectId * ObjectId)) (n : ObjectId) : Prop :=
  NoDup (map fst os)
  /\ (forall o, In o os -> fst o < n)
  /\ (forall ref u, In (Payment.borrowed, ref, u) rs ->
                    ref < n /\ forall u', In (ref, u') os -> u' = u).

Definition store_ok (s : Store) : Prop := ledger_ok (owners s) (refs s) (next_id s).

Lemma map_update_first {A K : Type} (key : A -> K) (p : A -> bool) (f : A -> A)
    (l : list A) :
  (forall x, key (f x) = key x) -> map key (update_first p f l) = map key l.
Proof.
  intro H. induction l as [|x r IH]; simpl; [reflexivity|].
  destruct (p x); simpl; [rewrite H | rewrite IH]; reflexivity.
Qed.

Lemma store_ok_references_owned (s : Store) :
  store_ok s -> references_owned s = true.
Proof.
  intros [_ [_ Hrefs]]. unfold references_owned. apply forallb_forall.
  intros p Hp. unfold reference_owned.
  destruct (Payment.type p) eqn:Ek; [reflexivity|].
  destruct (findOne _ _) as [b|] eqn:Hb; [|reflexivity].
  apply find_some in Hb. destruct Hb as [Hin Hid].
  unfold borrowed_by_id in Hid. apply Nat.eqb_eq in Hid.
  apply Nat.eqb_eq.
  destruct (Hrefs (Payment.reference_id p) (Payment.user_id p)) as [_ Hu].
  - unfold refs. apply in_map_iff. exists p. unfold ref_key. rewrite Ek. auto.
  - apply Hu. unfold owners. apply in_map_iff. exists b.
    unfold owner_key. rewrite Hid. auto.
Qed.

(** *** The moves of the ledger *)

Lemma ledger_ok_next (os : list (ObjectId * ObjectId))
    (rs : list (Payment.Kind * ObjectId * ObjectId)) (n m : ObjectId) :
  n <= m -> ledger_ok os rs n -> ledger_ok os rs m.
Proof.
  intros Hle [Hnd [Hos Hrs]]. split; [exact Hnd|]. split.
  - intros o Ho. specialize (Hos o Ho). lia.
  - intros ref u Hin. destruct (Hrs ref u Hin) as [Hlt Hu]. split; [lia|exact Hu].
Qed.

Lemma ledger_ok_new_record (os : list (ObjectId * ObjectId))
    (rs : list (Payment.Kind * ObjectId * ObjectId)) (n u : ObjectId) :
  ledger_ok os rs n -> ledger_ok (os ++ [(n, u)]) rs (S n).
Proof.
  intros [Hnd [Hos Hrs]]. split; [|split].
  - rewrite map_app. simpl. apply NoDup_app; [exact Hnd | repeat constructor; auto |].
    intros i Hi [<-|[]]. apply in_map_iff in Hi. destruct Hi as [o [Ho Hin]].
    specialize (Hos o Hin). lia.
  - intros o Ho. apply in_app_or in Ho. destruct Ho as [Ho | [<-|[]]].
    + specialize (Hos o Ho). lia.
    + simpl. lia.
  - intros ref u0 Hin. destruct (Hrs ref u0 Hin) as [Hlt Hu]. split; [lia|].
    intros u' Hu'. apply in_app_or in Hu'. destruct Hu' as [Hu' | [E|[]]].
    + exact (Hu u' Hu').
    + injection E as E1 E2. lia.
Qed.

Lemma ledger_ok_fewer (os os' : list (ObjectId * ObjectId))
    (rs rs' : list (Payment.Kind * ObjectId * ObjectId)) (n : ObjectId) :
  NoDup (map fst os') -> incl os' os -> incl rs' rs ->
  ledger_ok os rs n -> ledger_ok os' rs' n.
Proof.
  intros Hnd' Hos' Hrs' [Hnd [Hos Hrs]]. split; [exact Hnd'|]. split.
  - intros o Ho. apply Hos. apply Hos'. exact Ho.
  - intros ref u Hin. destruct (Hrs ref u (Hrs' _ Hin)) as [Hlt Hu].
    split; [exact Hlt|]. intros u' Hu'. apply Hu. apply Hos'. exact Hu'.
Qed.

Lemma NoDup_fst_unique {A B : Type} (l : list (A * B)) (a : A) (b b' : B) :
  NoDup (map fst l) -> In (a, b) l -> In (a, b') l -> b = b'.
Proof.
  induction l as [|[x y] r IH]; simpl; [tauto|].
  intros Hnd H1 H2. inversion Hnd as [|? ? Hnotin Hnd']; subst.
  destruct H1 as [E1|H1], H2 as [E2|H2].
  - congruence.
  - injection E1 as -> ->. exfalso. apply Hnotin.
    apply in_map_iff. exists (a, b'). auto.
  - injection E2 as -> ->. exfalso. apply Hnotin.
    apply in_map_iff. exists (a, b). auto.
  - exact (IH Hnd' H1 H2).
Qed.

Lemma ledger_ok_new_payment (os : list (ObjectId * ObjectId))
    (rs : list (Payment.Kind * ObjectId * ObjectId)) (n : ObjectId)
    (k : Payment.Kind) (ref u : ObjectId) :
  (k = Payment.borrowed -> In (ref, u) os) ->
  ledger_ok os rs n -> ledger_ok os (rs ++ [(k, ref, u)]) n.
Proof.
  intros Hk [Hnd [Hos Hrs]]. split; [exact Hnd|]. split; [exact Hos|].
  intros ref0 u0 Hin. apply in_app_or in Hin. destruct Hin as [Hin | [E|[]]].
  - exact (Hrs ref0 u0 Hin).
  - injection E as -> -> ->. specialize (Hk eq_refl). split.
    + exact (Hos _ Hk).
    + intros u' Hu'. exact (NoDup_fst_unique os ref0 u' u0 Hnd Hu' Hk).
Qed.

Lemma next_id_with_next_id n s : next_id (with_next_id n s) = n.
Proof. reflexivity. Qed.

Lemma next_id_with_payments f s : next_id (with_payments f s) = next_id s.
Proof. reflexivity. Qed.

Lemma next_id_with_borrowedMoney f s : next_id (with_borrowedMoney f s) = next_id s.
Proof. reflexivity. Qed.

Lemma next_id_with_categories f s : next_id (with_categories f s) = next_id s.
Proof. reflexivity. Qed.

Lemma next_id_with_expenses f s : next_id (with_expenses f s) = next_id s.
Proof. reflexivity. Qed.

Lemma borrowedMoney_with_categories f s :
  borrowedMoney (with_categories f s) = borrowedMoney s.
Proof. reflexivity. Qed.

Lemma borrowedMoney_with_expenses f s :
  borrowedMoney (with_expenses f s) = borrowedMoney s.
Proof. reflexivity. Qed.

Lemma payments_with_categories f s : payments (with_categories f s) = payments s.
Proof. reflexivity. Qed.

Lemma payments_with_expenses f s : payments (with_expenses f s) = payments s.
Proof. reflexivity. Qed.

#[local] Hint Rewrite next_id_with_next_id next_id_with_payments
  next_id_with_borrowedMoney next_id_with_categories next_id_with_expenses
  borrowedMoney_with_categories borrowedMoney_with_expenses
  payments_with_categories payments_with_expenses : store.

Lemma owners_update_first (p : BorrowedMoney.t -> bool) (u : BorrowedMoney.Update)
    (l : list BorrowedMoney.t) :
  map owner_key (update_first p (BorrowedMoney.apply_update u) l) = map owner_key l.
Proof. apply map_update_first. reflexivity. Qed.

Lemma refs_update_first (p : Payment.t -> bool) (u : Payment.Update)
    (l : list Payment.t) :
  map ref_key (update_first p (Payment.apply_update u) l) = map ref_key l.
Proof. apply map_update_first. reflexivity. Qed.

Lemma incl_map_delete_first {A K : Type} (key : A -> K) (p : A -> bool) (l : list A) :
  incl (map key (delete_first p l)) (map key l).
Proof.
  intros k Hk. apply in_map_iff in Hk. destruct Hk as [x [<- Hx]].
  apply in_map. exact (in_delete_first p l x Hx).
Qed.

Lemma NoDup_map_delete_first {A K : Type} (key : A -> K) (p : A -> bool) (l : list A) :
  NoDup (map key l) -> NoDup (map key (delete_first p l)).
Proof.
  induction l as [|x r IH]; simpl; intro H; [exact H|].
  inversion H as [|? ? Hnotin Hnd]; subst.
  destruct (p x); [exact Hnd|]. simpl. constructor.
  - intro Hin. apply Hnotin. exact (incl_map_delete_first key p r _ Hin).
  - exact (IH Hnd).
Qed.

Lemma owned_in_owners (rid user : ObjectId) (s : Store) (b : BorrowedMoney.t) :
  findOne (borrowed_owned rid user) (borrowedMoney s) = Some b ->
  In (rid, user) (owners s).
Proof.
  intro H. apply find_some in H. destruct H as [Hin Hp].
  unfold borrowed_owned in Hp. apply andb_true_iff in Hp. destruct Hp as [Hi Hu].
  apply Nat.eqb_eq in Hi. apply Nat.eqb_eq in Hu.
  unfold owners. apply in_map_iff. exists b. unfold owner_key. rewrite Hi, Hu. auto.
Qed.

(** The store after a write that sets paths of a record, or of a payment,
    other than its id, its user, its type and its reference. *)
Lemma store_ok_borrowed_updated (p : BorrowedMoney.t -> bool) (u : BorrowedMoney.Update)
    (s : Store) :
  store_ok s -> store_ok (with_borrowedMoney (update_first p (BorrowedMoney.apply_update u)) s).
Proof.
  unfold store_ok, owners, refs. autorewrite with store.
  rewrite owners_update_first. auto.
Qed.

Lemma store_ok_payment_updated (p : Payment.t -> bool) (u : Payment.Update) (s : Store) :
  store_ok s -> store_ok (with_payments (update_first p (Payment.apply_update u)) s).
Proof.
  unfold store_ok, owners, refs. autorewrite with store.
  rewrite refs_update_first. auto.
Qed.

Lemma store_ok_next_id (s : Store) :
  store_ok s -> store_ok (with_next_id (S (next_id s)) s).
Proof.
  unfold store_ok, owners, refs. autorewrite with store.
  apply ledger_ok_next. lia.
Qed.

Lemma store_ok_payment_deleted (p : Payment.t -> bool) (s : Store) :
  store_ok s -> store_ok (with_payments (delete_first p) s).
Proof.
  unfold store_ok, owners, refs. autorewrite with store. intro H.
  apply (ledger_ok_fewer _ _ _ _ _ (proj1 H) (incl_refl _)
           (incl_map_delete_first ref_key p (payments s)) H).
Qed.

Lemma store_ok_borrowed_deleted (p : BorrowedMoney.t -> bool) (s : Store) :
  store_ok s -> store_ok (with_borrowedMoney (delete_first p) s).
Proof.
  unfold store_ok, owners, refs. autorewrite with store. intro H.
  apply (ledger_ok_fewer (map owner_key (borrowedMoney s)) _ (map ref_key (payments s)));
    [| | apply incl_refl | exact H].
  - rewrite map_map. apply NoDup_map_delete_first. rewrite <- map_map. exact (proj1 H).
  - apply incl_map_delete_first.
Qed.

Lemma store_ok_payment_added (s : Store) (p : Payment.t) :
  (Payment.type p = Payment.borrowed ->
   In (Payment.reference_id p, Payment.user_id p) (owners s)) ->
  store_ok s -> store_ok (with_payments (fun l => (l ++ [p])%list) s).
Proof.
  unfold store_ok, owners, refs. autorewrite with store. intros Hp H.
  rewrite map_app. simpl. apply ledger_ok_new_payment; assumption.
Qed.

Lemma store_ok_borrowed_added (s : Store) (b : BorrowedMoney.t) :
  BorrowedMoney._id b = next_id s ->
  store_ok s ->
  store_ok (with_borrowedMoney (fun l => (l ++ [b])%list) (with_next_id (S (next_id s)) s)).
Proof.
  unfold store_ok, owners, refs. autorewrite with store. intros Hb H.
  rewrite map_app. simpl. unfold owner_key at 2. rewrite Hb.
  apply ledger_ok_new_record. exact H.
Qed.

Lemma store_ok_elsewhere (s s' : Store) :
  borrowedMoney s' = borrowedMoney s -> payments s' = payments s ->
  next_id s <= next_id s' ->
  store_ok s -> store_ok s'.
Proof.
  unfold store_ok, owners, refs. intros -> -> Hle. apply ledger_ok_next. exact Hle.
Qed.

(** *** Every route keeps the invariant *)

Ltac run_handler :=
  unfold reject_if; unfold try_catch, bind, read, write, ret, send, throw, newObjectId.

Ltac keep_ok :=
  repeat first
    [ assumption
    | apply store_ok_borrowed_updated
    | apply store_ok_payment_updated
    | apply store_ok_payment_deleted
    | apply store_ok_borrowed_deleted
    | apply store_ok_next_id ].

Lemma store_ok_findByIdAndUpdate (id : ObjectId) (u : BorrowedMoney.Update) (s : Store) :
  store_ok s -> store_ok (fst (findByIdAndUpdate_borrowed id u s)).
Proof.
  intro H. unfold findByIdAndUpdate_borrowed.
  destruct (findOne _ _); simpl; keep_ok.
Qed.

Lemma store_ok_recompute_repaid (user ref : ObjectId) (s : Store) :
  store_ok s -> store_ok (fst (recompute_repaid user ref s)).
Proof.
  intro H. unfold recompute_repaid. run_handler.
  destruct (findOne _ _) as [b|]; [|exact H].
  match goal with
  | |- context [findByIdAndUpdate_borrowed ?i ?u ?st] =>
      pose proof (store_ok_findByIdAndUpdate i u st H) as Hs;
      destruct (findByIdAndUpdate_borrowed i u st) as [s2 [a|r|]]
  end; exact Hs.
Qed.

Section Reachable.

Variable castObjectId : string -> option ObjectId.
Variable RegExp_i : string -> option (string -> bool).

Lemma store_ok_post_borrowed_money (user : ObjectId) (body : BorrowedMoneyBody.t)
    (s : Store) :
  store_ok s -> store_ok (fst (post_borrowed_money user body s)).
Proof.
  intro H. unfold post_borrowed_money. run_handler.
  destruct (BorrowedMoney.create _ _ _ _ _ _ _) as [doc|] eqn:Ec; simpl fst; keep_ok.
  apply store_ok_borrowed_added; [|exact H].
  unfold BorrowedMoney.create in Ec.
  repeat match type of Ec with
         | context [match ?x with _ => _ end] => destruct x; try discriminate
         end.
  injection Ec as <-. unfold BorrowedMoney.pre_save.
  repeat match goal with
         | |- context [if ?c then _ else _] => destruct c
         end; reflexivity.
Qed.

Lemma store_ok_put_borrowed_money (user : ObjectId) (id : string)
    (body : BorrowedMoneyBody.t) (s : Store) :
  store_ok s -> store_ok (fst (put_borrowed_money castObjectId user id body s)).
Proof.
  intro H. unfold put_borrowed_money. run_handler.
  destruct (castObjectId id) as [rid|]; [|exact H].
  destruct (negb _); [exact H|].
  destruct (findOne _ _); simpl; keep_ok.
Qed.

Lemma store_ok_delete_borrowed_money (user : ObjectId) (id : string) (s : Store) :
  store_ok s -> store_ok (fst (delete_borrowed_money castObjectId user id s)).
Proof.
  intro H. unfold delete_borrowed_money. run_handler.
  destruct (castObjectId id) as [rid|]; [|exact H].
  destruct (findOne _ _); [|exact H].
  destruct (existsb _ _); simpl; keep_ok.
Qed.

Lemma store_ok_put_payments (user : ObjectId) (id : string) (body : PaymentBody.t)
    (s : Store) :
  store_ok s -> store_ok (fst (put_payments castObjectId user id body s)).
Proof.
  intro H. unfold put_payments. run_handler.
  destruct (castObjectId id) as [pid|]; [|exact H].
  destruct (negb _); [exact H|].
  destruct (findOne _ _) as [old|]; [|exact H].
  destruct (Payment.type _).
  - simpl. keep_ok.
  - match goal with
    | |- context [recompute_repaid ?u ?i ?st] =>
        pose proof (store_ok_recompute_repaid u i st) as Hrec;
        destruct (recompute_repaid u i st) as [s2 [[]|r|]]
    end; simpl in *; apply Hrec; keep_ok.
Qed.

Lemma store_ok_delete_payments (user : ObjectId) (id : string) (s : Store) :
  store_ok s -> store_ok (fst (delete_payments castObjectId user id s)).
Proof.
  intro H. unfold delete_payments. run_handler.
  destruct (castObjectId id) as [pid|]; [|exact H].
  destruct (findOne _ _) as [payment|]; [|exact H].
  destruct (Payment.type _).
  - simpl. keep_ok.
  - match goal with
    | |- context [recompute_repaid ?u ?i ?st] =>
        pose proof (store_ok_recompute_repaid u i st) as Hrec;
        destruct (recompute_repaid u i st) as [s2 [[]|r|]]
    end; simpl in *; apply Hrec; keep_ok.
Qed.

Lemma owners_with_next_id (n : ObjectId) (s : Store) :
  owners (with_next_id n s) = owners s.
Proof. reflexivity. Qed.

Lemma store_ok_post_payments (user : ObjectId) (now : Z) (body : PaymentBody.t)
    (s : Store) :
  store_ok s -> store_ok (fst (post_payments castObjectId user now body s)).
Proof.
  intro H. unfold post_payments. run_handler.
  destruct (cast_field castObjectId (PaymentBody.reference_id body)) as [ref|]; [|exact H].
  destruct (is_str (PaymentBody.type body) "credit_card").
  - destruct (findOne _ _); [|exact H].
    destruct (Payment.create _ _ _ _ _ _ _ _) as [payment|] eqn:Ec; simpl; keep_ok.
    apply Payment_create_amount in Ec. destruct Ec as [_ [Hk _]].
    apply store_ok_payment_added; [|keep_ok]. congruence.
  - destruct (is_str (PaymentBody.type body) "borrowed"); [|exact H].
    destruct (findOne (borrowed_owned ref user) (borrowedMoney s)) as [b0|] eqn:Hb0;
      [|exact H].
    destruct (Payment.create _ _ _ _ _ _ _ _) as [payment|] eqn:Ec; simpl; keep_ok.
    apply Payment_create_amount in Ec. destruct Ec as [_ [_ [Hr [Hu _]]]].
    assert (store_ok (with_payments (fun l => (l ++ [payment])%list)
                        (with_next_id (S (next_id s)) s))) as H1.
    { apply store_ok_payment_added; [|keep_ok]. intros _.
      rewrite Hr, Hu, owners_with_next_id. exact (owned_in_owners _ _ _ _ Hb0). }
    autorewrite with store.
    destruct (findOne (borrowed_by_id ref) (borrowedMoney s)) as [b|]; [|exact H1].
    match goal with
    | |- context [findByIdAndUpdate_borrowed ?i ?u ?st] =>
        pose proof (store_ok_findByIdAndUpdate i u st H1) as Hs;
        destruct (findByIdAndUpdate_borrowed i u st) as [s2 [a|r|]]
    end; exact Hs.
Qed.

Lemma store_ok_post_borrowed_money_repay (user : ObjectId) (id : string)
    (body : RepayBody.t) (s : Store) :
  store_ok s -> store_ok (fst (post_borrowed_money_repay castObjectId user id body s)).
Proof.
  intro H. unfold post_borrowed_money_repay. run_handler.
  destruct (positive_amount _) as [amount|]; [|exact H].
  destruct (RepayBody.payment_date body) as [d|]; [|exact H].
  destruct (castObjectId id) as [rid|]; [|exact H].
  destruct (findOne (borrowed_owned rid user) (borrowedMoney s)) as [b|] eqn:Hb;
    [|exact H].
  destruct (Qltb _ amount); [exact H|].
  destruct (Payment.create _ _ _ _ _ _ _ _) as [payment|] eqn:Ec; simpl; keep_ok.
  apply Payment_create_amount in Ec. destruct Ec as [_ [_ [Hr [Hu _]]]].
  assert (store_ok (with_payments (fun l => (l ++ [payment])%list)
                      (with_next_id (S (next_id s)) s))) as H1.
  { apply store_ok_payment_added; [|keep_ok]. intros _.
    rewrite Hr, Hu, owners_with_next_id. exact (owned_in_owners _ _ _ _ Hb). }
  destruct (negb _); [exact H1|].
  match goal with
  | |- context [findByIdAndUpdate_borrowed ?i ?u ?st] =>
      pose proof (store_ok_findByIdAndUpdate i u st H1) as Hs;
      destruct (findByIdAndUpdate_borrowed i u st) as [s2 [[a|]|r|]]
  end; exact Hs.
Qed.

(** A computation that leaves the records and the payments alone. *)
Definition elsewhere {A : Type} (h : Handler A) : Prop :=
  forall s, borrowedMoney (fst (h s)) = borrowedMoney s
            /\ payments (fst (h s)) = payments s
            /\ next_id s <= next_id (fst (h s)).

Lemma elsewhere_bind {A B : Type} (h : Handler A) (k : A -> Handler B) :
  elsewhere h -> (forall a, elsewhere (k a)) -> elsewhere (bind h k).
Proof.
  intros Hh Hk s. unfold bind. specialize (Hh s).
  destruct (h s) as [s1 [a|r|]]; simpl in *; try exact Hh.
  destruct Hh as [Hb [Hp Hn]]. destruct (Hk a s1) as [Hb' [Hp' Hn']].
  rewrite Hb', Hp'. repeat split; try assumption. lia.
Qed.

Lemma elsewhere_pure {A : Type} (o : Outcome A) : elsewhere (fun s => (s, o)).
Proof. intro s. simpl. auto. Qed.

Lemma elsewhere_reject_if (c : bool) (r : Response) : elsewhere (reject_if c r).
Proof. unfold reject_if. destruct c; apply elsewhere_pure. Qed.

Lemma elsewhere_read {A : Type} (f : Store -> A) : elsewhere (read f).
Proof. intro s. simpl. auto. Qed.

Lemma elsewhere_newObjectId : elsewhere newObjectId.
Proof. intro s. simpl. auto. Qed.

Lemma elsewhere_write_expenses (f : list Expense.t -> list Expense.t) :
  elsewhere (write (with_expenses f)).
Proof. intro s. simpl. auto. Qed.

Lemma elsewhere_write_categories (f : list Category.t -> list Category.t) :
  elsewhere (write (with_categories f)).
Proof. intro s. simpl. auto. Qed.

Ltac stays_elsewhere :=
  repeat first
    [ apply elsewhere_bind; [|intro]
    | apply elsewhere_reject_if
    | apply elsewhere_read
    | apply elsewhere_newObjectId
    | apply elsewhere_write_expenses
    | apply elsewhere_write_categories
    | apply (elsewhere_pure (Next _))
    | apply (elsewhere_pure (Sent _))
    | apply (elsewhere_pure Thrown)
    | match goal with
      | |- elsewhere (match ?x with _ => _ end) => destruct x
      end ].

Lemma store_ok_elsewhere_route (h : Handler Response) (e : Response) (s : Store) :
  elsewhere h -> store_ok s -> store_ok (fst (try_catch h e s)).
Proof.
  intros Hh H. destruct (Hh s) as [Hb [Hp Hn]].
  apply (store_ok_elsewhere s); [| | |exact H];
    unfold try_catch; destruct (h s) as [s1 [a|r|]]; assumption.
Qed.

Lemma store_ok_post_expenses (user : ObjectId) (now : Z) (body : ExpenseBody.t)
    (s : Store) :
  store_ok s -> store_ok (fst (post_expenses castObjectId user now body s)).
Proof.
  apply store_ok_elsewhere_route.
  unfold check_category, check_credit_card, check_borrowed, check_reference.
  stays_elsewhere.
Qed.

Lemma store_ok_put_expenses (user : ObjectId) (id : string) (body : ExpenseBody.t)
    (s : Store) :
  store_ok s -> store_ok (fst (put_expenses castObjectId user id body s)).
Proof.
  apply store_ok_elsewhere_route.
  unfold check_category, check_credit_card, check_borrowed, check_reference.
  stays_elsewhere.
Qed.

Lemma store_ok_post_categories (user : ObjectId) (body : CategoryBody.t) (s : Store) :
  store_ok s -> store_ok (fst (post_categories RegExp_i user body s)).
Proof.
  apply store_ok_elsewhere_route. stays_elsewhere.
Qed.

(** One request served: one of the routes above, or a route that leaves
    the records and the payments alone (the reports, the credit cards). *)
Inductive served (s : Store) : Store -> Prop :=
| serve_post_borrowed_money user body :
    served s (fst (post_borrowed_money user body s))
| serve_put_borrowed_money user id body :
    served s (fst (put_borrowed_money castObjectId user id body s))
| serve_repay user id body :
    served s (fst (post_borrowed_money_repay castObjectId user id body s))
| serve_delete_borrowed_money user id :
    served s (fst (delete_borrowed_money castObjectId user id s))
| serve_post_payments user now body :
    served s (fst (post_payments castObjectId user now body s))
| serve_put_payments user id body :
    served s (fst (put_payments castObjectId user id body s))
| serve_delete_payments user id :
    served s (fst (delete_payments castObjectId user id s))
| serve_post_expenses user now body :
    served s (fst (post_expenses castObjectId user now body s))
| serve_put_expenses user id body :
    served s (fst (put_expenses castObjectId user id body s))
| serve_post_categories user body :
    served s (fst (post_categories RegExp_i user body s))
| serve_elsewhere s' :
    borrowedMoney s' = borrowedMoney s -> payments s' = payments s ->
    next_id s <= next_id s' ->
    served s s'.

(** The stores the service reaches from the empty one. *)
Inductive reachable : Store -> Prop :=
| reach_empty : reachable empty_store
| reach_served s s' : reachable s -> served s s' -> reachable s'.

Lemma served_store_ok (s s' : Store) : served s s' -> store_ok s -> store_ok s'.
Proof.
  intros [user body | user id body | user id body | user id | user now body
         | user id body | user id | user now body | user id body | user body
         | s1 Hb Hp Hn] H.
  - apply store_ok_post_borrowed_money, H.
  - apply store_ok_put_borrowed_money, H.
  - apply store_ok_post_borrowed_money_repay, H.
  - apply store_ok_delete_borrowed_money, H.
  - apply store_ok_post_payments, H.
  - apply store_ok_put_payments, H.
  - apply store_ok_delete_payments, H.
  - apply store_ok_post_expenses, H.
  - apply store_ok_put_expenses, H.
  - apply store_ok_post_categories, H.
  - exact (store_ok_elsewhere s s1 Hb Hp Hn H).
Qed.

(** In every reachable store the payments keep the ownership invariant that
    the recomputation relies on. *)
Lemma reachable_references_owned (s : Store) :
  reachable s -> references_owned s = true.
Proof.
  intro R. apply store_ok_references_owned.
  induction R as [|s s' R IH Hs].
  - repeat split; simpl; try constructor; intros; contradiction.
  - exact (served_store_ok s s' Hs IH).
Qed.

End Reachable.

(** ** The recomputation in the stores the service reaches *)

Section RecomputedReachable.

Variable castObjectId : string -> option ObjectId.
Variable RegExp_i : string -> option (string -> bool).

(** C5. In a store the service has reached, the update (with a body that
    passes the update validators) and the delete of a payment of the caller
    of type ['borrowed'] whose record still exists both succeed with 200,
    and they leave the record with its principal [p] and with [min S p]
    repaid: [S] is the sum of the amounts of the payments of type
    ['borrowed'] that reference the record in the store the operation
    leaves; [S] is zero when no such payment remains. *)
Theorem recomputed_repaid_amount (s : Store) (ref : ObjectId) (out : Store * Response)
    (b : BorrowedMoney.t) :
  reachable castObjectId RegExp_i s ->
  recomputing_request castObjectId s ref out ->
  findOne (borrowed_by_id ref) (borrowedMoney s) = Some b ->
  code (snd out) = 200 /\
  exists b',
    findOne (borrowed_by_id ref) (borrowedMoney (fst out)) = Some b' /\
    BorrowedMoney.amount b' = BorrowedMoney.amount b /\
    (BorrowedMoney.repaid_amount b'
     == Qmin (paid_against ref (payments (fst out))) (BorrowedMoney.amount b))%Q /\
    (filter (references ref) (payments (fst out)) = [] ->
     (BorrowedMoney.repaid_amount b' == Qmin 0 (BorrowedMoney.amount b))%Q).
Proof.
  intros R W Hb.
  apply (recomputed_under_ownership castObjectId s ref out b); try assumption.
  exact (reachable_references_owned castObjectId RegExp_i s R).
Qed.

End RecomputedReachable.

Lemma loan_repaid_400_reachable : reachable demo_cast demo_regexp loan_repaid_400.
Proof.
  apply reach_served with (s := one_loan).
  - apply reach_served with (s := empty_store); [apply reach_empty|].
    exact (serve_post_borrowed_money demo_cast demo_regexp empty_store 7 (loan 1000)).
  - exact (serve_repay demo_cast demo_regexp one_loan 7 "b0" (repayment 400 (Some 5%Z))).
Defined.

(** The loan of 1000 with its one repayment of 400, as the store holds them. *)
Definition loan_after_400 : BorrowedMoney.t :=
  {| BorrowedMoney._id := 0; BorrowedMoney.user_id := 7;
     BorrowedMoney.name := "Asha"; BorrowedMoney.phone := None;
     BorrowedMoney.amount := 1000; BorrowedMoney.type := BorrowedMoney.borrowed;
     BorrowedMoney.status := BorrowedMoney.partial; BorrowedMoney.note := None;
     BorrowedMoney.repaid_amount := (0 + 400)%Q |}.

Definition repayment_of_400 : Payment.t :=
  {| Payment._id := 1; Payment.user_id := 7; Payment.type := Payment.borrowed;
     Payment.reference_id := 0; Payment.amount := 400;
     Payment.payment_date := 5%Z; Payment.note := Some "Repayment for Asha";
     Payment.payment_method := "cash" |}.

(** C5, witness, on the loan of 1000 with one repayment of 400: the delete of
    that repayment is answered 200, leaves no payment against the record and
    the record with [min 0 1000] repaid; the edit of the repayment from 400
    to 250 is answered 200 and leaves the record with [min 250 1000]
    repaid. *)
Lemma recomputed_repaid_amount_witness :
  (let out := delete_payments demo_cast 7 "p1" loan_repaid_400 in
   code (snd out) = 200 /\
   exists b',
     findOne (borrowed_by_id 0) (borrowedMoney (fst out)) = Some b' /\
     BorrowedMoney.amount b' = 1000%Q /\
     (BorrowedMoney.repaid_amount b'
      == Qmin (paid_against 0%nat (payments (fst out))) 1000)%Q /\
     (filter (references 0) (payments (fst out)) = [] ->
      (BorrowedMoney.repaid_amount b' == Qmin 0 1000)%Q))
  /\
  (let out := put_payments demo_cast 7 "p1" (payment_edit 250) loan_repaid_400 in
   code (snd out) = 200 /\
   exists b',
     findOne (borrowed_by_id 0) (borrowedMoney (fst out)) = Some b' /\
     BorrowedMoney.amount b' = 1000%Q /\
     (BorrowedMoney.repaid_amount b'
      == Qmin (paid_against 0%nat (payments (fst out))) 1000)%Q /\
     (filter (references 0) (payments (fst out)) = [] ->
      (BorrowedMoney.repaid_amount b' == Qmin 0 1000)%Q)).
Proof.
  split.
  - exact (recomputed_repaid_amount demo_cast demo_regexp loan_repaid_400 0 _
             loan_after_400 loan_repaid_400_reachable
             (delete_of demo_cast loan_repaid_400 0 7 1 "p1" repayment_of_400
                eq_refl eq_refl eq_refl eq_refl)
             eq_refl).
  - exact (recomputed_repaid_amount demo_cast demo_regexp loan_repaid_400 0 _
             loan_after_400 loan_repaid_400_reachable
             (update_of demo_cast loan_repaid_400 0 7 1 "p1" (payment_edit 250)
                repayment_of_400 eq_refl eq_refl eq_refl eq_refl eq_refl)
             eq_refl).
Defined.

(** C5, on the same loan: once its only repayment is deleted, no payment
    references the record and nothing is repaid. *)
Example last_repayment_deleted_nothing_repaid :
  let out := delete_payments demo_cast 7 "p1" loan_repaid_400 in
  filter (references 0) (payments (fst out)) = []
  /\ option_map BorrowedMoney.repaid_amount
       (findOne (borrowed_by_id 0) (borrowedMoney (fst out))) = Some (Qmin 0 1000).
Proof. vm_compute. split; reflexivity. Qed.

(** * Further properties of the routes above *)

(** ** The [pre('save')] hook of a borrowed-money record *)

Ltac Qbools :=
  repeat match goal with
         | H : Qeq_bool _ _ = true |- _ => apply Qeq_bool_iff in H
         | H : Qeq_bool _ _ = false |- _ => apply Qeq_bool_neq in H
         | H : Qle_bool _ _ = true |- _ => apply Qle_bool_iff in H
         | H : Qle_bool _ _ = false |- _ => apply Qle_bool_false in H
         | H : Qltb _ _ = true |- _ => apply Qltb_true in H
         | H : Qltb _ _ = false |- _ => apply Qltb_false in H
         end.

(** X1. The hook settles a record: afterwards the repaid amount does not
    exceed the principal, the principal is the one the record had, a repaid
    amount within the principal is kept and one beyond the principal is set
    to the principal, the status is [pending] exactly when nothing is repaid
    and [repaid] exactly when something is repaid and the repaid amount
    reaches the principal, and running the hook again changes nothing. *)
Theorem pre_save_settles_record (b : BorrowedMoney.t) :
  let b' := BorrowedMoney.pre_save b in
  (BorrowedMoney.repaid_amount b' <= BorrowedMoney.amount b')%Q
  /\ BorrowedMoney.amount b' = BorrowedMoney.amount b
  /\ ((BorrowedMoney.repaid_amount b <= BorrowedMoney.amount b)%Q ->
      BorrowedMoney.repaid_amount b' = BorrowedMoney.repaid_amount b)
  /\ ((BorrowedMoney.amount b < BorrowedMoney.repaid_amount b)%Q ->
      BorrowedMoney.repaid_amount b' = BorrowedMoney.amount b)
  /\ (BorrowedMoney.status b' = BorrowedMoney.pending
      <-> (BorrowedMoney.repaid_amount b' == 0)%Q)
  /\ (BorrowedMoney.status b' = BorrowedMoney.repaid
      <-> (~ (BorrowedMoney.repaid_amount b' == 0)%Q
           /\ (BorrowedMoney.amount b' <= BorrowedMoney.repaid_amount b')%Q))
  /\ BorrowedMoney.pre_save b' = b'.
Proof.
  destruct b as [i u n ph a k st nt r]. cbv zeta.
  unfold BorrowedMoney.pre_save, BorrowedMoney.with_repaid_amount,
    BorrowedMoney.with_status.
  cbn [BorrowedMoney.repaid_amount BorrowedMoney.amount].
  destruct (Qltb a r) eqn:Eclamp; cbn [BorrowedMoney.repaid_amount BorrowedMoney.amount].
  - assert (Qltb a a = false) as Hself by (apply Qltb_false; lra).
    apply Qltb_true in Eclamp.
    destruct (Qeq_bool a 0) eqn:E0; [|destruct (Qle_bool a a) eqn:E1];
      cbn; rewrite ?Hself; cbn; rewrite ?E0; cbn; rewrite ?E1; cbn;
      Qbools; repeat split; intros; try reflexivity; try discriminate; try assumption;
      try lra; try (exfalso; lra); try (exfalso; tauto).
  - assert (Qltb a r = false) as Hkeep by exact Eclamp.
    apply Qltb_false in Eclamp.
    destruct (Qeq_bool r 0) eqn:E0; [|destruct (Qle_bool a r) eqn:E1];
      cbn; rewrite ?Hkeep; cbn; rewrite ?E0; cbn; rewrite ?E1; cbn;
      Qbools; repeat split; intros; try reflexivity; try discriminate; try assumption;
      try lra; try (exfalso; lra); try (exfalso; tauto).
Qed.

(** ** Recording a loan *)

(** The body of [POST /api/borrowed-money] passes the schema: a name that is
    not blank and has at most 100 characters once trimmed, an amount of at
    least 0.01, a type among ['borrowed'] and ['lent'], and, when present, a
    phone of at most 20 and a note of at most 500 characters. *)
Definition valid_loan (body : BorrowedMoneyBody.t) : Prop :=
  (exists n, BorrowedMoneyBody.name body = Some n
             /\ trim n <> "" /\ js_length (trim n) <= 100)
  /\ (exists a, BorrowedMoneyBody.amount body = Some a /\ (1 # 100 <= a)%Q)
  /\ (BorrowedMoneyBody.type body = Some "borrowed"
      \/ BorrowedMoneyBody.type body = Some "lent")
  /\ (forall p, BorrowedMoneyBody.phone body = Some p -> js_length (trim p) <= 20)
  /\ (forall n, BorrowedMoneyBody.note body = Some n -> js_length (trim n) <= 500).

Lemma required_text_ok_iff (max : nat) (v : option string) :
  required_text_ok max v = true
  <-> exists n, v = Some n /\ trim n <> "" /\ js_length (trim n) <= max.
Proof.
  unfold required_text_ok. destruct v as [n|].
  - rewrite andb_true_iff, negb_true_iff, String.eqb_neq, Nat.leb_le.
    split.
    + intros [H1 H2]. exists n. auto.
    + intros [m [E [H1 H2]]]. injection E as <-. auto.
  - split; [discriminate|]. intros [n [E _]]. discriminate.
Qed.

Lemma text_ok_iff (max : nat) (v : option string) :
  text_ok max v = true <-> forall n, v = Some n -> js_length (trim n) <= max.
Proof.
  unfold text_ok. destruct v as [n|].
  - rewrite Nat.leb_le. split.
    + intros H m E. injection E as <-. exact H.
    + intros H. apply H. reflexivity.
  - split; [intros _ n E; discriminate | reflexivity].
Qed.

Lemma kind_of_string_iff (ty : string) :
  (exists k, BorrowedMoney.kind_of_string ty = Some k) <-> ty = "borrowed" \/ ty = "lent".
Proof.
  unfold BorrowedMoney.kind_of_string.
  destruct (ty =? "borrowed")%string eqn:E1; [|destruct (ty =? "lent")%string eqn:E2].
  - apply String.eqb_eq in E1. split; eauto.
  - apply String.eqb_eq in E2. split; eauto.
  - apply String.eqb_neq in E1. apply String.eqb_neq in E2.
    split; [intros [k H]; discriminate | intros [H|H]; contradiction].
Qed.

Lemma create_loan_iff (id user : ObjectId) (body : BorrowedMoneyBody.t) :
  (exists doc, BorrowedMoney.create id user (BorrowedMoneyBody.name body)
                 (BorrowedMoneyBody.phone body) (BorrowedMoneyBody.amount body)
                 (BorrowedMoneyBody.type body) (BorrowedMoneyBody.note body) = Some doc)
  <-> valid_loan body.
Proof.
  unfold valid_loan, BorrowedMoney.create.
  rewrite <- required_text_ok_iff, <- !text_ok_iff.
  destruct (BorrowedMoneyBody.name body) as [n|].
  2:{ split; [intros [d H]; discriminate | intros [H _]; discriminate]. }
  destruct (BorrowedMoneyBody.amount body) as [a|].
  2:{ split; [intros [d H]; discriminate | intros [_ [[a [H _]] _]]; discriminate]. }
  destruct (BorrowedMoneyBody.type body) as [ty|].
  2:{ split; [intros [d H]; discriminate | intros [_ [_ [[H|H] _]]]; discriminate]. }
  pose proof (kind_of_string_iff ty) as Hk.
  destruct (BorrowedMoney.kind_of_string ty) as [k|].
  - assert (ty = "borrowed" \/ ty = "lent") as Hty by (apply Hk; eauto).
    split.
    + intros [d H].
      destruct (required_text_ok 100 (Some n) && text_ok 20 (BorrowedMoneyBody.phone body)
                && amount_ok a && text_ok 500 (BorrowedMoneyBody.note body)) eqn:E;
        [|discriminate].
      rewrite !andb_true_iff in E. destruct E as [[[E1 E2] E3] E4].
      unfold amount_ok in E3. Qbools.
      repeat split; try assumption.
      * exists a. auto.
      * destruct Hty as [-> | ->]; auto.
    + intros [H1 [[a' [Ea Ha]] [_ [H2 H4]]]]. injection Ea as <-.
      rewrite H1, H2, H4. unfold amount_ok.
      apply Qle_bool_iff in Ha. rewrite Ha. cbn [andb]. eauto.
  - split; [intros [d H]; discriminate|].
    intros [_ [_ [Hty _]]]. exfalso.
    assert (exists k, @None BorrowedMoney.Kind = Some k) as [k Hk']
      by (apply Hk; destruct Hty as [E|E]; injection E as ->; auto).
    discriminate.
Qed.

Lemma create_loan_fields (id user : ObjectId) (name_ phone_ : option string)
    (amount_ : option Q) (type_ note_ : option string) (doc : BorrowedMoney.t) :
  BorrowedMoney.create id user name_ phone_ amount_ type_ note_ = Some doc ->
  BorrowedMoney._id doc = id /\ BorrowedMoney.user_id doc = user
  /\ BorrowedMoney.status doc = BorrowedMoney.pending
  /\ BorrowedMoney.repaid_amount doc = 0%Q
  /\ amount_ = Some (BorrowedMoney.amount doc)
  /\ (1 # 100 <= BorrowedMoney.amount doc)%Q
  /\ option_map trim name_ = Some (BorrowedMoney.name doc).
Proof.
  unfold BorrowedMoney.create.
  destruct name_ as [n|]; [|discriminate].
  destruct amount_ as [a|]; [|discriminate].
  destruct type_ as [ty|]; [|discriminate].
  destruct (BorrowedMoney.kind_of_string ty) as [k|]; [|discriminate].
  destruct (_ && _) eqn:E; [|discriminate].
  rewrite !andb_true_iff in E. destruct E as [[[_ _] E3] _].
  unfold amount_ok in E3. Qbools.
  intro H. injection H as <-. cbn. repeat split; auto.
Qed.

(** A fresh record, nothing repaid and a principal of at least 0.01, goes
    through the hook unchanged. *)
Lemma pre_save_fresh (doc : BorrowedMoney.t) :
  BorrowedMoney.status doc = BorrowedMoney.pending ->
  BorrowedMoney.repaid_amount doc = 0%Q ->
  (1 # 100 <= BorrowedMoney.amount doc)%Q ->
  BorrowedMoney.pre_save doc = doc.
Proof.
  destruct doc as [i u n ph a k st nt r]. cbn. intros -> -> Ha.
  unfold BorrowedMoney.pre_save. cbn.
  assert (Qltb a 0 = false) as -> by (apply Qltb_false; lra).
  reflexivity.
Qed.

(** X2. [POST /api/borrowed-money] answers 201 exactly when the body passes
    the schema, and 500 otherwise; the lengths the schema bounds are those
    of the trimmed strings, in UTF-16 code units. On 201 the store gains one
    record: it has the next id, belongs to the caller, carries the amount of
    the body and the trimmed name, nothing repaid and the status [pending].
    On 500 no record is stored. The payments are untouched either way. *)
Theorem post_borrowed_money_outcome (user : ObjectId) (body : BorrowedMoneyBody.t)
    (s : Store) :
  let (s', r) := post_borrowed_money user body s in
  payments s' = payments s
  /\ ((valid_loan body /\ code r = 201
       /\ exists b,
           borrowedMoney s' = (borrowedMoney s ++ [b])%list
           /\ payload r = BorrowedDoc b
           /\ BorrowedMoney._id b = next_id s
           /\ BorrowedMoney.user_id b = user
           /\ BorrowedMoney.status b = BorrowedMoney.pending
           /\ BorrowedMoney.repaid_amount b = 0%Q
           /\ BorrowedMoneyBody.amount body = Some (BorrowedMoney.amount b)
           /\ option_map trim (BorrowedMoneyBody.name body) = Some (BorrowedMoney.name b))
      \/ (~ valid_loan body /\ code r = 500 /\ borrowedMoney s' = borrowedMoney s)).
Proof.
  unfold post_borrowed_money. run_handler.
  pose proof (create_loan_iff (next_id s) user body) as Hvalid.
  destruct (BorrowedMoney.create _ _ _ _ _ _ _) as [doc|] eqn:Ec.
  - split; [reflexivity|]. left.
    destruct (create_loan_fields _ _ _ _ _ _ _ _ Ec) as [Hi [Hu [Hst [Hr [Ha [Hmin Hn]]]]]].
    rewrite (pre_save_fresh doc Hst Hr Hmin).
    split; [apply Hvalid; eauto|]. split; [reflexivity|].
    exists doc. repeat split; assumption.
  - split; [reflexivity|]. right. split; [|split; reflexivity].
    intro Hv. apply Hvalid in Hv. destruct Hv as [d Hd]. discriminate.
Qed.

(** [n] copies of the string [s]. *)
Fixpoint copies (n : nat) (s : string) : string :=
  match n with
  | 0 => EmptyString
  | S m => (s ++ copies m s)%string
  end.

(** A name of 51 letters "é" takes 102 bytes and has the length 51: it is
    within the 100 characters of the schema, and the record is stored. A
    name of 101 letters "e" is not. *)
Example accented_name_within_maxlength :
  String.length (copies 51 "é") = 102 /\ js_length (copies 51 "é") = 51
  /\ code (snd (post_borrowed_money 7
                  {| BorrowedMoneyBody.name := Some (copies 51 "é");
                     BorrowedMoneyBody.phone := None;
                     BorrowedMoneyBody.amount := Some 1000%Q;
                     BorrowedMoneyBody.type := Some "borrowed";
                     BorrowedMoneyBody.note := None |} empty_store)) = 201
  /\ code (snd (post_borrowed_money 7
                  {| BorrowedMoneyBody.name := Some (copies 101 "e");
                     BorrowedMoneyBody.phone := None;
                     BorrowedMoneyBody.amount := Some 1000%Q;
                     BorrowedMoneyBody.type := Some "borrowed";
                     BorrowedMoneyBody.note := None |} empty_store)) = 500.
Proof. vm_compute. repeat split; reflexivity. Qed.

(** ** The repay action, below the schema's minimum *)

Section RepayBelowMinimum.

Variable castObjectId : string -> option ObjectId.

(** X4. The repay route refuses an amount only when it is not positive; the
    minimum of 0.01 is the payment schema's. A repay request for a positive
    amount below 0.01 that is within what remains, on a record of the
    caller and with a payment date, fails in [payment.save()]: it is
    answered 500 and neither a payment is stored nor the record changed. *)
Theorem repay_below_minimum_fails (s : Store) (user rid : ObjectId) (id : string)
    (body : RepayBody.t) (b : BorrowedMoney.t) (a : Q) (d : Z) :
  castObjectId id = Some rid ->
  findOne (borrowed_owned rid user) (borrowedMoney s) = Some b ->
  RepayBody.amount body = Some a ->
  RepayBody.payment_date body = Some d ->
  (0 < a)%Q -> (a < 1 # 100)%Q ->
  (a <= BorrowedMoney.amount b - BorrowedMoney.repaid_amount b)%Q ->
  let (s', r) := post_borrowed_money_repay castObjectId user id body s in
  r = json 500 "Server error while recording repayment" NoPayload
  /\ payments s' = payments s
  /\ borrowedMoney s' = borrowedMoney s.
Proof.
  intros Hid Hb Ha Hd Hpos Hlt Hrem.
  unfold post_borrowed_money_repay, try_catch.
  assert (positive_amount (RepayBody.amount body) = Some a) as ->
    by (apply positive_amount_Some; split; [exact Ha | exact Hpos]).
  rewrite Hd, Hid. unfold bind at 1. unfold read at 1. rewrite Hb.
  unfold bind at 1. unfold reject_if.
  assert (Qltb (BorrowedMoney.amount b - BorrowedMoney.repaid_amount b) a = false) as ->
    by (apply Qltb_false; exact Hrem).
  unfold ret at 1. unfold bind at 1. unfold newObjectId at 1.
  unfold Payment.create, amount_ok.
  assert (Qle_bool (1 # 100) a = false) as ->.
  { destruct (Qle_bool (1 # 100) a) eqn:E; [|reflexivity]. Qbools. lra. }
  cbn [andb]. unfold throw. autorewrite with store. repeat split; reflexivity.
Qed.

End RepayBelowMinimum.

(** X4, witness: a repayment of 0.005 of the loan of 1000. *)
Lemma repay_below_minimum_fails_witness :
  let (s', r) := post_borrowed_money_repay demo_cast 7 "b0"
                   (repayment (5 # 1000) (Some 5%Z)) one_loan in
  r = json 500 "Server error while recording repayment" NoPayload
  /\ payments s' = payments one_loan
  /\ borrowedMoney s' = borrowedMoney one_loan.
Proof.
  apply (repay_below_minimum_fails demo_cast one_loan 7 0 "b0"
           (repayment (5 # 1000) (Some 5%Z))
           {| BorrowedMoney._id := 0; BorrowedMoney.user_id := 7;
              BorrowedMoney.name := "Asha"; BorrowedMoney.phone := None;
              BorrowedMoney.amount := 1000; BorrowedMoney.type := BorrowedMoney.borrowed;
              BorrowedMoney.status := BorrowedMoney.pending; BorrowedMoney.note := None;
              BorrowedMoney.repaid_amount := 0 |}
           (5 # 1000) 5%Z);
    try reflexivity; try (vm_compute; discriminate); vm_compute; lia.
Defined.

(** ** Recording a payment: all or nothing, and only against one's own *)

Section PostPayments.

Variable castObjectId : string -> option ObjectId.

(** The outcomes of [POST /api/payments]: the payment it stores on 201, with
    the reference it has checked, or nothing stored. *)
Lemma post_payments_cases (s : Store) (user : ObjectId) (now : Z)
    (body : PaymentBody.t) :
  let (s', r) := post_payments castObjectId user now body s in
  (code r = 201
   /\ exists p,
        payments s' = (payments s ++ [p])%list
        /\ payload r = PaymentDoc p
        /\ Payment._id p = next_id s
        /\ Payment.user_id p = user
        /\ cast_field castObjectId (PaymentBody.reference_id body)
           = Some (Payment.reference_id p)
        /\ PaymentBody.amount body = Some (Payment.amount p)
        /\ match Payment.type p with
           | Payment.credit_card =>
               PaymentBody.type body = Some "credit_card"
               /\ findOne (card_owned (Payment.reference_id p) user) (creditCards s)
                  <> None
               /\ borrowedMoney s' = borrowedMoney s
           | Payment.borrowed =>
               PaymentBody.type body = Some "borrowed"
               /\ findOne (borrowed_owned (Payment.reference_id p) user) (borrowedMoney s)
                  <> None
           end)
  \/ ((code r = 400 \/ code r = 500)
      /\ payments s' = payments s /\ borrowedMoney s' = borrowedMoney s).
Proof.
  unfold post_payments, try_catch.
  destruct (cast_field castObjectId (PaymentBody.reference_id body)) as [ref|] eqn:Href.
  2:{ unfold send. right. cbn. auto. }
  destruct (is_str (PaymentBody.type body) "credit_card") eqn:Ecc.
  - assert (PaymentBody.type body = Some "credit_card") as Hty.
    { unfold is_str in Ecc. destruct (PaymentBody.type body); [|discriminate].
      apply String.eqb_eq in Ecc. congruence. }
    unfold bind at 1 2. unfold read at 1.
    destruct (findOne (card_owned ref user) (creditCards s)) as [c|] eqn:Hc.
    2:{ unfold send. right. cbn. auto. }
    unfold ret at 1. unfold bind at 1. unfold newObjectId at 1.
    destruct (Payment.create _ _ _ _ _ _ _ _) as [p|] eqn:Ec.
    2:{ unfold throw. right. cbn. auto. }
    apply Payment_create_amount in Ec. destruct Ec as (Ea & Ek & Er & Eu & Ei).
    unfold bind, write, ret. cbn [code payload json].
    left. split; [reflexivity|]. exists p. autorewrite with store.
    repeat (split; [first [reflexivity | assumption | congruence]|]).
    rewrite Ek, Er. split; [exact Hty|]. split; [congruence | reflexivity].
  - destruct (is_str (PaymentBody.type body) "borrowed") eqn:Ebo.
    2:{ unfold bind at 1. unfold send. right. cbn. auto. }
    assert (PaymentBody.type body = Some "borrowed") as Hty.
    { unfold is_str in Ebo. destruct (PaymentBody.type body); [|discriminate].
      apply String.eqb_eq in Ebo. congruence. }
    unfold bind at 1 2. unfold read at 1.
    destruct (findOne (borrowed_owned ref user) (borrowedMoney s)) as [b|] eqn:Hb.
    2:{ unfold send. right. cbn. auto. }
    unfold ret at 1. unfold bind at 1. unfold newObjectId at 1.
    destruct (Payment.create _ _ _ _ _ _ _ _) as [p|] eqn:Ec.
    2:{ unfold throw. right. cbn. auto. }
    apply Payment_create_amount in Ec. destruct Ec as (Ea & Ek & Er & Eu & Ei).
    destruct (owned_found_by_id _ _ _ _ Hb) as [b0 Hb0].
    unfold bind, write, read. autorewrite with store. rewrite Hb0.
    match goal with
    | |- context [findByIdAndUpdate_borrowed ?i ?u ?st] =>
        destruct (findByIdAndUpdate_borrowed_found i u st b0) as [s2 [Hupd [_ Hpay]]];
        [autorewrite with store; exact Hb0|]; rewrite Hupd
    end.
    unfold ret. cbn [code payload json].
    left. split; [reflexivity|]. exists p. rewrite Hpay. autorewrite with store.
    repeat (split; [first [reflexivity | assumption | congruence]|]).
    rewrite Ek, Er. split; [exact Hty | congruence].
Qed.

Lemma post_payments_elsewhere (s : Store) (user : ObjectId) (now : Z)
    (body : PaymentBody.t) :
  creditCards (fst (post_payments castObjectId user now body s)) = creditCards s
  /\ expenses (fst (post_payments castObjectId user now body s)) = expenses s.
Proof.
  unfold post_payments. run_handler.
  destruct (cast_field castObjectId (PaymentBody.reference_id body)) as [ref|];
    [|split; reflexivity].
  destruct (is_str (PaymentBody.type body) "credit_card").
  - destruct (findOne _ _); [|split; reflexivity].
    destruct (Payment.create _ _ _ _ _ _ _ _); split; reflexivity.
  - destruct (is_str (PaymentBody.type body) "borrowed"); [|split; reflexivity].
    destruct (findOne (borrowed_owned ref user) (borrowedMoney s)); [|split; reflexivity].
    destruct (Payment.create _ _ _ _ _ _ _ _); [|split; reflexivity].
    autorewrite with store.
    destruct (findOne (borrowed_by_id ref) (borrowedMoney s)); [|split; reflexivity].
    unfold findByIdAndUpdate_borrowed. autorewrite with store.
    destruct (findOne _ _); split; reflexivity.
Qed.


End PostPayments.

(** ** The totals report, entry by entry *)

Definition has_id (k : Payment.Kind) (g : TypeGroup) : bool :=
  Payment.kind_eqb (group_id g) k.

(** The entry the [forEach] writes for a group; the zero entry for none. *)
Definition entry_of (o : option TypeGroup) : Totals.Entry :=
  match o with
  | Some g => {| Totals.amount := total_amount g; Totals.count := group_count g |}
  | None => zero_entry
  end.

Definition add_entry (e : Totals.Entry) (p : Payment.t) : Totals.Entry :=
  {| Totals.amount := (Totals.amount e + Payment.amount p)%Q;
     Totals.count := S (Totals.count e) |}.

Lemma kind_eqb_refl (k : Payment.Kind) : Payment.kind_eqb k k = true.
Proof. destruct k; reflexivity. Qed.

Lemma kind_eqb_sym (a b : Payment.Kind) : Payment.kind_eqb a b = Payment.kind_eqb b a.
Proof. destruct a, b; reflexivity. Qed.

Lemma find_add_to_groups (k : Payment.Kind) (p : Payment.t) (gs : list TypeGroup) :
  entry_of (find (has_id k) (add_to_groups p gs))
  = if Payment.kind_eqb (Payment.type p) k
    then add_entry (entry_of (find (has_id k) gs)) p
    else entry_of (find (has_id k) gs).
Proof.
  induction gs as [|g r IH]; simpl.
  - unfold has_id; simpl. destruct (Payment.kind_eqb (Payment.type p) k); reflexivity.
  - destruct (Payment.kind_eqb (group_id g) (Payment.type p)) eqn:E; simpl.
    + apply kind_eqb_eq in E. unfold has_id at 1 3 5; simpl. rewrite E.
      destruct (Payment.kind_eqb (Payment.type p) k); reflexivity.
    + unfold has_id at 1 3 5. destruct (Payment.kind_eqb (group_id g) k) eqn:Ek.
      * apply kind_eqb_eq in Ek. rewrite <- Ek, kind_eqb_sym, E. reflexivity.
      * exact IH.
Qed.

Lemma find_group_by_type (k : Payment.Kind) (l : list Payment.t) (gs : list TypeGroup) :
  entry_of (find (has_id k) (fold_left (fun gs p => add_to_groups p gs) l gs))
  = fold_left add_entry (filter (fun p => Payment.kind_eqb (Payment.type p) k) l)
              (entry_of (find (has_id k) gs)).
Proof.
  revert gs. induction l as [|p r IH]; simpl; intro gs; [reflexivity|].
  rewrite IH, find_add_to_groups.
  destruct (Payment.kind_eqb (Payment.type p) k); reflexivity.
Qed.

Lemma fold_add_entry (l : list Payment.t) (e : Totals.Entry) :
  fold_left add_entry l e
  = {| Totals.amount := fold_left (fun acc p => (acc + Payment.amount p)%Q) l
                                  (Totals.amount e);
       Totals.count := List.length l + Totals.count e |}.
Proof.
  revert e. induction l as [|p r IH]; simpl; intro e; [destruct e; reflexivity|].
  rewrite IH. simpl. f_equal. lia.
Qed.

Lemma add_to_groups_map_ids (p : Payment.t) (gs : list TypeGroup) :
  map group_id (add_to_groups p gs)
  = if existsb (has_id (Payment.type p)) gs then map group_id gs
    else (map group_id gs ++ [Payment.type p])%list.
Proof.
  induction gs as [|g r IH]; simpl; [reflexivity|].
  unfold has_id at 1. destruct (Payment.kind_eqb (group_id g) (Payment.type p)); simpl.
  - reflexivity.
  - rewrite IH. destruct (existsb _ r); reflexivity.
Qed.

Lemma add_to_groups_NoDup (p : Payment.t) (gs : list TypeGroup) :
  NoDup (map group_id gs) -> NoDup (map group_id (add_to_groups p gs)).
Proof.
  intro H. rewrite add_to_groups_map_ids.
  destruct (existsb (has_id (Payment.type p)) gs) eqn:E; [exact H|].
  apply NoDup_app; [exact H | repeat constructor; intros [] |].
  intros k Hk [<-|[]]. apply in_map_iff in Hk. destruct Hk as [g [Hg Hin]].
  assert (existsb (has_id (Payment.type p)) gs = true) as Hex.
  { apply existsb_exists. exists g. split; [exact Hin|].
    unfold has_id. rewrite Hg. apply kind_eqb_refl. }
  congruence.
Qed.

Lemma group_by_type_NoDup (l : list Payment.t) (gs : list TypeGroup) :
  NoDup (map group_id gs) ->
  NoDup (map group_id (fold_left (fun gs p => add_to_groups p gs) l gs)).
Proof.
  revert gs. induction l as [|p r IH]; simpl; intros gs H; [exact H|].
  apply IH, add_to_groups_NoDup, H.
Qed.

Lemma totals_of_found (k : Payment.Kind) (summary : list TypeGroup) (t : Totals.t) :
  NoDup (map group_id summary) ->
  entry k (fold_left record_group summary t)
  = match find (has_id k) summary with
    | Some g => entry_of (Some g)
    | None => entry k t
    end.
Proof.
  revert t. induction summary as [|g r IH]; simpl; intros t H; [reflexivity|].
  inversion H as [|x xs Hnot Hr]; subst.
  unfold has_id at 1. destruct (Payment.kind_eqb (group_id g) k) eqn:E.
  - apply kind_eqb_eq in E. rewrite totals_of_other.
    + unfold record_group. rewrite E. destruct k; reflexivity.
    + intros g' Hin Hid. apply Hnot. apply in_map_iff. exists g'. split; [congruence|exact Hin].
  - rewrite IH by exact Hr. destruct (find (has_id k) r); [reflexivity|].
    apply record_group_other. intro Hid. rewrite Hid, kind_eqb_refl in E. discriminate.
Qed.

Lemma filter_filter {A : Type} (f g : A -> bool) (l : list A) :
  filter g (filter f l) = filter (fun x => f x && g x) l.
Proof.
  induction l as [|x r IH]; simpl; [reflexivity|].
  destruct (f x); simpl; [destruct (g x); rewrite IH; reflexivity | exact IH].
Qed.

(** X6. The totals report answers 200 without writing, and its entry under
    each of the two keys holds the sum of the amounts and the number of the
    caller's payments of that type within the date range. *)
Theorem payment_totals_exact (s : Store) (user : ObjectId)
    (start_date end_date : option Z) :
  exists t,
    get_payments_summary_totals user start_date end_date s
    = (s, {| code := 200; message := None; payload := TotalsDoc t |})
    /\ forall k,
         entry k t
         = {| Totals.amount :=
                sum_amounts (matching user start_date end_date k (payments s));
              Totals.count :=
                List.length (matching user start_date end_date k (payments s)) |}.
Proof.
  eexists. split; [reflexivity|]. intro k.
  unfold totals_of, group_by_type.
  rewrite totals_of_found by (apply group_by_type_NoDup; constructor).
  unfold matching. rewrite <- filter_filter.
  set (l := filter (totals_filter user start_date end_date) (payments s)).
  pose proof (find_group_by_type k l []) as H. simpl in H.
  rewrite fold_add_entry in H. simpl in H. rewrite Nat.add_0_r in H.
  unfold sum_amounts. rewrite <- H.
  destruct (find (has_id k) _); [reflexivity | destruct k; reflexivity].
Qed.

(** ** A request touches only the caller's records and payments *)

(** The records and the payments of the users other than [u], in the order
    of the collection. *)
Definition others_records (u : ObjectId) (l : list BorrowedMoney.t)
    : list BorrowedMoney.t :=
  filter (fun b => negb (BorrowedMoney.user_id b =? u)) l.

Definition others_payments (u : ObjectId) (l : list Payment.t) : list Payment.t :=
  filter (fun p => negb (Payment.user_id p =? u)) l.

Definition untouched (u : ObjectId) (s s' : Store) : Prop :=
  others_records u (borrowedMoney s') = others_records u (borrowedMoney s)
  /\ others_payments u (payments s') = others_payments u (payments s).

(** The ids of the payments are distinct and were all generated already. *)
Definition ids_ok (s : Store) : Prop :=
  NoDup (map Payment._id (payments s))
  /\ forall p, In p (payments s) -> Payment._id p < next_id s.

(** A payment of type ['borrowed'] references a record that exists and
    belongs to the payment's user. *)
Definition linked (s : Store) : Prop :=
  forall ref u, In (Payment.borrowed, ref, u) (refs s) -> In (ref, u) (owners s).

Definition inv (s : Store) : Prop := store_ok s /\ ids_ok s /\ linked s.

Definition keeps (u : ObjectId) (s s' : Store) : Prop := inv s' /\ untouched u s s'.

(** Every record under the id [rid] belongs to [u]. *)
Definition sole_owner (rid u : ObjectId) (s : Store) : Prop :=
  forall u', In (rid, u') (owners s) -> u' = u.

Lemma filter_update_first {A : Type} (q p : A -> bool) (f : A -> A) (l : list A) :
  (forall x, In x l -> p x = true -> q x = false /\ q (f x) = false) ->
  filter q (update_first p f l) = filter q l.
Proof.
  induction l as [|x r IH]; simpl; intro H; [reflexivity|].
  destruct (p x) eqn:E; simpl.
  - destruct (H x (or_introl eq_refl) E) as [-> ->]. reflexivity.
  - rewrite IH by (intros y Hy; apply H; auto). reflexivity.
Qed.

Lemma filter_delete_first {A : Type} (q p : A -> bool) (l : list A) :
  (forall x, In x l -> p x = true -> q x = false) ->
  filter q (delete_first p l) = filter q l.
Proof.
  induction l as [|x r IH]; simpl; intro H; [reflexivity|].
  destruct (p x) eqn:E; simpl.
  - rewrite (H x (or_introl eq_refl) E). reflexivity.
  - rewrite IH by (intros y Hy; apply H; auto). reflexivity.
Qed.

Lemma NoDup_map_eq {A K : Type} (key : A -> K) (l : list A) (x y : A) :
  NoDup (map key l) -> In x l -> In y l -> key x = key y -> x = y.
Proof.
  induction l as [|z r IH]; simpl; [tauto|].
  intros Hnd Hx Hy E. inversion Hnd as [|? ? Hnotin Hnd']; subst.
  destruct Hx as [<-|Hx], Hy as [<-|Hy].
  - reflexivity.
  - exfalso. apply Hnotin. rewrite E. apply in_map. exact Hy.
  - exfalso. apply Hnotin. rewrite <- E. apply in_map. exact Hx.
  - exact (IH Hnd' Hx Hy E).
Qed.

Lemma untouched_refl (u : ObjectId) (s : Store) : untouched u s s.
Proof. split; reflexivity. Qed.

Lemma keeps_refl (u : ObjectId) (s : Store) : inv s -> keeps u s s.
Proof. intro H. split; [exact H | apply untouched_refl]. Qed.

Lemma keeps_trans (u : ObjectId) (s s1 s2 : Store) :
  keeps u s s1 -> keeps u s1 s2 -> keeps u s s2.
Proof.
  intros [_ [Hb Hp]] [H2 [Hb' Hp']]. split; [exact H2|].
  split; congruence.
Qed.

(** *** The writes of the routes *)

Lemma keeps_next_id (u : ObjectId) (s : Store) :
  inv s -> keeps u s (with_next_id (S (next_id s)) s).
Proof.
  intros [H [[Hnd Hlt] Hl]]. split; [split; [|split]|split; reflexivity].
  - apply store_ok_next_id, H.
  - split; [exact Hnd|]. intros p Hp. specialize (Hlt p Hp).
    autorewrite with store. simpl in *. lia.
  - exact Hl.
Qed.

Lemma keeps_elsewhere (u : ObjectId) (s s' : Store) :
  borrowedMoney s' = borrowedMoney s -> payments s' = payments s ->
  next_id s <= next_id s' ->
  inv s -> keeps u s s'.
Proof.
  intros Hb Hp Hn [H [[Hnd Hlt] Hl]]. split; [split; [|split]|].
  - exact (store_ok_elsewhere s s' Hb Hp Hn H).
  - unfold ids_ok. rewrite Hp. split; [exact Hnd|].
    intros p Hin. specialize (Hlt p Hin). lia.
  - unfold linked, refs, owners. rewrite Hb, Hp. exact Hl.
  - unfold untouched. rewrite Hb, Hp. split; reflexivity.
Qed.

Lemma keeps_payment_added (u : ObjectId) (s : Store) (p : Payment.t) :
  Payment._id p = next_id s ->
  Payment.user_id p = u ->
  (Payment.type p = Payment.borrowed -> In (Payment.reference_id p, u) (owners s)) ->
  inv s ->
  keeps u s (with_payments (fun l => (l ++ [p])%list) (with_next_id (S (next_id s)) s)).
Proof.
  intros Hid Hu Href [H [[Hnd Hlt] Hl]]. split; [split; [|split]|].
  - apply store_ok_payment_added; [|apply store_ok_next_id, H].
    rewrite Hu. exact Href.
  - unfold ids_ok. autorewrite with store. simpl payments. split.
    + rewrite map_app. simpl. apply NoDup_app; [exact Hnd | repeat constructor; auto |].
      intros i Hi [<-|[]]. apply in_map_iff in Hi. destruct Hi as [x [Hx Hin]].
      specialize (Hlt x Hin). lia.
    + intros x Hx. apply in_app_or in Hx. destruct Hx as [Hx|[<-|[]]].
      * specialize (Hlt x Hx). lia.
      * lia.
  - intros ref v Hin. unfold refs in Hin. simpl payments in Hin.
    rewrite map_app in Hin. apply in_app_or in Hin. destruct Hin as [Hin|[E|[]]].
    + exact (Hl ref v Hin).
    + unfold ref_key in E. injection E as Ek Er Ev. subst ref v.
      rewrite Hu. exact (Href Ek).
  - split; [reflexivity|]. simpl payments. unfold others_payments.
    rewrite filter_app. simpl. rewrite Hu, Nat.eqb_refl. simpl.
    apply app_nil_r.
Qed.

Lemma keeps_payment_updated (u pid : ObjectId) (upd : Payment.Update) (s : Store) :
  inv s ->
  keeps u s (with_payments (update_first (payment_owned pid u) (Payment.apply_update upd)) s).
Proof.
  intros [H [[Hnd Hlt] Hl]]. split; [split; [|split]|].
  - apply store_ok_payment_updated, H.
  - unfold ids_ok. autorewrite with store. simpl payments. split.
    + rewrite map_update_first by reflexivity. exact Hnd.
    + intros x Hx. apply in_update_first in Hx.
      destruct Hx as [Hx | [y [Hy ->]]]; [exact (Hlt x Hx) | exact (Hlt y Hy)].
  - unfold linked, refs. simpl payments. rewrite refs_update_first. exact Hl.
  - split; [reflexivity|]. simpl payments. unfold others_payments.
    apply filter_update_first. intros x _ Hx. unfold payment_owned in Hx.
    apply andb_true_iff in Hx. destruct Hx as [_ Hx]. simpl. rewrite Hx. auto.
Qed.

Lemma keeps_payment_deleted (u pid : ObjectId) (s : Store) (p : Payment.t) :
  findOne (payment_owned pid u) (payments s) = Some p ->
  inv s ->
  keeps u s (with_payments (delete_first (payment_by_id pid)) s).
Proof.
  intros Hp [H [[Hnd Hlt] Hl]]. split; [split; [|split]|].
  - apply store_ok_payment_deleted, H.
  - unfold ids_ok. autorewrite with store. simpl payments. split.
    + apply NoDup_map_delete_first, Hnd.
    + intros x Hx. apply in_delete_first in Hx. exact (Hlt x Hx).
  - intros ref v Hin. apply (Hl ref v).
    exact (incl_map_delete_first ref_key _ (payments s) _ Hin).
  - split; [reflexivity|]. simpl payments. unfold others_payments.
    apply filter_delete_first. intros x Hx Hid.
    apply find_some in Hp. destruct Hp as [Hin Hp].
    unfold payment_owned in Hp. apply andb_true_iff in Hp. destruct Hp as [Hi Hu].
    unfold payment_by_id in Hid. apply Nat.eqb_eq in Hid, Hi.
    assert (x = p) as -> by (apply (NoDup_map_eq Payment._id (payments s)); congruence).
    rewrite Hu. reflexivity.
Qed.

Lemma keeps_borrowed_added (u : ObjectId) (s : Store) (b : BorrowedMoney.t) :
  BorrowedMoney._id b = next_id s ->
  BorrowedMoney.user_id b = u ->
  inv s ->
  keeps u s (with_borrowedMoney (fun l => (l ++ [b])%list)
               (with_next_id (S (next_id s)) s)).
Proof.
  intros Hid Hu [H [[Hnd Hlt] Hl]]. split; [split; [|split]|].
  - apply store_ok_borrowed_added; assumption.
  - unfold ids_ok. autorewrite with store. simpl payments. split; [exact Hnd|].
    intros x Hx. specialize (Hlt x Hx). lia.
  - intros ref v Hin. unfold owners. simpl borrowedMoney. rewrite map_app.
    apply in_or_app. left. exact (Hl ref v Hin).
  - split; [|reflexivity]. simpl borrowedMoney. unfold others_records.
    rewrite filter_app. simpl. rewrite Hu, Nat.eqb_refl. simpl.
    apply app_nil_r.
Qed.

Lemma keeps_borrowed_updated (u rid : ObjectId) (upd : BorrowedMoney.Update) (s : Store) :
  inv s ->
  keeps u s (with_borrowedMoney
               (update_first (borrowed_owned rid u) (BorrowedMoney.apply_update upd)) s).
Proof.
  intros [H [Hids Hl]]. split; [split; [|split]|].
  - apply store_ok_borrowed_updated, H.
  - exact Hids.
  - unfold linked, owners. simpl borrowedMoney. rewrite owners_update_first. exact Hl.
  - split; [|reflexivity]. simpl borrowedMoney. unfold others_records.
    apply filter_update_first. intros x _ Hx. unfold borrowed_owned in Hx.
    apply andb_true_iff in Hx. destruct Hx as [_ Hx]. simpl. rewrite Hx. auto.
Qed.

Lemma sole_owner_by_id (rid u : ObjectId) (s : Store) (x : BorrowedMoney.t) :
  sole_owner rid u s -> In x (borrowedMoney s) -> borrowed_by_id rid x = true ->
  negb (BorrowedMoney.user_id x =? u) = false.
Proof.
  intros Hsole Hx Hid. unfold borrowed_by_id in Hid. apply Nat.eqb_eq in Hid.
  rewrite (Hsole (BorrowedMoney.user_id x)), Nat.eqb_refl; [reflexivity|].
  unfold owners. apply in_map_iff. exists x. unfold owner_key. rewrite Hid. auto.
Qed.

Lemma keeps_borrowed_updated_by_id (u rid : ObjectId) (upd : BorrowedMoney.Update)
    (s : Store) :
  sole_owner rid u s ->
  inv s ->
  keeps u s (with_borrowedMoney
               (update_first (borrowed_by_id rid) (BorrowedMoney.apply_update upd)) s).
Proof.
  intros Hsole [H [Hids Hl]]. split; [split; [|split]|].
  - apply store_ok_borrowed_updated, H.
  - exact Hids.
  - unfold linked, owners. simpl borrowedMoney. rewrite owners_update_first. exact Hl.
  - split; [|reflexivity]. simpl borrowedMoney. unfold others_records.
    apply filter_update_first. intros x Hx Hid.
    pose proof (sole_owner_by_id rid u s x Hsole Hx Hid) as E. simpl. auto.
Qed.

Lemma in_delete_first_other {A : Type} (p : A -> bool) (l : list A) (y : A) :
  In y l -> p y = false -> In y (delete_first p l).
Proof.
  induction l as [|x r IH]; simpl; [tauto|].
  intros [<-|H] Hy.
  - rewrite Hy. left. reflexivity.
  - destruct (p x); [exact H | right; exact (IH H Hy)].
Qed.

Lemma keeps_borrowed_deleted (u rid : ObjectId) (s : Store) :
  sole_owner rid u s ->
  existsb (repayment_of u rid) (payments s) = false ->
  inv s ->
  keeps u s (with_borrowedMoney (delete_first (borrowed_by_id rid)) s).
Proof.
  intros Hsole Hnone [H [Hids Hl]]. split; [split; [|split]|].
  - apply store_ok_borrowed_deleted, H.
  - exact Hids.
  - intros ref v Hin. change (refs (with_borrowedMoney _ s)) with (refs s) in Hin.
    pose proof (Hl ref v Hin) as Hown.
    unfold owners in *. simpl borrowedMoney.
    apply in_map_iff in Hown. destruct Hown as [b [Hk Hb]].
    apply in_map_iff. exists b. split; [exact Hk|].
    apply in_delete_first_other; [exact Hb|].
    unfold owner_key in Hk. injection Hk as Hi Hv.
    unfold borrowed_by_id. apply Nat.eqb_neq. intro E.
    assert (v = u) as ->.
    { apply Hsole. unfold owners. apply in_map_iff. exists b.
      unfold owner_key. rewrite Hv, <- E, Hi. auto. }
    unfold refs in Hin. apply in_map_iff in Hin. destruct Hin as [p [Hkey Hp]].
    unfold ref_key in Hkey. injection Hkey as Hty Hr Hu.
    assert (existsb (repayment_of u rid) (payments s) = true) as Hex.
    { apply existsb_exists. exists p. split; [exact Hp|].
      unfold repayment_of. rewrite Hty, Hr, Hu, <- E, Hi, !Nat.eqb_refl. reflexivity. }
    congruence.
  - split; [|reflexivity]. simpl borrowedMoney. unfold others_records.
    apply filter_delete_first. intros x Hx Hid.
    exact (sole_owner_by_id rid u s x Hsole Hx Hid).
Qed.

Lemma owned_sole_owner (rid u : ObjectId) (s : Store) (b : BorrowedMoney.t) :
  store_ok s ->
  findOne (borrowed_owned rid u) (borrowedMoney s) = Some b ->
  sole_owner rid u s.
Proof.
  intros [Hnd _] Hb u' Hu'.
  exact (NoDup_fst_unique (owners s) rid u' u Hnd Hu' (owned_in_owners rid u s b Hb)).
Qed.

Lemma referenced_sole_owner (ref u : ObjectId) (s : Store) (p : Payment.t) :
  store_ok s ->
  In p (payments s) -> Payment.type p = Payment.borrowed ->
  Payment.reference_id p = ref -> Payment.user_id p = u ->
  sole_owner ref u s.
Proof.
  intros [_ [_ Hrefs]] Hin Hk Hr Hu.
  apply (proj2 (A := ref < next_id s)).
  apply (Hrefs ref u). unfold refs. apply in_map_iff. exists p.
  unfold ref_key. rewrite Hk, Hr, Hu. auto.
Qed.

Lemma keeps_findByIdAndUpdate (u rid : ObjectId) (upd : BorrowedMoney.Update) (s : Store) :
  sole_owner rid u s -> inv s ->
  keeps u s (fst (findByIdAndUpdate_borrowed rid upd s)).
Proof.
  intros Hsole H. unfold findByIdAndUpdate_borrowed.
  destruct (findOne _ _); simpl fst.
  - apply keeps_borrowed_updated_by_id; assumption.
  - apply keeps_refl, H.
Qed.

Lemma keeps_recompute_repaid (u ref : ObjectId) (s : Store) :
  sole_owner ref u s -> inv s ->
  keeps u s (fst (recompute_repaid u ref s)).
Proof.
  intros Hsole H. unfold recompute_repaid. run_handler.
  destruct (findOne _ _) as [b|]; [|apply keeps_refl, H].
  match goal with
  | |- context [findByIdAndUpdate_borrowed ?i ?upd ?st] =>
      pose proof (keeps_findByIdAndUpdate u i upd st Hsole H) as Hs;
      destruct (findByIdAndUpdate_borrowed i upd st) as [s2 [a|r|]]
  end; exact Hs.
Qed.

(** *** Every route keeps to the caller *)

Ltac leaves_ledger :=
  repeat first
    [ apply elsewhere_bind; [|intro]
    | apply elsewhere_reject_if
    | apply elsewhere_read
    | apply elsewhere_newObjectId
    | apply elsewhere_write_expenses
    | apply elsewhere_write_categories
    | apply (elsewhere_pure (Next _))
    | apply (elsewhere_pure (Sent _))
    | apply (elsewhere_pure Thrown)
    | match goal with
      | |- elsewhere (match ?x with _ => _ end) => destruct x
      end ].

Lemma keeps_elsewhere_route (u : ObjectId) (h : Handler Response) (e : Response)
    (s : Store) :
  elsewhere h -> inv s -> keeps u s (fst (try_catch h e s)).
Proof.
  intros Hh H. destruct (Hh s) as [Hb [Hp Hn]].
  apply (keeps_elsewhere u s); [| | |exact H];
    unfold try_catch; destruct (h s) as [s1 [a|r|]]; assumption.
Qed.

Section Isolation.

Variable castObjectId : string -> option ObjectId.
Variable RegExp_i : string -> option (string -> bool).

Lemma keeps_post_borrowed_money (u : ObjectId) (body : BorrowedMoneyBody.t) (s : Store) :
  inv s -> keeps u s (fst (post_borrowed_money u body s)).
Proof.
  intro H. unfold post_borrowed_money. run_handler.
  destruct (BorrowedMoney.create _ _ _ _ _ _ _) as [doc|] eqn:Ec; simpl fst.
  - destruct (create_loan_fields _ _ _ _ _ _ _ _ Ec) as (Hi & Hu & Hst & Hr & _ & Ha & _).
    rewrite (pre_save_fresh doc Hst Hr Ha).
    apply keeps_borrowed_added; assumption.
  - apply keeps_next_id, H.
Qed.

Lemma keeps_put_borrowed_money (u : ObjectId) (id : string)
    (body : BorrowedMoneyBody.t) (s : Store) :
  inv s -> keeps u s (fst (put_borrowed_money castObjectId u id body s)).
Proof.
  intro H. unfold put_borrowed_money. run_handler.
  destruct (castObjectId id) as [rid|]; [|apply keeps_refl, H].
  destruct (negb _); [apply keeps_refl, H|].
  destruct (findOne _ _); simpl fst; [|apply keeps_refl, H].
  apply keeps_borrowed_updated, H.
Qed.

Lemma keeps_delete_borrowed_money (u : ObjectId) (id : string) (s : Store) :
  inv s -> keeps u s (fst (delete_borrowed_money castObjectId u id s)).
Proof.
  intro H. unfold delete_borrowed_money. run_handler.
  destruct (castObjectId id) as [rid|]; [|apply keeps_refl, H].
  destruct (findOne _ _) as [b|] eqn:Hb; [|apply keeps_refl, H].
  destruct (existsb _ _) eqn:Hnone; simpl fst; [apply keeps_refl, H|].
  apply keeps_borrowed_deleted; [|exact Hnone|exact H].
  exact (owned_sole_owner rid u s b (proj1 H) Hb).
Qed.

Lemma sole_owner_same_owners (rid u : ObjectId) (s s' : Store) :
  owners s' = owners s -> sole_owner rid u s -> sole_owner rid u s'.
Proof. unfold sole_owner. intros ->. auto. Qed.

Lemma keeps_post_borrowed_money_repay (u : ObjectId) (id : string)
    (body : RepayBody.t) (s : Store) :
  inv s -> keeps u s (fst (post_borrowed_money_repay castObjectId u id body s)).
Proof.
  intro H. unfold post_borrowed_money_repay. run_handler.
  destruct (positive_amount _) as [amount|]; [|apply keeps_refl, H].
  destruct (RepayBody.payment_date body) as [d|]; [|apply keeps_refl, H].
  destruct (castObjectId id) as [rid|]; [|apply keeps_refl, H].
  destruct (findOne (borrowed_owned rid u) (borrowedMoney s)) as [b|] eqn:Hb;
    [|apply keeps_refl, H].
  destruct (Qltb _ amount); [apply keeps_refl, H|].
  destruct (Payment.create _ _ _ _ _ _ _ _) as [payment|] eqn:Ec; simpl fst;
    [|apply keeps_next_id, H].
  apply Payment_create_amount in Ec. destruct Ec as (_ & _ & Hr & Hu & Hi).
  assert (keeps u s (with_payments (fun l => (l ++ [payment])%list)
                       (with_next_id (S (next_id s)) s))) as H1.
  { apply keeps_payment_added; try assumption. intros _.
    rewrite Hr. exact (owned_in_owners _ _ _ _ Hb). }
  destruct (negb _); [exact H1|].
  apply (keeps_trans u s _ _ H1).
  match goal with
  | |- context [findByIdAndUpdate_borrowed ?i ?upd ?st] =>
      assert (keeps u st (fst (findByIdAndUpdate_borrowed i upd st))) as Hs;
      [ apply keeps_findByIdAndUpdate; [|exact (proj1 H1)];
        apply (sole_owner_same_owners rid u s); [reflexivity|];
        exact (owned_sole_owner rid u s b (proj1 H) Hb)
      | destruct (findByIdAndUpdate_borrowed i upd st) as [s2 [[a|]|r|]] ]
  end; exact Hs.
Qed.

Lemma keeps_post_payments (u : ObjectId) (now : Z) (body : PaymentBody.t) (s : Store) :
  inv s -> keeps u s (fst (post_payments castObjectId u now body s)).
Proof.
  intro H. unfold post_payments. run_handler.
  destruct (cast_field castObjectId (PaymentBody.reference_id body)) as [ref|];
    [|apply keeps_refl, H].
  destruct (is_str (PaymentBody.type body) "credit_card").
  - destruct (findOne _ _); [|apply keeps_refl, H].
    destruct (Payment.create _ _ _ _ _ _ _ _) as [payment|] eqn:Ec; simpl fst;
      [|apply keeps_next_id, H].
    apply Payment_create_amount in Ec. destruct Ec as (_ & Hk & Hr & Hu & Hi).
    apply keeps_payment_added; try assumption. congruence.
  - destruct (is_str (PaymentBody.type body) "borrowed"); [|apply keeps_refl, H].
    destruct (findOne (borrowed_owned ref u) (borrowedMoney s)) as [b0|] eqn:Hb0;
      [|apply keeps_refl, H].
    destruct (Payment.create _ _ _ _ _ _ _ _) as [payment|] eqn:Ec; simpl fst;
      [|apply keeps_next_id, H].
    apply Payment_create_amount in Ec. destruct Ec as (_ & _ & Hr & Hu & Hi).
    assert (keeps u s (with_payments (fun l => (l ++ [payment])%list)
                         (with_next_id (S (next_id s)) s))) as H1.
    { apply keeps_payment_added; try assumption. intros _.
      rewrite Hr. exact (owned_in_owners _ _ _ _ Hb0). }
    autorewrite with store.
    destruct (findOne (borrowed_by_id ref) (borrowedMoney s)) as [b|]; [|exact H1].
    apply (keeps_trans u s _ _ H1).
    match goal with
    | |- context [findByIdAndUpdate_borrowed ?i ?upd ?st] =>
        assert (keeps u st (fst (findByIdAndUpdate_borrowed i upd st))) as Hs;
        [ apply keeps_findByIdAndUpdate; [|exact (proj1 H1)];
          apply (sole_owner_same_owners ref u s); [reflexivity|];
          exact (owned_sole_owner ref u s b0 (proj1 H) Hb0)
        | destruct (findByIdAndUpdate_borrowed i upd st) as [s2 [a|r|]] ]
    end; exact Hs.
Qed.

Lemma keeps_put_payments (u : ObjectId) (id : string) (body : PaymentBody.t)
    (s : Store) :
  inv s -> keeps u s (fst (put_payments castObjectId u id body s)).
Proof.
  intro H. unfold put_payments. run_handler.
  destruct (castObjectId id) as [pid|]; [|apply keeps_refl, H].
  destruct (negb _); [apply keeps_refl, H|].
  destruct (findOne _ _) as [old|] eqn:Hold; [|apply keeps_refl, H].
  match goal with
  | |- context [with_payments (update_first ?p (Payment.apply_update ?upd)) s] =>
      pose proof (keeps_payment_updated u pid upd s H) as H1
  end.
  destruct (Payment.type _) eqn:Ek; [exact H1|].
  apply (keeps_trans u s _ _ H1).
  destruct (payment_owned_user _ _ _ _ Hold) as [Hin Hu].
  match goal with
  | |- context [recompute_repaid ?v ?i ?st] =>
      assert (keeps u st (fst (recompute_repaid v i st))) as Hrec;
      [ apply keeps_recompute_repaid; [|exact (proj1 H1)];
        apply (sole_owner_same_owners i u s); [reflexivity|];
        exact (referenced_sole_owner i u s old (proj1 H) Hin Ek eq_refl Hu)
      | destruct (recompute_repaid v i st) as [s2 [[]|r|]] ]
  end; exact Hrec.
Qed.

Lemma keeps_delete_payments (u : ObjectId) (id : string) (s : Store) :
  inv s -> keeps u s (fst (delete_payments castObjectId u id s)).
Proof.
  intro H. unfold delete_payments. run_handler.
  destruct (castObjectId id) as [pid|]; [|apply keeps_refl, H].
  destruct (findOne _ _) as [payment|] eqn:Hp; [|apply keeps_refl, H].
  pose proof (keeps_payment_deleted u pid s payment Hp H) as H1.
  destruct (Payment.type _) eqn:Ek; [exact H1|].
  apply (keeps_trans u s _ _ H1).
  destruct (payment_owned_user _ _ _ _ Hp) as [Hin Hu].
  match goal with
  | |- context [recompute_repaid ?v ?i ?st] =>
      assert (keeps u st (fst (recompute_repaid v i st))) as Hrec;
      [ apply keeps_recompute_repaid; [|exact (proj1 H1)];
        apply (sole_owner_same_owners i u s); [reflexivity|];
        exact (referenced_sole_owner i u s payment (proj1 H) Hin Ek eq_refl Hu)
      | destruct (recompute_repaid v i st) as [s2 [[]|r|]] ]
  end; exact Hrec.
Qed.

Lemma keeps_post_expenses (u : ObjectId) (now : Z) (body : ExpenseBody.t) (s : Store) :
  inv s -> keeps u s (fst (post_expenses castObjectId u now body s)).
Proof.
  apply keeps_elsewhere_route.
  unfold check_category, check_credit_card, check_borrowed, check_reference.
  leaves_ledger.
Qed.

Lemma keeps_put_expenses (u : ObjectId) (id : string) (body : ExpenseBody.t) (s : Store) :
  inv s -> keeps u s (fst (put_expenses castObjectId u id body s)).
Proof.
  apply keeps_elsewhere_route.
  unfold check_category, check_credit_card, check_borrowed, check_reference.
  leaves_ledger.
Qed.

Lemma keeps_post_categories (u : ObjectId) (body : CategoryBody.t) (s : Store) :
  inv s -> keeps u s (fst (post_categories RegExp_i u body s)).
Proof.
  apply keeps_elsewhere_route. leaves_ledger.
Qed.

(** One request of the user [u] served. *)
Inductive request_by (u : ObjectId) (s : Store) : Store -> Prop :=
| req_post_borrowed_money body :
    request_by u s (fst (post_borrowed_money u body s))
| req_put_borrowed_money id body :
    request_by u s (fst (put_borrowed_money castObjectId u id body s))
| req_repay id body :
    request_by u s (fst (post_borrowed_money_repay castObjectId u id body s))
| req_delete_borrowed_money id :
    request_by u s (fst (delete_borrowed_money castObjectId u id s))
| req_post_payments now body :
    request_by u s (fst (post_payments castObjectId u now body s))
| req_put_payments id body :
    request_by u s (fst (put_payments castObjectId u id body s))
| req_delete_payments id :
    request_by u s (fst (delete_payments castObjectId u id s))
| req_post_expenses now body :
    request_by u s (fst (post_expenses castObjectId u now body s))
| req_put_expenses id body :
    request_by u s (fst (put_expenses castObjectId u id body s))
| req_post_categories body :
    request_by u s (fst (post_categories RegExp_i u body s)).

Lemma request_keeps (u : ObjectId) (s s' : Store) :
  request_by u s s' -> inv s -> keeps u s s'.
Proof.
  intros [body | id body | id body | id | now body | id body | id | now body
         | id body | body] H.
  - apply keeps_post_borrowed_money, H.
  - apply keeps_put_borrowed_money, H.
  - apply keeps_post_borrowed_money_repay, H.
  - apply keeps_delete_borrowed_money, H.
  - apply keeps_post_payments, H.
  - apply keeps_put_payments, H.
  - apply keeps_delete_payments, H.
  - apply keeps_post_expenses, H.
  - apply keeps_put_expenses, H.
  - apply keeps_post_categories, H.
Qed.

Lemma served_inv (s s' : Store) :
  served castObjectId RegExp_i s s' -> inv s -> inv s'.
Proof.
  intros [user body | user id body | user id body | user id | user now body
         | user id body | user id | user now body | user id body | user body
         | s1 Hb Hp Hn] H.
  - apply (request_keeps user s), H. constructor.
  - apply (request_keeps user s), H. constructor.
  - apply (request_keeps user s), H. constructor.
  - apply (request_keeps user s), H. constructor.
  - apply (request_keeps user s), H. constructor.
  - apply (request_keeps user s), H. constructor.
  - apply (request_keeps user s), H. constructor.
  - apply (request_keeps user s), H. constructor.
  - apply (request_keeps user s), H. constructor.
  - apply (request_keeps user s), H. constructor.
  - exact (proj1 (keeps_elsewhere 0 s s1 Hb Hp Hn H)).
Qed.

Lemma reachable_inv (s : Store) : reachable castObjectId RegExp_i s -> inv s.
Proof.
  intro R. induction R as [|s s' R IH Hs].
  - split; [|split; [split; simpl; [constructor | intros p []] | intros ref u []]].
    repeat split; simpl; try constructor; intros; contradiction.
  - exact (served_inv s s' Hs IH).
Qed.

(** X7. In a store the service has reached, a request of one user, through
    any of the routes above, leaves the borrowed-money records and the
    payments of every other user exactly as they were, although the
    routes update and delete records and payments by id alone. *)
Theorem other_users_untouched (s s' : Store) (u : ObjectId) :
  reachable castObjectId RegExp_i s ->
  request_by u s s' ->
  others_records u (borrowedMoney s') = others_records u (borrowedMoney s)
  /\ others_payments u (payments s') = others_payments u (payments s).
Proof.
  intros R Hreq. exact (proj2 (request_keeps u s s' Hreq (reachable_inv s R))).
Qed.

End Isolation.

(** X7, witness: user 8 asks to delete payment 1, which is user 7's; the
    record and the payment of user 7 stay. *)
Lemma other_users_untouched_witness :
  others_records 8 (borrowedMoney (fst (delete_payments demo_cast 8 "p1" loan_repaid_400)))
  = others_records 8 (borrowedMoney loan_repaid_400)
  /\ others_payments 8 (payments (fst (delete_payments demo_cast 8 "p1" loan_repaid_400)))
     = others_payments 8 (payments loan_repaid_400).
Proof.
  exact (other_users_untouched demo_cast demo_regexp loan_repaid_400
           (fst (delete_payments demo_cast 8 "p1" loan_repaid_400)) 8
           loan_repaid_400_reachable
           (req_delete_payments demo_cast demo_regexp 8 loan_repaid_400 "p1")).
Defined.

(** ** No repayment is left without its record *)

Section Integrity.

Variable castObjectId : string -> option ObjectId.
Variable RegExp_i : string -> option (string -> bool).

(** X8. In every store the service reaches, each payment of type
    ['borrowed'] references a borrowed-money record that exists and belongs
    to the payment's user: payments are only recorded against the caller's
    records, and a record is deleted only when the caller has no payment
    against it. *)
Theorem repayments_keep_their_record (s : Store) (p : Payment.t) :
  reachable castObjectId RegExp_i s ->
  In p (payments s) ->
  Payment.type p = Payment.borrowed ->
  exists b,
    findOne (borrowed_by_id (Payment.reference_id p)) (borrowedMoney s) = Some b
    /\ BorrowedMoney.user_id b = Payment.user_id p.
Proof.
  intros R Hp Hk.
  destruct (reachable_inv castObjectId RegExp_i s R) as [[Hnd _] [_ Hl]].
  assert (In (Payment.reference_id p, Payment.user_id p) (owners s)) as Hown.
  { apply Hl. unfold refs. apply in_map_iff. exists p.
    unfold ref_key. rewrite Hk. auto. }
  pose proof Hown as Hown'. unfold owners in Hown'. apply in_map_iff in Hown'.
  destruct Hown' as [b0 [Hkey Hb0]]. unfold owner_key in Hkey. injection Hkey as Hi Hu.
  destruct (find_exists (borrowed_by_id (Payment.reference_id p)) (borrowedMoney s) b0 Hb0)
    as [b Hb].
  { unfold borrowed_by_id. apply Nat.eqb_eq. exact Hi. }
  exists b. split; [exact Hb|].
  apply find_some in Hb. destruct Hb as [Hin Hid].
  unfold borrowed_by_id in Hid. apply Nat.eqb_eq in Hid.
  apply (NoDup_fst_unique (owners s) (Payment.reference_id p) _ _ Hnd); [|exact Hown].
  unfold owners. apply in_map_iff. exists b. unfold owner_key. rewrite Hid. auto.
Qed.

End Integrity.

(** X8, witness: the repayment of 400 and the loan of user 7. *)
Lemma repayments_keep_their_record_witness :
  exists b,
    findOne (borrowed_by_id 0) (borrowedMoney loan_repaid_400) = Some b
    /\ BorrowedMoney.user_id b = 7.
Proof.
  exact (repayments_keep_their_record demo_cast demo_regexp loan_repaid_400
           {| Payment._id := 1; Payment.user_id := 7; Payment.type := Payment.borrowed;
              Payment.reference_id := 0; Payment.amount := 400;
              Payment.payment_date := 5%Z; Payment.note := Some "Repayment for Asha";
              Payment.payment_method := "cash" |}
           loan_repaid_400_reachable (or_introl eq_refl) eq_refl).
Defined.

(** ** The schema's minimums hold in every store the routes reach *)

(** The [min] validators of the two schemas, as they read on a stored
    document: a principal of at least 0.01 and a repaid amount that is not
    negative; a payment of at least 0.01. *)
Definition record_sound (b : BorrowedMoney.t) : Prop :=
  (1 # 100 <= BorrowedMoney.amount b)%Q /\ (0 <= BorrowedMoney.repaid_amount b)%Q.

Definition payment_sound (p : Payment.t) : Prop := (1 # 100 <= Payment.amount p)%Q.

Definition amounts_ok (s : Store) : Prop :=
  Forall record_sound (borrowedMoney s) /\ Forall payment_sound (payments s).

(** An update that sets an amount or a repaid amount sets a valid one. *)
Definition update_sound (u : BorrowedMoney.Update) : Prop :=
  (forall a, BorrowedMoney.set_amount u = Some a -> (1 # 100 <= a)%Q)
  /\ (forall r, BorrowedMoney.set_repaid_amount u = Some r -> (0 <= r)%Q).

Lemma Forall_update_first {A : Type} (P : A -> Prop) (p : A -> bool) (f : A -> A)
    (l : list A) :
  (forall x, P x -> P (f x)) -> Forall P l -> Forall P (update_first p f l).
Proof.
  intros Hf H. induction H as [|x r Hx Hr IH]; simpl; [constructor|].
  destruct (p x); constructor; auto.
Qed.

Lemma Forall_delete_first {A : Type} (P : A -> Prop) (p : A -> bool) (l : list A) :
  Forall P l -> Forall P (delete_first p l).
Proof.
  intro H. induction H as [|x r Hx Hr IH]; simpl; [constructor|].
  destruct (p x); [exact Hr | constructor; assumption].
Qed.

Lemma Forall_added {A : Type} (P : A -> Prop) (l : list A) (x : A) :
  P x -> Forall P l -> Forall P (l ++ [x])%list.
Proof. intros Hx H. apply Forall_app. split; [exact H | repeat constructor; exact Hx]. Qed.

Lemma apply_update_sound (u : BorrowedMoney.Update) (b : BorrowedMoney.t) :
  update_sound u -> record_sound b -> record_sound (BorrowedMoney.apply_update u b).
Proof.
  intros [Ha Hr] [Hb1 Hb2]. unfold record_sound. simpl.
  destruct (BorrowedMoney.set_amount u) as [a|];
    destruct (BorrowedMoney.set_repaid_amount u) as [r|]; simpl; split; auto.
Qed.

Lemma update_valid_sound (u : BorrowedMoney.Update) :
  BorrowedMoney.update_valid u = true -> update_sound u.
Proof.
  unfold BorrowedMoney.update_valid. rewrite !andb_true_iff.
  intros [[[[[_ _] Ha] _] _] Hr]. split.
  - intros a E. rewrite E in Ha. unfold amount_ok in Ha. Qbools. exact Ha.
  - intros r E. rewrite E in Hr. Qbools. exact Hr.
Qed.

Lemma set_repaid_sound (r : Q) : (0 <= r)%Q -> update_sound (BorrowedMoney.set_repaid r).
Proof.
  intro H. split; simpl; [discriminate|]. intros r' E. injection E as <-. exact H.
Qed.

Lemma payment_update_sound (u : Payment.Update) (p : Payment.t) :
  Payment.update_valid u = true -> payment_sound p ->
  payment_sound (Payment.apply_update u p).
Proof.
  unfold Payment.update_valid, payment_sound. rewrite !andb_true_iff.
  intros [[Ha _] _] Hp. simpl.
  destruct (Payment.set_amount u) as [a|]; simpl; [|exact Hp].
  unfold amount_ok in Ha. Qbools. exact Ha.
Qed.

Lemma Payment_create_sound (id user ref : ObjectId) (k : Payment.Kind) (a : option Q)
    (d : Z) (n m : option string) (p : Payment.t) :
  Payment.create id user k ref a d n m = Some p -> payment_sound p.
Proof.
  unfold Payment.create. destruct a as [q|]; [|discriminate].
  destruct (_ && _) eqn:E; [|discriminate].
  rewrite !andb_true_iff in E. destruct E as [[E _] _]. unfold amount_ok in E. Qbools.
  intro H. injection H as <-. exact E.
Qed.

Lemma sum_from_nonneg (l : list Payment.t) (acc : Q) :
  Forall payment_sound l -> (0 <= acc)%Q ->
  (0 <= fold_left (fun acc p => (acc + Payment.amount p)%Q) l acc)%Q.
Proof.
  intro H. revert acc. induction H as [|p r Hp Hr IH]; simpl; intros acc Hacc;
    [exact Hacc|].
  apply IH. unfold payment_sound in Hp. lra.
Qed.

Lemma total_or_zero_nonneg (user ref : ObjectId) (l : list Payment.t) :
  Forall payment_sound l -> (0 <= total_or_zero (aggregate_total user ref l))%Q.
Proof.
  intro H. unfold aggregate_total.
  assert (Forall payment_sound (filter (repayment_of user ref) l)) as Hf.
  { apply Forall_forall. intros x Hx. apply filter_In in Hx.
    rewrite Forall_forall in H. apply H, Hx. }
  destruct (filter (repayment_of user ref) l) as [|p r] eqn:E; simpl; [lra|].
  destruct (Qeq_bool _ 0); [lra|].
  apply (sum_from_nonneg (p :: r) 0 Hf). lra.
Qed.

Lemma amounts_ok_findByIdAndUpdate (id : ObjectId) (u : BorrowedMoney.Update) (s : Store) :
  update_sound u -> amounts_ok s -> amounts_ok (fst (findByIdAndUpdate_borrowed id u s)).
Proof.
  intros Hu [Hb Hp]. unfold findByIdAndUpdate_borrowed.
  destruct (findOne _ _); simpl; [|split; assumption].
  split; [|exact Hp]. apply Forall_update_first; [|exact Hb].
  intro x. apply apply_update_sound, Hu.
Qed.

Lemma found_sound (p : BorrowedMoney.t -> bool) (s : Store) (b : BorrowedMoney.t) :
  amounts_ok s -> findOne p (borrowedMoney s) = Some b -> record_sound b.
Proof.
  intros [Hb _] H. apply find_some in H. rewrite Forall_forall in Hb. apply Hb, H.
Qed.

Lemma amounts_ok_recompute_repaid (user ref : ObjectId) (s : Store) :
  amounts_ok s -> amounts_ok (fst (recompute_repaid user ref s)).
Proof.
  intro H. unfold recompute_repaid. run_handler.
  destruct (findOne _ _) as [b|] eqn:Hb; [|exact H].
  match goal with
  | |- context [findByIdAndUpdate_borrowed ?i ?u ?st] =>
      assert (amounts_ok (fst (findByIdAndUpdate_borrowed i u st))) as Hs;
      [ apply amounts_ok_findByIdAndUpdate; [|exact H]
      | destruct (findByIdAndUpdate_borrowed i u st) as [s2 [a|r|]]; exact Hs ]
  end.
  apply set_repaid_sound. apply Q.min_glb.
  - apply total_or_zero_nonneg, H.
  - destruct (found_sound _ _ _ H Hb) as [Ha _]. lra.
Qed.

Lemma amounts_ok_elsewhere (s s' : Store) :
  borrowedMoney s' = borrowedMoney s -> payments s' = payments s ->
  amounts_ok s -> amounts_ok s'.
Proof. unfold amounts_ok. intros -> ->. auto. Qed.

Section SoundAmounts.

Variable castObjectId : string -> option ObjectId.
Variable RegExp_i : string -> option (string -> bool).

Lemma amounts_ok_post_borrowed_money (user : ObjectId) (body : BorrowedMoneyBody.t)
    (s : Store) :
  amounts_ok s -> amounts_ok (fst (post_borrowed_money user body s)).
Proof.
  intros [Hb Hp]. unfold post_borrowed_money. run_handler.
  destruct (BorrowedMoney.create _ _ _ _ _ _ _) as [doc|] eqn:Ec; simpl fst;
    [|split; assumption].
  destruct (create_loan_fields _ _ _ _ _ _ _ _ Ec) as (_ & _ & Hst & Hr & _ & Ha & _).
  rewrite (pre_save_fresh doc Hst Hr Ha).
  split; [|exact Hp]. simpl. apply Forall_added; [|exact Hb].
  split; [exact Ha | rewrite Hr; lra].
Qed.

Lemma amounts_ok_put_borrowed_money (user : ObjectId) (id : string)
    (body : BorrowedMoneyBody.t) (s : Store) :
  amounts_ok s -> amounts_ok (fst (put_borrowed_money castObjectId user id body s)).
Proof.
  intros H. unfold put_borrowed_money. run_handler.
  destruct (castObjectId id) as [rid|]; [|exact H].
  destruct (BorrowedMoney.update_valid _) eqn:Ev; [|exact H]. cbn [negb]. cbv beta iota.
  destruct (findOne _ _); simpl fst; [|exact H].
  destruct H as [Hb Hp]. split; [|exact Hp]. simpl.
  apply Forall_update_first; [|exact Hb].
  intro x. apply apply_update_sound, update_valid_sound, Ev.
Qed.

Lemma amounts_ok_delete_borrowed_money (user : ObjectId) (id : string) (s : Store) :
  amounts_ok s -> amounts_ok (fst (delete_borrowed_money castObjectId user id s)).
Proof.
  intros H. unfold delete_borrowed_money. run_handler.
  destruct (castObjectId id) as [rid|]; [|exact H].
  destruct (findOne _ _); [|exact H].
  destruct (existsb _ _); simpl fst; [exact H|].
  destruct H as [Hb Hp]. split; [|exact Hp]. simpl.
  apply Forall_delete_first, Hb.
Qed.

Lemma amounts_ok_payment_added (s : Store) (p : Payment.t) :
  payment_sound p -> amounts_ok s ->
  amounts_ok (with_payments (fun l => (l ++ [p])%list) (with_next_id (S (next_id s)) s)).
Proof.
  intros Hp [Hb Hps]. split; [exact Hb|]. simpl. apply Forall_added; assumption.
Qed.

Lemma amounts_ok_post_borrowed_money_repay (user : ObjectId) (id : string)
    (body : RepayBody.t) (s : Store) :
  amounts_ok s ->
  amounts_ok (fst (post_borrowed_money_repay castObjectId user id body s)).
Proof.
  intro H. unfold post_borrowed_money_repay. run_handler.
  destruct (positive_amount _) as [amount|] eqn:Ea; [|exact H].
  apply positive_amount_Some in Ea. destruct Ea as [_ Hpos].
  destruct (RepayBody.payment_date body) as [d|]; [|exact H].
  destruct (castObjectId id) as [rid|]; [|exact H].
  destruct (findOne (borrowed_owned rid user) (borrowedMoney s)) as [b|] eqn:Hb;
    [|exact H].
  destruct (Qltb _ amount); [exact H|].
  destruct (Payment.create _ _ _ _ _ _ _ _) as [payment|] eqn:Ec; simpl fst; [|exact H].
  pose proof (amounts_ok_payment_added s payment (Payment_create_sound _ _ _ _ _ _ _ _ _ Ec) H)
    as H1.
  destruct (BorrowedMoney.update_valid _) eqn:Ev; [|exact H1]. cbn [negb]. cbv beta iota.
  match goal with
  | |- context [findByIdAndUpdate_borrowed ?i ?u ?st] =>
      assert (amounts_ok (fst (findByIdAndUpdate_borrowed i u st))) as Hs;
      [ apply amounts_ok_findByIdAndUpdate; [exact (update_valid_sound _ Ev)|exact H1]
      | destruct (findByIdAndUpdate_borrowed i u st) as [s2 [[a|]|r|]]; exact Hs ]
  end.
Qed.

Lemma amounts_ok_post_payments (user : ObjectId) (now : Z) (body : PaymentBody.t)
    (s : Store) :
  amounts_ok s -> amounts_ok (fst (post_payments castObjectId user now body s)).
Proof.
  intro H. unfold post_payments. run_handler.
  destruct (cast_field castObjectId (PaymentBody.reference_id body)) as [ref|]; [|exact H].
  destruct (is_str (PaymentBody.type body) "credit_card").
  - destruct (findOne _ _); [|exact H].
    destruct (Payment.create _ _ _ _ _ _ _ _) as [payment|] eqn:Ec; simpl fst; [|exact H].
    exact (amounts_ok_payment_added s payment (Payment_create_sound _ _ _ _ _ _ _ _ _ Ec) H).
  - destruct (is_str (PaymentBody.type body) "borrowed"); [|exact H].
    destruct (findOne (borrowed_owned ref user) (borrowedMoney s)); [|exact H].
    destruct (Payment.create _ _ _ _ _ _ _ _) as [payment|] eqn:Ec; simpl fst; [|exact H].
    pose proof (Payment_create_sound _ _ _ _ _ _ _ _ _ Ec) as Hps.
    pose proof (amounts_ok_payment_added s payment Hps H) as H1.
    autorewrite with store.
    destruct (findOne (borrowed_by_id ref) (borrowedMoney s)) as [b|] eqn:Hb; [|exact H1].
    match goal with
    | |- context [findByIdAndUpdate_borrowed ?i ?u ?st] =>
        assert (amounts_ok (fst (findByIdAndUpdate_borrowed i u st))) as Hs;
        [ apply amounts_ok_findByIdAndUpdate; [|exact H1]
        | destruct (findByIdAndUpdate_borrowed i u st) as [s2 [a|r|]]; exact Hs ]
    end.
    destruct (found_sound _ _ _ H Hb) as [Ha Hr]. unfold payment_sound in Hps.
    apply set_repaid_sound, Q.min_glb; lra.
Qed.

Lemma amounts_ok_put_payments (user : ObjectId) (id : string) (body : PaymentBody.t)
    (s : Store) :
  amounts_ok s -> amounts_ok (fst (put_payments castObjectId user id body s)).
Proof.
  intro H. unfold put_payments. run_handler.
  destruct (castObjectId id) as [pid|]; [|exact H].
  destruct (Payment.update_valid _) eqn:Ev; [|exact H]. cbn [negb]. cbv beta iota.
  destruct (findOne _ _) as [old|]; [|exact H].
  match goal with
  | |- context [with_payments (update_first ?p ?f) s] =>
      assert (amounts_ok (with_payments (update_first p f) s)) as H1
  end.
  { destruct H as [Hb Hp]. split; [exact Hb|]. simpl.
    apply Forall_update_first; [|exact Hp].
    intro x. apply payment_update_sound, Ev. }
  destruct (Payment.type _); [exact H1|].
  match goal with
  | |- context [recompute_repaid ?u ?i ?st] =>
      pose proof (amounts_ok_recompute_repaid u i st H1) as Hrec;
      destruct (recompute_repaid u i st) as [s2 [[]|r|]]
  end; exact Hrec.
Qed.

Lemma amounts_ok_delete_payments (user : ObjectId) (id : string) (s : Store) :
  amounts_ok s -> amounts_ok (fst (delete_payments castObjectId user id s)).
Proof.
  intro H. unfold delete_payments. run_handler.
  destruct (castObjectId id) as [pid|]; [|exact H].
  destruct (findOne _ _) as [payment|]; [|exact H].
  assert (amounts_ok (with_payments (delete_first (payment_by_id pid)) s)) as H1.
  { destruct H as [Hb Hp]. split; [exact Hb|]. simpl. apply Forall_delete_first, Hp. }
  destruct (Payment.type _); [exact H1|].
  match goal with
  | |- context [recompute_repaid ?u ?i ?st] =>
      pose proof (amounts_ok_recompute_repaid u i st H1) as Hrec;
      destruct (recompute_repaid u i st) as [s2 [[]|r|]]
  end; exact Hrec.
Qed.

Lemma amounts_ok_elsewhere_route (h : Handler Response) (e : Response) (s : Store) :
  elsewhere h -> amounts_ok s -> amounts_ok (fst (try_catch h e s)).
Proof.
  intros Hh H. destruct (Hh s) as [Hb [Hp _]].
  apply (amounts_ok_elsewhere s); [| |exact H];
    unfold try_catch; destruct (h s) as [s1 [a|r|]]; assumption.
Qed.

Lemma served_amounts_ok (s s' : Store) :
  served castObjectId RegExp_i s s' -> amounts_ok s -> amounts_ok s'.
Proof.
  intros [user body | user id body | user id body | user id | user now body
         | user id body | user id | user now body | user id body | user body
         | s1 Hb Hp Hn] H.
  - apply amounts_ok_post_borrowed_money, H.
  - apply amounts_ok_put_borrowed_money, H.
  - apply amounts_ok_post_borrowed_money_repay, H.
  - apply amounts_ok_delete_borrowed_money, H.
  - apply amounts_ok_post_payments, H.
  - apply amounts_ok_put_payments, H.
  - apply amounts_ok_delete_payments, H.
  - revert H. apply amounts_ok_elsewhere_route.
    unfold check_category, check_credit_card, check_borrowed, check_reference.
    leaves_ledger.
  - revert H. apply amounts_ok_elsewhere_route.
    unfold check_category, check_credit_card, check_borrowed, check_reference.
    leaves_ledger.
  - revert H. apply amounts_ok_elsewhere_route. leaves_ledger.
  - exact (amounts_ok_elsewhere s s1 Hb Hp H).
Qed.

(** X9. In every store the service reaches, each borrowed-money record has
    a principal of at least 0.01 and a repaid amount that is not negative,
    and each payment has an amount of at least 0.01: the update paths, which
    run no [save] hook, still never store a value below the schema's
    minimums. *)
Theorem stored_amounts_valid (s : Store) :
  reachable castObjectId RegExp_i s ->
  (forall b, In b (borrowedMoney s) ->
             (1 # 100 <= BorrowedMoney.amount b)%Q
             /\ (0 <= BorrowedMoney.repaid_amount b)%Q)
  /\ (forall p, In p (payments s) -> (1 # 100 <= Payment.amount p)%Q).
Proof.
  intro R.
  assert (amounts_ok s) as [Hb Hp].
  { induction R as [|s s' R IH Hs].
    - split; constructor.
    - exact (served_amounts_ok s s' Hs IH). }
  rewrite Forall_forall in Hb, Hp. split; [exact Hb | exact Hp].
Qed.

End SoundAmounts.

(** X9, witness: the loan of 1000 with its repayment of 400. *)
Lemma stored_amounts_valid_witness :
  (forall b, In b (borrowedMoney loan_repaid_400) ->
             (1 # 100 <= BorrowedMoney.amount b)%Q
             /\ (0 <= BorrowedMoney.repaid_amount b)%Q)
  /\ (forall p, In p (payments loan_repaid_400) -> (1 # 100 <= Payment.amount p)%Q).
Proof.
  exact (stored_amounts_valid demo_cast demo_regexp loan_repaid_400
           loan_repaid_400_reachable).
Defined.

(** ** What an update of a payment cannot change *)

(** The paths of a payment that [PUT /api/payments/:id] leaves out of its
    update document. *)
Definition payment_identity (p : Payment.t)
    : ObjectId * ObjectId * Payment.Kind * ObjectId :=
  (Payment._id p, Payment.user_id p, Payment.type p, Payment.reference_id p).

Lemma payments_findByIdAndUpdate (id : ObjectId) (u : BorrowedMoney.Update) (s : Store) :
  payments (fst (findByIdAndUpdate_borrowed id u s)) = payments s.
Proof. unfold findByIdAndUpdate_borrowed. destruct (findOne _ _); reflexivity. Qed.

Lemma payments_recompute_repaid (user ref : ObjectId) (s : Store) :
  payments (fst (recompute_repaid user ref s)) = payments s.
Proof.
  unfold recompute_repaid. run_handler.
  destruct (findOne _ _) as [b|]; [|reflexivity].
  match goal with
  | |- context [findByIdAndUpdate_borrowed ?i ?u ?st] =>
      pose proof (payments_findByIdAndUpdate i u st) as Hs;
      destruct (findByIdAndUpdate_borrowed i u st) as [s2 [a|r|]]
  end; exact Hs.
Qed.

Section PutPayments.

Variable castObjectId : string -> option ObjectId.

(** X10. Whatever the request, [PUT /api/payments/:id] keeps the id, the
    user, the type and the reference of every payment, in the order of the
    collection: a payment is never added, removed, moved to another record
    or card, or handed to another user by an update. *)
Theorem put_payments_keeps_identity (s : Store) (user : ObjectId) (id : string)
    (body : PaymentBody.t) :
  map payment_identity (payments (fst (put_payments castObjectId user id body s)))
  = map payment_identity (payments s).
Proof.
  unfold put_payments. run_handler.
  destruct (castObjectId id) as [pid|]; [|reflexivity].
  destruct (negb _); [reflexivity|].
  destruct (findOne _ _) as [old|]; [|reflexivity].
  match goal with
  | |- context [with_payments (update_first ?p ?f) s] =>
      assert (map payment_identity (payments (with_payments (update_first p f) s))
              = map payment_identity (payments s)) as H1
        by (simpl; apply map_update_first; reflexivity)
  end.
  destruct (Payment.type _); [exact H1|].
  match goal with
  | |- context [recompute_repaid ?u ?i ?st] =>
      pose proof (payments_recompute_repaid u i st) as Hrec;
      destruct (recompute_repaid u i st) as [s2 [[]|r|]]
  end; simpl fst in *; rewrite Hrec; exact H1.
Qed.

End PutPayments.

(** ** Recording an expense: all or nothing, and only against one's own *)

Section PostExpenses.

Variable castObjectId : string -> option ObjectId.

Lemma check_reference_cases {A : Type} (missing : bool) (v : JsStr)
    (lookup : ObjectId -> Store -> option A) (m1 m2 m3 field : string) (s : Store) :
  (check_reference castObjectId missing v lookup m1 m2 m3 field s = (s, Next tt)
   /\ missing = false
   /\ exists i a, cast_field castObjectId v = Some i /\ lookup i s = Some a)
  \/ exists r,
       check_reference castObjectId missing v lookup m1 m2 m3 field s = (s, Sent r)
       /\ code r = 400.
Proof.
  unfold check_reference, reject_if, bind, read, ret, send.
  destruct missing; [right; eexists; split; reflexivity|].
  destruct (cast_field castObjectId v) as [i|]; [|right; eexists; split; reflexivity].
  destruct (lookup i s) as [a|] eqn:E; [|right; eexists; split; reflexivity].
  left. split; [reflexivity|]. split; [reflexivity|]. exists i, a. auto.
Qed.

Lemma check_category_cases (user : ObjectId) (v : JsStr) (s : Store) :
  (check_category castObjectId user v s = (s, Next tt)
   /\ exists i c, cast_field castObjectId v = Some i
                  /\ findOne (category_owned i user) (categories s) = Some c)
  \/ exists r, check_category castObjectId user v s = (s, Sent r) /\ code r = 400.
Proof.
  unfold check_category, bind, read, ret, send.
  destruct (cast_field castObjectId v) as [i|]; [|right; eexists; split; reflexivity].
  destruct (findOne _ _) as [c|] eqn:E; [|right; eexists; split; reflexivity].
  left. split; [reflexivity|]. exists i, c. auto.
Qed.

Lemma mode_of_string_credit_card (m : string) :
  Expense.mode_of_string m = Some Expense.credit_card <-> m = "credit_card"%string.
Proof.
  unfold Expense.mode_of_string. split.
  - destruct (m =? "cash")%string; [discriminate|].
    destruct (m =? "credit_card")%string eqn:E; [intros _; apply String.eqb_eq, E|].
    destruct (m =? "borrowed")%string; discriminate.
  - intros ->. reflexivity.
Qed.

Lemma mode_of_string_borrowed (m : string) :
  Expense.mode_of_string m = Some Expense.borrowed <-> m = "borrowed"%string.
Proof.
  unfold Expense.mode_of_string. split.
  - destruct (m =? "cash")%string; [discriminate|].
    destruct (m =? "credit_card")%string; [discriminate|].
    destruct (m =? "borrowed")%string eqn:E; [intros _; apply String.eqb_eq, E|discriminate].
  - intros ->. reflexivity.
Qed.

Lemma Expense_create_fields (id user : ObjectId) (a : option Q) (cat : JsStr)
    (m : option string) (card bor : JsStr) (d : Z) (n : option string)
    (rec : option bool) (f : option string) (e : Expense.t) :
  Expense_create castObjectId id user a cat m card bor d n rec f = Some e ->
  Expense._id e = id /\ Expense.user_id e = user
  /\ cast_field castObjectId cat = Some (Expense.category_id e)
  /\ option_map Expense.mode_of_string m = Some (Some (Expense.payment_mode e))
  /\ cast_ref castObjectId card = Some (Expense.credit_card_id e)
  /\ cast_ref castObjectId bor = Some (Expense.borrowed_id e)
  /\ a = Some (Expense.amount e).
Proof.
  unfold Expense_create.
  destruct a as [q|]; [|discriminate].
  destruct (cast_field castObjectId cat) as [c|]; [|discriminate].
  destruct m as [m|]; [|discriminate].
  destruct (cast_ref castObjectId card) as [cc|]; [|discriminate].
  destruct (cast_ref castObjectId bor) as [bb|]; [|discriminate].
  destruct (Expense.mode_of_string m) as [mode|] eqn:Em; [|discriminate].
  destruct (_ && _); [|discriminate].
  intro H. injection H as <-. simpl. rewrite Em. repeat split; reflexivity.
Qed.

Lemma cast_ref_clean_id (v : JsStr) (i j : ObjectId) :
  cast_field castObjectId v = Some i ->
  cast_ref castObjectId (clean_id v) = Some (Some j) -> j = i.
Proof.
  destruct v as [| |s]; simpl; try discriminate.
  intro Hi. destruct (_ || _); simpl; [discriminate|].
  rewrite Hi. congruence.
Qed.

(** The outcomes of [POST /api/expenses]: the expense it stores on 201, with
    the references it has checked, or nothing stored. *)
Lemma post_expenses_cases (s : Store) (user : ObjectId) (now : Z)
    (body : ExpenseBody.t) :
  let (s', r) := post_expenses castObjectId user now body s in
  (code r = 201
   /\ exists e,
        expenses s' = (expenses s ++ [e])%list
        /\ payload r = ExpenseDoc e
        /\ Expense._id e = next_id s
        /\ Expense.user_id e = user
        /\ ExpenseBody.amount body = Some (Expense.amount e)
        /\ option_map Expense.mode_of_string (ExpenseBody.payment_mode body)
           = Some (Some (Expense.payment_mode e))
        /\ findOne (category_owned (Expense.category_id e) user) (categories s) <> None
        /\ match Expense.payment_mode e with
           | Expense.cash => True
           | Expense.credit_card =>
               exists c, Expense.credit_card_id e = Some c
                         /\ cast_field castObjectId (ExpenseBody.credit_card_id body)
                            = Some c
                         /\ findOne (card_owned c user) (creditCards s) <> None
           | Expense.borrowed =>
               exists b, Expense.borrowed_id e = Some b
                         /\ cast_field castObjectId (ExpenseBody.borrowed_id body)
                            = Some b
                         /\ findOne (borrowed_owned b user) (borrowedMoney s) <> None
           end)
  \/ ((code r = 400 \/ code r = 500) /\ expenses s' = expenses s).
Proof.
  unfold post_expenses, try_catch.
  unfold bind at 1. unfold reject_if at 1.
  destruct (match positive_amount _ with None => true | Some _ => false end);
    [right; cbn; auto|]. unfold ret at 1.
  unfold bind at 1. unfold reject_if at 1.
  destruct (falsy (ExpenseBody.category_id body)); [right; cbn; auto|]. unfold ret at 1.
  unfold bind at 1. unfold reject_if at 1.
  destruct (falsy_str (ExpenseBody.payment_mode body)); [right; cbn; auto|]. unfold ret at 1.
  unfold bind at 1.
  destruct (check_category_cases user (ExpenseBody.category_id body) s)
    as [[-> (ci & c & Hci & Hc)] | (r & -> & Hr)]; [|right; cbn; auto].
  unfold bind at 1.
  assert (Hcard :
    (exists st, (if is_str (ExpenseBody.payment_mode body) "credit_card"
       then check_credit_card castObjectId user (falsy (ExpenseBody.credit_card_id body))
              (ExpenseBody.credit_card_id body)
       else ret tt) s = (s, st)
     /\ ((st = Next tt
          /\ (ExpenseBody.payment_mode body = Some "credit_card"%string ->
              exists i a, cast_field castObjectId (ExpenseBody.credit_card_id body) = Some i
                          /\ findOne (card_owned i user) (creditCards s) = Some a))
         \/ exists r, st = Sent r /\ code r = 400))).
  { destruct (is_str (ExpenseBody.payment_mode body) "credit_card") eqn:E.
    - unfold check_credit_card.
      match goal with
      | |- context [check_reference _ ?m ?v ?l ?a ?b ?c ?d s] =>
          destruct (check_reference_cases m v l a b c d s)
            as [(-> & _ & i & a0 & Hi & Ha) | (r & -> & Hr)]
      end.
      + eexists. split; [reflexivity|]. left. split; [reflexivity|]. eauto.
      + eexists. split; [reflexivity|]. right. eauto.
    - eexists. split; [reflexivity|]. left. split; [reflexivity|].
      intro Hm. rewrite Hm in E. discriminate. }
  destruct Hcard as (st & -> & [[-> Hcard] | (r & -> & Hr)]); [|right; cbn; auto].
  unfold bind at 1.
  assert (Hbor :
    (exists st, (if is_str (ExpenseBody.payment_mode body) "borrowed"
       then check_borrowed castObjectId user
              (falsy (ExpenseBody.borrowed_id body) || blank (ExpenseBody.borrowed_id body))
              (ExpenseBody.borrowed_id body)
       else ret tt) s = (s, st)
     /\ ((st = Next tt
          /\ (ExpenseBody.payment_mode body = Some "borrowed"%string ->
              exists i a, cast_field castObjectId (ExpenseBody.borrowed_id body) = Some i
                          /\ findOne (borrowed_owned i user) (borrowedMoney s) = Some a))
         \/ exists r, st = Sent r /\ code r = 400))).
  { destruct (is_str (ExpenseBody.payment_mode body) "borrowed") eqn:E.
    - unfold check_borrowed.
      match goal with
      | |- context [check_reference _ ?m ?v ?l ?a ?b ?c ?d s] =>
          destruct (check_reference_cases m v l a b c d s)
            as [(-> & _ & i & a0 & Hi & Ha) | (r & -> & Hr)]
      end.
      + eexists. split; [reflexivity|]. left. split; [reflexivity|]. eauto.
      + eexists. split; [reflexivity|]. right. eauto.
    - eexists. split; [reflexivity|]. left. split; [reflexivity|].
      intro Hm. rewrite Hm in E. discriminate. }
  destruct Hbor as (st & -> & [[-> Hbor] | (r & -> & Hr)]); [|right; cbn; auto].
  unfold bind at 1. unfold newObjectId at 1.
  destruct (Expense_create _ _ _ _ _ _ _ _ _ _ _ _) as [e|] eqn:Ec;
    [|right; cbn; auto].
  destruct (Expense_create_fields _ _ _ _ _ _ _ _ _ _ _ _ Ec)
    as (Hid & Hu & Hcat & Hmode & Hcc & Hbb & Ha).
  destruct (Expense.pre_save e) eqn:Hpre; simpl negb; cbv iota; [|right; cbn; auto].
  unfold bind, write, ret. cbn [code payload json].
  left. split; [reflexivity|]. exists e. autorewrite with store.
  split; [reflexivity|]. split; [reflexivity|].
  split; [exact Hid|]. split; [exact Hu|]. split; [exact Ha|]. split; [exact Hmode|].
  split. { rewrite Hci in Hcat. injection Hcat as <-. rewrite Hc. discriminate. }
  destruct (ExpenseBody.payment_mode body) as [m|]; [|discriminate].
  simpl in Hmode. injection Hmode as Hmode.
  unfold Expense.pre_save in Hpre.
  destruct (Expense.payment_mode e) eqn:Em; [exact I| |].
  - apply mode_of_string_credit_card in Hmode. subst m.
    destruct (Hcard eq_refl) as (i & a0 & Hi & Ha0).
    destruct (Expense.credit_card_id e) as [c0|] eqn:Ecc; [|discriminate].
    exists c0. split; [reflexivity|].
    rewrite (cast_ref_clean_id _ i c0 Hi Hcc). split; [exact Hi|].
    rewrite Ha0. discriminate.
  - apply mode_of_string_borrowed in Hmode. subst m.
    destruct (Hbor eq_refl) as (i & a0 & Hi & Ha0).
    destruct (Expense.borrowed_id e) as [b0|] eqn:Ebb.
    + exists b0. split; [reflexivity|].
      rewrite (cast_ref_clean_id _ i b0 Hi Hbb). split; [exact Hi|].
      rewrite Ha0. discriminate.
    + destruct (Expense.credit_card_id e); discriminate.
Qed.

(** X11. [POST /api/expenses] either answers 201 or stores nothing (and
    then answers 400 or 500). On 201 exactly one expense is appended; it
    belongs to the caller, its category was found among the caller's own,
    and for the payment mode ['credit_card'] (['borrowed']) it carries the
    id of a credit card (borrowed-money record) found among the caller's
    own. *)
Theorem post_expenses_outcome (s : Store) (user : ObjectId) (now : Z)
    (body : ExpenseBody.t) :
  let (s', r) := post_expenses castObjectId user now body s in
  (code r = 201
   /\ exists e,
        expenses s' = (expenses s ++ [e])%list
        /\ payload r = ExpenseDoc e
        /\ Expense._id e = next_id s
        /\ Expense.user_id e = user
        /\ ExpenseBody.amount body = Some (Expense.amount e)
        /\ findOne (category_owned (Expense.category_id e) user) (categories s) <> None
        /\ match Expense.payment_mode e with
           | Expense.cash => True
           | Expense.credit_card =>
               exists c, Expense.credit_card_id e = Some c
                         /\ findOne (card_owned c user) (creditCards s) <> None
           | Expense.borrowed =>
               exists b, Expense.borrowed_id e = Some b
                         /\ findOne (borrowed_owned b user) (borrowedMoney s) <> None
           end)
  \/ ((code r = 400 \/ code r = 500) /\ expenses s' = expenses s).
Proof.
  pose proof (post_expenses_cases s user now body) as H.
  destruct (post_expenses castObjectId user now body s) as [s' r].
  destruct H as [[Hcode (e & He & Hp & Hi & Hu & Ha & _ & Hcat & Hmode)] | H];
    [left | right; exact H].
  split; [exact Hcode|]. exists e. repeat (split; [assumption|]).
  destruct (Expense.payment_mode e); [exact I | |].
  - destruct Hmode as (c & Hc & _ & Hown). exists c. auto.
  - destruct Hmode as (b & Hb & _ & Hown). exists b. auto.
Qed.

End PostExpenses.

(** * The other routes of the routers *)

(** A route whose last statement is [res.json(body)]: the body of the
    answer, or the response of an early [return] or of the [catch] block. *)
Definition Report (A : Type) : Type := Store -> Store * (A + Response).

Definition try_catch_json {A : Type} (body : Handler A) (on_error : Response)
    : Report A :=
  fun s =>
    match body s with
    | (s', Next a) => (s', inl a)
    | (s', Sent r) => (s', inr r)
    | (s', Thrown) => (s', inr on_error)
    end.

(** ** routes/categories.js: update, delete and the default categories *)

(** The update validators of [{ name, color, icon }]: only the path [name]
    has any, and an undefined name is dropped from the update. *)
Definition category_update_valid (body : CategoryBody.t) : bool :=
  match CategoryBody.name body with
  | Some _ => required_text_ok 50 (CategoryBody.name body)
  | None => true
  end.

Definition category_apply_update (body : CategoryBody.t) (c : Category.t) : Category.t :=
  {| Category._id := Category._id c;
     Category.name := match CategoryBody.name body with
                      | Some n => trim n
                      | None => Category.name c
                      end;
     Category.user_id := Category.user_id c;
     Category.is_default := Category.is_default c;
     Category.color := or_else (CategoryBody.color body) (Category.color c);
     Category.icon := or_else (CategoryBody.icon body) (Category.icon c) |}.

(** The unique index on an update: the new key of [c] differs from its old
    one and belongs to another document. *)
Definition key_taken_by_other (old c : Category.t) (l : list Category.t) : bool :=
  negb (Category.name c =? Category.name old)%string
  && existsb (fun d => negb (Category._id d =? Category._id c)
                       && (Category.name d =? Category.name c)%string
                       && (Category.user_id d =? Category.user_id c)) l.

Definition category_by_id (id : ObjectId) (c : Category.t) : bool :=
  Category._id c =? id.

Definition category_of (user : ObjectId) (c : Category.t) : bool :=
  Category.user_id c =? user.

(** The array [defaultCategories]. *)
Definition defaultCategories : list (string * string * string) :=
  [("Food & Dining", "#FF6B6B", "🍽️");
   ("Transportation", "#4ECDC4", "🚗");
   ("Shopping", "#45B7D1", "🛍️");
   ("Entertainment", "#96CEB4", "🎬");
   ("Healthcare", "#FFEAA7", "🏥");
   ("Utilities", "#DDA0DD", "💡");
   ("Travel", "#98D8C8", "✈️");
   ("Education", "#F7DC6F", "📚");
   ("Gifts", "#BB8FCE", "🎁");
   ("Other", "#AEB6BF", "📌")].

(** [new Category({ ...cat, user_id, is_default: true })] and its
    validation. *)
Definition Category_default (id user : ObjectId) (cat : string * string * string)
    : option Category.t :=
  let '(n, col, ic) := cat in
  if required_text_ok 50 (Some n)
  then Some {| Category._id := id; Category.name := trim n; Category.user_id := user;
               Category.is_default := true; Category.color := col; Category.icon := ic |}
  else None.

(** [Category.insertMany(docs)]: every document is constructed and
    validated first, and a ValidationError rejects the call before anything
    is written; the documents are then inserted in order, up to the first
    one that the unique index refuses. *)
Fixpoint construct (user : ObjectId) (cats : list (string * string * string))
    : Handler (list Category.t) :=
  match cats with
  | [] => ret []
  | cat :: rest =>
      id <- newObjectId ;;
      match Category_default id user cat with
      | None => throw
      | Some d => ds <- construct user rest ;; ret (d :: ds)
      end
  end.

Fixpoint insert_ordered (docs : list Category.t) : Handler unit :=
  match docs with
  | [] => ret tt
  | d :: rest =>
      dup <- read (fun s => Category.duplicate_key d (categories s)) ;;
      if dup then throw
      else write (with_categories (fun l => (l ++ [d])%list)) ;;; insert_ordered rest
  end.

Definition insertMany (user : ObjectId) (cats : list (string * string * string))
    : Handler unit :=
  docs <- construct user cats ;; insert_ordered docs.

(** [POST /api/categories/setup-defaults] *)
Definition post_categories_setup_defaults (user : ObjectId) : Report (string * nat) :=
  try_catch_json
    (existingCategories <- read (fun s => filter (category_of user) (categories s)) ;;
     reject_if (0 <? List.length existingCategories)
       (json 400 "Default categories already set up" NoPayload) ;;;
     insertMany user defaultCategories ;;;
     ret ("Default categories created successfully"%string,
          List.length defaultCategories))
    (json 500 "Server error while setting up default categories" NoPayload).

Section CategoryRoutes.

Variable castObjectId : string -> option ObjectId.
Variable RegExp_i : string -> option (string -> bool).

(** [PUT /api/categories/:id] *)
Definition put_categories (user : ObjectId) (id : string) (body : CategoryBody.t)
    : Route :=
  try_catch
    ((if negb (falsy_str (CategoryBody.name body)) then
        match name_regexp RegExp_i (CategoryBody.name body), castObjectId id with
        | Some test, Some cid =>
            existingCategory <-
              read (fun s => findOne (fun c => test (Category.name c)
                                               && (Category.user_id c =? user)
                                               && negb (Category._id c =? cid))
                                     (categories s)) ;;
            match existingCategory with
            | Some _ => send (json 400 "Category with this name already exists" NoPayload)
            | None => ret tt
            end
        | _, _ => throw
        end
      else ret tt) ;;;
     match castObjectId id with
     | None => throw
     | Some cid =>
         if negb (category_update_valid body) then throw
         else
           found <- read (fun s => findOne (category_owned cid user) (categories s)) ;;
           match found with
           | None => send (json 404 "Category not found" NoPayload)
           | Some c =>
               let category := category_apply_update body c in
               dup <- read (fun s => key_taken_by_other c category (categories s)) ;;
               if dup then throw
               else
                 write (with_categories
                          (update_first (category_owned cid user)
                                        (category_apply_update body))) ;;;
                 ret (json 200 "Category updated successfully" (CategoryDoc category))
           end
     end)
    (json 500 "Server error while updating category" NoPayload).

(** [DELETE /api/categories/:id] *)
Definition delete_categories (user : ObjectId) (id : string) : Route :=
  try_catch
    (match castObjectId id with
     | None => throw
     | Some cid =>
         category <- read (fun s => findOne (category_owned cid user) (categories s)) ;;
         match category with
         | None => send (json 404 "Category not found" NoPayload)
         | Some c =>
             reject_if (Category.is_default c)
               (json 400 "Cannot delete default categories" NoPayload) ;;;
             write (with_categories (delete_first (category_by_id cid))) ;;;
             ret (json 200 "Category deleted successfully" NoPayload)
         end
     end)
    (json 500 "Server error while deleting category" NoPayload).

End CategoryRoutes.

(** ** The default categories are set up once *)

Definition category_paths (c : Category.t) : string * string * string :=
  (Category.name c, Category.color c, Category.icon c).

Lemma has_some_filter {A : Type} (f : A -> bool) (l : list A) :
  (0 <? List.length (filter f l)) = existsb f l.
Proof.
  induction l as [|x r IH]; simpl; [reflexivity|].
  destruct (f x); simpl; [reflexivity | exact IH].
Qed.

Lemma categories_with_payments f s : categories (with_payments f s) = categories s.
Proof. reflexivity. Qed.

Lemma insert_ordered_fresh (docs : list Category.t) (s : Store) :
  NoDup (map Category.name docs) ->
  (forall d, In d docs -> Category.duplicate_key d (categories s) = false) ->
  exists s',
    insert_ordered docs s = (s', Next tt)
    /\ categories s' = (categories s ++ docs)%list.
Proof.
  revert s. induction docs as [|d r IH]; intros s Hnd Hfree.
  - exists s. split; [reflexivity|]. symmetry. apply app_nil_r.
  - simpl. unfold bind at 1. unfold read at 1.
    rewrite (Hfree d (or_introl eq_refl)).
    unfold bind at 1. unfold write at 1.
    inversion Hnd as [|? ? Hnotin Hnd']; subst.
    destruct (IH (with_categories (fun l => (l ++ [d])%list) s) Hnd') as [s' [Hrun Hcat]].
    + intros d' Hd'. simpl categories. unfold Category.duplicate_key.
      rewrite existsb_app. simpl. rewrite orb_false_r.
      fold (Category.duplicate_key d' (categories s)).
      rewrite (Hfree d' (or_intror Hd')). simpl.
      destruct (Category.name d =? Category.name d')%string eqn:E; [|reflexivity].
      apply String.eqb_eq in E. exfalso. apply Hnotin. rewrite E.
      apply in_map. exact Hd'.
    + exists s'. split; [exact Hrun|]. rewrite Hcat. simpl categories.
      rewrite <- app_assoc. reflexivity.
Qed.

Lemma construct_defaults (user : ObjectId) (s : Store) :
  exists s' ds,
    construct user defaultCategories s = (s', Next ds)
    /\ categories s' = categories s
    /\ map category_paths ds = defaultCategories
    /\ Forall (fun d => Category.user_id d = user /\ Category.is_default d = true) ds
    /\ NoDup (map Category.name ds).
Proof.
  eexists. eexists. split; [reflexivity|]. split; [reflexivity|].
  split; [reflexivity|]. split.
  - repeat constructor.
  - repeat (constructor; [simpl; intuition discriminate|]). constructor.
Qed.

Lemma duplicate_key_none (user : ObjectId) (d : Category.t) (l : list Category.t) :
  existsb (category_of user) l = false ->
  Category.user_id d = user ->
  Category.duplicate_key d l = false.
Proof.
  intros Hnone Hu. unfold Category.duplicate_key.
  apply not_true_is_false. intro E. apply existsb_exists in E.
  destruct E as [c [Hc Hk]]. apply andb_true_iff in Hk. destruct Hk as [_ Hk].
  assert (existsb (category_of user) l = true) as Hex.
  { apply existsb_exists. exists c. split; [exact Hc|].
    unfold category_of. rewrite <- Hu. exact Hk. }
  congruence.
Qed.

Lemma setup_defaults_refused (user : ObjectId) (s : Store) :
  existsb (category_of user) (categories s) = true ->
  post_categories_setup_defaults user s
  = (s, inr (json 400 "Default categories already set up" NoPayload)).
Proof.
  intro H. unfold post_categories_setup_defaults, try_catch_json.
  unfold bind at 1. unfold read at 1. unfold bind at 1.
  rewrite has_some_filter, H. reflexivity.
Qed.

(** X12. [POST /api/categories/setup-defaults] is refused with 400, and
    changes nothing, when the caller has a category already. Otherwise it
    answers with the count 10 and appends the ten default categories, with
    the names, colours and icons of the array, each the caller's and marked
    as default; a second request right after is refused with 400. *)
Theorem setup_defaults_once (s : Store) (user : ObjectId) :
  let (s1, r1) := post_categories_setup_defaults user s in
  if existsb (category_of user) (categories s)
  then r1 = inr (json 400 "Default categories already set up" NoPayload) /\ s1 = s
  else r1 = inl ("Default categories created successfully"%string, 10)
       /\ (exists ds,
             categories s1 = (categories s ++ ds)%list
             /\ map category_paths ds = defaultCategories
             /\ Forall (fun d => Category.user_id d = user
                                 /\ Category.is_default d = true) ds)
       /\ post_categories_setup_defaults user s1
          = (s1, inr (json 400 "Default categories already set up" NoPayload)).
Proof.
  destruct (existsb (category_of user) (categories s)) eqn:E.
  - rewrite (setup_defaults_refused user s E). split; reflexivity.
  - unfold post_categories_setup_defaults at 1. unfold try_catch_json.
    unfold bind at 1. unfold read at 1. unfold bind at 1.
    rewrite has_some_filter, E. unfold reject_if, ret at 1.
    unfold bind at 1. unfold insertMany. unfold bind at 1.
    destruct (construct_defaults user s) as (s0 & ds & -> & Hcat & Hpaths & Hall & Hnd).
    destruct (insert_ordered_fresh ds s0 Hnd) as (s1 & -> & Hcat1).
    { intros d Hd. rewrite Hcat. apply (duplicate_key_none user); [exact E|].
      rewrite Forall_forall in Hall. apply Hall, Hd. }
    unfold ret. split; [reflexivity|]. rewrite Hcat in Hcat1. split.
    + exists ds. auto.
    + apply setup_defaults_refused. rewrite Hcat1, existsb_app.
      destruct ds as [|d r]; [discriminate|].
      inversion Hall as [|? ? [Hu _] _]; subst. simpl.
      unfold category_of at 2. rewrite Nat.eqb_refl. apply orb_true_r.
Qed.

(** ** A default category stays *)

Lemma in_update_first_image {A : Type} (p : A -> bool) (f : A -> A) (l : list A) (x : A) :
  In x l -> In x (update_first p f l) \/ In (f x) (update_first p f l).
Proof.
  induction l as [|y r IH]; simpl; [tauto|].
  intros [->|H].
  - destruct (p x); simpl; auto.
  - destruct (p y); simpl; [auto|]. destruct (IH H); auto.
Qed.

Lemma construct_categories (user : ObjectId) (cats : list (string * string * string))
    (s : Store) :
  categories (fst (construct user cats s)) = categories s.
Proof.
  revert s. induction cats as [|cat rest IH]; intro s; [reflexivity|].
  simpl. unfold bind at 1. unfold newObjectId at 1.
  destruct (Category_default _ _ _) as [d|]; [|reflexivity].
  unfold bind. specialize (IH (with_next_id (S (next_id s)) s)).
  destruct (construct user rest _) as [s1 [ds|r|]]; exact IH.
Qed.

Lemma insert_ordered_extends (docs : list Category.t) (s : Store) :
  exists l, categories (fst (insert_ordered docs s)) = (categories s ++ l)%list.
Proof.
  revert s. induction docs as [|d r IH]; intro s.
  - exists []. symmetry. apply app_nil_r.
  - simpl. unfold bind at 1. unfold read at 1.
    destruct (Category.duplicate_key d (categories s)).
    + exists []. symmetry. apply app_nil_r.
    + unfold bind at 1. unfold write at 1.
      destruct (IH (with_categories (fun l => (l ++ [d])%list) s)) as [l Hl].
      exists (d :: l). rewrite Hl. simpl categories. rewrite <- app_assoc. reflexivity.
Qed.

Section DefaultCategories.

Variable castObjectId : string -> option ObjectId.
Variable RegExp_i : string -> option (string -> bool).

(** One request to the categories router that may write. *)
Inductive category_request (s : Store) : Store -> Prop :=
| creq_post user body :
    category_request s (fst (post_categories RegExp_i user body s))
| creq_put user id body :
    category_request s (fst (put_categories castObjectId RegExp_i user id body s))
| creq_delete user id :
    category_request s (fst (delete_categories castObjectId user id s))
| creq_setup_defaults user :
    category_request s (fst (post_categories_setup_defaults user s)).

Lemma post_categories_extends (user : ObjectId) (body : CategoryBody.t) (s : Store) :
  exists l, categories (fst (post_categories RegExp_i user body s))
            = (categories s ++ l)%list.
Proof.
  unfold post_categories. run_handler.
  destruct (name_regexp _ _) as [test|]; [|exists []; symmetry; apply app_nil_r].
  destruct (findOne _ _); [exists []; symmetry; apply app_nil_r|].
  destruct (Category.create _ _ _ _ _) as [c|]; [|exists []; symmetry; apply app_nil_r].
  autorewrite with store.
  destruct (Category.duplicate_key _ _); [exists []; symmetry; apply app_nil_r|].
  exists [c]. reflexivity.
Qed.

Lemma setup_defaults_extends (user : ObjectId) (s : Store) :
  exists l, categories (fst (post_categories_setup_defaults user s))
            = (categories s ++ l)%list.
Proof.
  unfold post_categories_setup_defaults, try_catch_json.
  unfold bind at 1. unfold read at 1. unfold bind at 1. unfold reject_if.
  destruct (0 <? _); [exists []; symmetry; apply app_nil_r|].
  unfold ret at 1. unfold bind at 1. unfold insertMany. unfold bind at 1.
  pose proof (construct_categories user defaultCategories s) as Hc.
  destruct (construct user defaultCategories s) as [s0 [ds|r|]]; simpl fst in Hc;
    try (exists []; simpl; rewrite Hc; symmetry; apply app_nil_r).
  destruct (insert_ordered_extends ds s0) as [l Hl]. rewrite Hc in Hl.
  exists l. destruct (insert_ordered ds s0) as [s1 [[]|r|]]; exact Hl.
Qed.

(** X13. No request to the categories router deletes a default category or
    clears its mark: a default category of a store (with distinct document
    ids) is, after a create, an update, a delete or a setup request of any
    user, still there under its id, with its owner and still default. *)
Theorem default_categories_stay (s s' : Store) (c : Category.t) :
  NoDup (map Category._id (categories s)) ->
  category_request s s' ->
  In c (categories s) ->
  Category.is_default c = true ->
  exists c',
    In c' (categories s')
    /\ Category._id c' = Category._id c
    /\ Category.user_id c' = Category.user_id c
    /\ Category.is_default c' = true.
Proof.
  intros Hnd Hreq Hc Hdef.
  assert (forall l, In c (categories s ++ l)) as Hext
    by (intro l; apply in_or_app; left; exact Hc).
  destruct Hreq as [user body | user id body | user id | user].
  - destruct (post_categories_extends user body s) as [l ->]. exists c. auto.
  - unfold put_categories. run_handler.
    assert (exists c', In c' (categories s) /\ Category._id c' = Category._id c
                       /\ Category.user_id c' = Category.user_id c
                       /\ Category.is_default c' = true) as Hsame
      by (exists c; auto).
    destruct (negb (falsy_str (CategoryBody.name body))).
    + destruct (name_regexp _ _) as [test|]; [|exact Hsame].
      destruct (castObjectId id) as [cid|]; [|exact Hsame].
      destruct (findOne _ _); [exact Hsame|].
      destruct (negb _); [exact Hsame|].
      destruct (findOne _ _) as [c0|]; [|exact Hsame].
      destruct (key_taken_by_other _ _ _); [exact Hsame|].
      simpl fst. simpl categories.
      destruct (in_update_first_image (category_owned cid user)
                  (category_apply_update body) (categories s) c Hc) as [H|H].
      * exists c. auto.
      * exists (category_apply_update body c). auto.
    + destruct (castObjectId id) as [cid|]; [|exact Hsame].
      destruct (negb _); [exact Hsame|].
      destruct (findOne _ _) as [c0|]; [|exact Hsame].
      destruct (key_taken_by_other _ _ _); [exact Hsame|].
      simpl fst. simpl categories.
      destruct (in_update_first_image (category_owned cid user)
                  (category_apply_update body) (categories s) c Hc) as [H|H].
      * exists c. auto.
      * exists (category_apply_update body c). auto.
  - unfold delete_categories. run_handler.
    destruct (castObjectId id) as [cid|]; [|exists c; auto].
    destruct (findOne _ _) as [c0|] eqn:Hc0; [|exists c; auto].
    destruct (Category.is_default c0) eqn:Hd0; [exists c; auto|].
    simpl fst. simpl categories. exists c. split; [|auto].
    apply in_delete_first_other; [exact Hc|].
    unfold category_by_id. apply Nat.eqb_neq. intro E.
    apply find_some in Hc0. destruct Hc0 as [Hin0 Hown].
    unfold category_owned in Hown. apply andb_true_iff in Hown.
    destruct Hown as [Hid0 _]. apply Nat.eqb_eq in Hid0.
    assert (c = c0) as -> by (apply (NoDup_map_eq Category._id (categories s)); congruence).
    congruence.
  - destruct (setup_defaults_extends user s) as [l ->]. exists c. auto.
Qed.

End DefaultCategories.

(** The store of user 7 with the ten default categories, ids 0 to 9. *)
Definition with_defaults : Store := fst (post_categories_setup_defaults 7 empty_store).

(** X13, witness: user 7 asks to delete the default category 0. *)
Lemma default_categories_stay_witness :
  exists c',
    In c' (categories (fst (delete_categories demo_cast 7 "c0" with_defaults)))
    /\ Category._id c' = 0
    /\ Category.user_id c' = 7
    /\ Category.is_default c' = true.
Proof.
  apply (default_categories_stay demo_cast demo_regexp with_defaults
           (fst (delete_categories demo_cast 7 "c0" with_defaults))
           {| Category._id := 0; Category.name := "Food & Dining"; Category.user_id := 7;
              Category.is_default := true; Category.color := "#FF6B6B";
              Category.icon := "🍽️" |}).
  - repeat (constructor; [simpl; intuition discriminate|]). constructor.
  - exact (creq_delete demo_cast demo_regexp with_defaults 7 "c0").
  - left. reflexivity.
  - reflexivity.
Defined.

(** ** Renaming a category *)

(** Another category of the user carries the name [n], whatever the case. *)
Definition conflicting (n : string) (user cid : ObjectId) (c : Category.t) : bool :=
  (upper (Category.name c) =? upper n)%string
  && (Category.user_id c =? user)
  && negb (Category._id c =? cid).

Lemma find_existsb {A : Type} (p : A -> bool) (l : list A) :
  existsb p l = match find p l with Some _ => true | None => false end.
Proof.
  induction l as [|x r IH]; simpl; [reflexivity|].
  destruct (p x); [reflexivity | exact IH].
Qed.

Section RenameCategory.

Variable castObjectId : string -> option ObjectId.
Variable RegExp_i : string -> option (string -> bool).

(** X14. [PUT /api/categories/:id] on a category of the caller, with a
    plain new name: when another category of the caller carries that name
    in any case, the request is refused with 400 and nothing changes;
    otherwise it is answered 200 and the category carries the new name, so
    a category may be renamed to its own name in another case. *)
Theorem put_categories_rename (s : Store) (user cid : ObjectId) (id : string)
    (body : CategoryBody.t) (n : string) (c : Category.t) :
  castObjectId id = Some cid ->
  CategoryBody.name body = Some n ->
  plain_name n ->
  findOne (category_owned cid user) (categories s) = Some c ->
  let (s', r) := put_categories castObjectId RegExp_i user id body s in
  if existsb (conflicting n user cid) (categories s)
  then r = json 400 "Category with this name already exists" NoPayload /\ s' = s
  else r = json 200 "Category updated successfully"
                (CategoryDoc (category_apply_update body c))
       /\ categories s'
          = update_first (category_owned cid user) (category_apply_update body)
                         (categories s)
       /\ Category.name (category_apply_update body c) = n.
Proof.
  intros Hid Hn [Hlit [Htrim [Hne Hlen]]] Hc.
  unfold put_categories, try_catch, name_regexp. rewrite Hn, Hid.
  change (or_else (Some n) "undefined") with n. cbv zeta. rewrite Hlit.
  assert (falsy_str (Some n) = false) as ->
    by (simpl; apply String.eqb_neq; exact Hne).
  cbn [negb]. cbv iota.
  unfold bind at 1. unfold bind at 1. unfold read at 1.
  rewrite find_existsb. unfold conflicting. unfold findOne at 1.
  destruct (find _ (categories s)) as [d|] eqn:Hfind; [split; reflexivity|].
  unfold ret at 1.
  assert (category_update_valid body = true) as ->.
  { unfold category_update_valid. rewrite Hn. unfold required_text_ok.
    rewrite Htrim. apply String.eqb_neq in Hne. rewrite Hne.
    rewrite (js_length_literal n Hlit).
    apply Nat.leb_le in Hlen. rewrite Hlen. reflexivity. }
  cbn [negb]. cbv iota.
  unfold bind at 1. unfold read at 1. rewrite Hc.
  unfold bind at 1. unfold read at 1.
  assert (Category.name (category_apply_update body c) = n) as Hname
    by (simpl; rewrite Hn; exact Htrim).
  destruct (key_taken_by_other c (category_apply_update body c) (categories s)) eqn:Ek.
  - exfalso. unfold key_taken_by_other in Ek.
    apply andb_true_iff in Ek. destruct Ek as [_ Ek].
    apply existsb_exists in Ek. destruct Ek as [d [Hd Hk]].
    rewrite !andb_true_iff in Hk. destruct Hk as [[Hi Hnm] Hu].
    apply find_some in Hc. destruct Hc as [_ Hown]. unfold category_owned in Hown.
    apply andb_true_iff in Hown. destruct Hown as [Hcid Hcu].
    apply Nat.eqb_eq in Hcid, Hcu.
    pose proof (find_none _ _ Hfind d Hd) as Hno.
    simpl in Hno, Hi, Hu. rewrite Hname in Hnm. apply String.eqb_eq in Hnm.
    rewrite Hnm, String.eqb_refl in Hno. rewrite Hcid in Hi. rewrite Hcu in Hu.
    rewrite Hu, Hi in Hno. discriminate.
  - unfold bind, write, ret. split; [reflexivity|]. split; [reflexivity|exact Hname].
Qed.

End RenameCategory.

(** X14, witness: user 7 renames the category "Food" to "food". *)
Lemma put_categories_rename_witness :
  let (s', r) := put_categories demo_cast demo_regexp 7 "c0" (named "food") one_category in
  if existsb (conflicting "food" 7 0) (categories one_category)
  then r = json 400 "Category with this name already exists" NoPayload
       /\ s' = one_category
  else r = json 200 "Category updated successfully"
                (CategoryDoc (category_apply_update (named "food")
                                (new_category empty_store 7 "Food" (named "Food"))))
       /\ categories s'
          = update_first (category_owned 0 7) (category_apply_update (named "food"))
                         (categories one_category)
       /\ Category.name (category_apply_update (named "food")
                           (new_category empty_store 7 "Food" (named "Food")))
          = "food"%string.
Proof.
  apply (put_categories_rename demo_cast demo_regexp one_category 7 0 "c0"
           (named "food") "food" (new_category empty_store 7 "Food" (named "Food"))).
  - reflexivity.
  - reflexivity.
  - repeat split; [discriminate | simpl; lia].
  - reflexivity.
Defined.

(** ** routes/expenses.js and routes/creditCards.js: the deletions *)

Definition with_creditCards (f : list CreditCard.t -> list CreditCard.t) (s : Store)
    : Store :=
  {| categories := categories s; creditCards := f (creditCards s);
     borrowedMoney := borrowedMoney s; payments := payments s;
     expenses := expenses s; next_id := next_id s |}.

(** The filter [{ credit_card_id: id, user_id: req.user._id }] on expenses. *)
Definition charged_to (cid user : ObjectId) (e : Expense.t) : bool :=
  match Expense.credit_card_id e with
  | Some c => c =? cid
  | None => false
  end
  && (Expense.user_id e =? user).

Section Deletions.

Variable castObjectId : string -> option ObjectId.

(** [DELETE /api/expenses/:id] *)
Definition delete_expenses (user : ObjectId) (id : string) : Route :=
  try_catch
    (match castObjectId id with
     | None => throw
     | Some eid =>
         expense <- read (fun s => findOne (expense_owned eid user) (expenses s)) ;;
         match expense with
         | None => send (json 404 "Expense not found" NoPayload)
         | Some _ =>
             write (with_expenses (delete_first (expense_owned eid user))) ;;;
             ret (json 200 "Expense deleted successfully" NoPayload)
         end
     end)
    (json 500 "Server error while deleting expense" NoPayload).

(** [DELETE /api/credit-cards/:id] *)
Definition delete_credit_cards (user : ObjectId) (id : string) : Route :=
  try_catch
    (match castObjectId id with
     | None => throw
     | Some cid =>
         hasExpenses <- read (fun s => existsb (charged_to cid user) (expenses s)) ;;
         reject_if hasExpenses
           (json 400
              "Cannot delete credit card with associated expenses. Please update or delete expenses first."
              NoPayload) ;;;
         creditCard <- read (fun s => findOne (card_owned cid user) (creditCards s)) ;;
         match creditCard with
         | None => send (json 404 "Credit card not found" NoPayload)
         | Some _ =>
             write (with_creditCards (delete_first (card_owned cid user))) ;;;
             ret (json 200 "Credit card deleted successfully" NoPayload)
         end
     end)
    (json 500 "Server error while deleting credit card" NoPayload).

Lemma delete_first_added {A : Type} (p : A -> bool) (l : list A) (x : A) :
  (forall y, In y l -> p y = false) -> p x = true ->
  delete_first p (l ++ [x]) = l.
Proof.
  intros Hl Hx. induction l as [|y r IH]; simpl.
  - rewrite Hx. reflexivity.
  - rewrite (Hl y (or_introl eq_refl)). f_equal. apply IH.
    intros z Hz. apply Hl. right. exact Hz.
Qed.

Lemma find_added {A : Type} (p : A -> bool) (l : list A) (x : A) :
  (forall y, In y l -> p y = false) -> p x = true -> find p (l ++ [x]) = Some x.
Proof.
  intros Hl Hx. induction l as [|y r IH]; simpl.
  - rewrite Hx. reflexivity.
  - rewrite (Hl y (or_introl eq_refl)). apply IH.
    intros z Hz. apply Hl. right. exact Hz.
Qed.

(** X15. An expense that [POST /api/expenses] has just created (201) is
    removed again by [DELETE /api/expenses/:id] of the same user under the
    new id: the delete answers 200 and the expenses are those from before
    the two requests. The new id is fresh: no stored expense carries it. *)
Theorem expense_created_then_deleted (s : Store) (user : ObjectId) (now : Z)
    (body : ExpenseBody.t) (id : string) :
  (forall e, In e (expenses s) -> Expense._id e <> next_id s) ->
  castObjectId id = Some (next_id s) ->
  let (s1, r1) := post_expenses castObjectId user now body s in
  code r1 = 201 ->
  let (s2, r2) := delete_expenses user id s1 in
  r2 = json 200 "Expense deleted successfully" NoPayload
  /\ expenses s2 = expenses s.
Proof.
  intros Hfresh Hid.
  pose proof (post_expenses_cases castObjectId s user now body) as H.
  destruct (post_expenses castObjectId user now body s) as [s1 r1].
  intro Hcode.
  destruct H as [[_ (e & He & _ & Hi & Hu & _)] | [[E|E] _]];
    [|rewrite Hcode in E; discriminate..].
  assert (forall y, In y (expenses s) -> expense_owned (next_id s) user y = false) as Hl.
  { intros y Hy. unfold expense_owned. apply andb_false_iff. left.
    apply Nat.eqb_neq. exact (Hfresh y Hy). }
  assert (expense_owned (next_id s) user e = true) as Hx
    by (unfold expense_owned; rewrite Hi, Hu, !Nat.eqb_refl; reflexivity).
  unfold delete_expenses, try_catch. rewrite Hid.
  unfold bind at 1. unfold read at 1. unfold findOne. rewrite He.
  rewrite (find_added _ _ _ Hl Hx).
  unfold bind, write, ret. simpl. rewrite He.
  split; [reflexivity|]. exact (delete_first_added _ _ _ Hl Hx).
Qed.

(** X16. After [POST /api/expenses] has created (201) an expense with the
    payment mode ['credit_card'], the card it names cannot be deleted by
    the same user: [DELETE /api/credit-cards/:id] answers 400 and changes
    nothing. *)
Theorem card_with_expense_is_kept (s : Store) (user : ObjectId) (now : Z)
    (body : ExpenseBody.t) (id : string) (cid : ObjectId) :
  ExpenseBody.payment_mode body = Some "credit_card"%string ->
  cast_field castObjectId (ExpenseBody.credit_card_id body) = Some cid ->
  castObjectId id = Some cid ->
  let (s1, r1) := post_expenses castObjectId user now body s in
  code r1 = 201 ->
  delete_credit_cards user id s1
  = (s1, json 400
           "Cannot delete credit card with associated expenses. Please update or delete expenses first."
           NoPayload).
Proof.
  intros Hmode Hcard Hid.
  pose proof (post_expenses_cases castObjectId s user now body) as H.
  destruct (post_expenses castObjectId user now body s) as [s1 r1].
  intro Hcode.
  destruct H as [[_ (e & He & _ & _ & Hu & _ & Hpm & _ & Hm)] | [[E|E] _]];
    [|rewrite Hcode in E; discriminate..].
  assert (Expense.credit_card_id e = Some cid) as Hcc.
  { rewrite Hmode in Hpm. simpl in Hpm. injection Hpm as Hpm. rewrite <- Hpm in Hm.
    destruct Hm as (c & Hc & Hcast & _). congruence. }
  unfold delete_credit_cards, try_catch. rewrite Hid.
  unfold bind at 1. unfold read at 1.
  assert (existsb (charged_to cid user) (expenses s1) = true) as ->.
  { rewrite He, existsb_app. simpl. unfold charged_to.
    rewrite Hcc, Hu, !Nat.eqb_refl. apply orb_true_r. }
  reflexivity.
Qed.

End Deletions.

(** X15, witness: user 7 deletes the cash expense 1 just recorded. *)
Lemma expense_created_then_deleted_witness :
  let (s2, r2) := delete_expenses demo_cast 7 "e1" one_expense in
  r2 = json 200 "Expense deleted successfully" NoPayload
  /\ expenses s2 = expenses one_category.
Proof.
  unfold one_expense.
  generalize (expense_created_then_deleted demo_cast one_category 7 9%Z
                (expense_paid_by "cash") "e1" (fun e H => match H with end) eq_refl).
  destruct (post_expenses demo_cast 7 9%Z (expense_paid_by "cash") one_category)
    as [s1 r1] eqn:E.
  intro W. apply W. vm_compute in E. injection E as <- <-. reflexivity.
Defined.

(** The category "Food" and a credit card, id 5, of user 7. *)
Definition one_card : Store :=
  with_creditCards
    (fun _ => [{| CreditCard._id := 5; CreditCard.user_id := 7;
                  CreditCard.bank_name := "Bank"; CreditCard.card_number := "1234";
                  CreditCard.limit_amount := None; CreditCard.due_date := 5;
                  CreditCard.is_active := true |}])
    (with_next_id 6 one_category).

(** An expense of 50 in the category 0, charged to the card 5. *)
Definition expense_on_card : ExpenseBody.t :=
  {| ExpenseBody.user_id := JUndefined;
     ExpenseBody.amount := Some 50%Q; ExpenseBody.category_id := JString "c0";
     ExpenseBody.payment_mode := Some "credit_card"%string;
     ExpenseBody.credit_card_id := JString "k5";
     ExpenseBody.borrowed_id := JUndefined; ExpenseBody.date := None;
     ExpenseBody.note := None; ExpenseBody.is_recurring := None;
     ExpenseBody.recurring_frequency := None |}.

(** X16, witness: user 7 charges an expense to the card 5 and then asks to
    delete the card. *)
Lemma card_with_expense_is_kept_witness :
  delete_credit_cards demo_cast 7 "k5"
    (fst (post_expenses demo_cast 7 9%Z expense_on_card one_card))
  = (fst (post_expenses demo_cast 7 9%Z expense_on_card one_card),
     json 400
       "Cannot delete credit card with associated expenses. Please update or delete expenses first."
       NoPayload).
Proof.
  generalize (card_with_expense_is_kept demo_cast one_card 7 9%Z expense_on_card
                "k5" 5 eq_refl eq_refl eq_refl).
  destruct (post_expenses demo_cast 7 9%Z expense_on_card one_card) as [s1 r1] eqn:E.
  intro W. apply W. vm_compute in E. injection E as <- <-. reflexivity.
Defined.

(** ** routes/borrowedMoney.js: the reports *)

(** The stage [{ $group: { _id: key, ...accumulators } }]: a document opens
    the group of its key or is added to it. *)
Section GroupBy.

Variables A K G : Type.
Variable key : A -> K.
Variable key_eqb : K -> K -> bool.
Variable group_key : G -> K.
Variable open_group : A -> G.
Variable accumulate : G -> A -> G.

Fixpoint add_to (x : A) (gs : list G) : list G :=
  match gs with
  | [] => [open_group x]
  | g :: r =>
      if key_eqb (group_key g) (key x) then accumulate g x :: r
      else g :: add_to x r
  end.

Definition group_by (l : list A) : list G :=
  fold_left (fun gs x => add_to x gs) l [].

(** The group of a key after one more document of that key. *)
Definition grown (o : option G) (x : A) : option G :=
  match o with
  | Some g => Some (accumulate g x)
  | None => Some (open_group x)
  end.

Hypothesis key_eqb_eq : forall a b, key_eqb a b = true <-> a = b.
Hypothesis open_group_key : forall x, group_key (open_group x) = key x.
Hypothesis accumulate_key : forall g x, group_key (accumulate g x) = group_key g.

Lemma key_eqb_refl (k : K) : key_eqb k k = true.
Proof. apply key_eqb_eq. reflexivity. Qed.

Lemma find_add_to (k : K) (x : A) (gs : list G) :
  find (fun g => key_eqb (group_key g) k) (add_to x gs)
  = if key_eqb (key x) k
    then grown (find (fun g => key_eqb (group_key g) k) gs) x
    else find (fun g => key_eqb (group_key g) k) gs.
Proof.
  induction gs as [|g r IH]; simpl.
  - rewrite open_group_key. destruct (key_eqb (key x) k); reflexivity.
  - destruct (key_eqb (group_key g) (key x)) eqn:E; simpl.
    + apply key_eqb_eq in E. rewrite accumulate_key, E.
      destruct (key_eqb (key x) k); reflexivity.
    + destruct (key_eqb (group_key g) k) eqn:Ek.
      * apply key_eqb_eq in Ek. subst k.
        destruct (key_eqb (key x) (group_key g)) eqn:E'; [|reflexivity].
        apply key_eqb_eq in E'. rewrite E', key_eqb_refl in E. discriminate.
      * exact IH.
Qed.

Lemma find_group_by (k : K) (l : list A) (gs : list G) :
  find (fun g => key_eqb (group_key g) k) (fold_left (fun gs x => add_to x gs) l gs)
  = fold_left grown (filter (fun x => key_eqb (key x) k) l)
              (find (fun g => key_eqb (group_key g) k) gs).
Proof.
  revert gs. induction l as [|x r IH]; simpl; intro gs; [reflexivity|].
  rewrite IH, find_add_to. destruct (key_eqb (key x) k); reflexivity.
Qed.

Lemma add_to_keys (x : A) (gs : list G) :
  map group_key (add_to x gs)
  = if existsb (fun g => key_eqb (group_key g) (key x)) gs then map group_key gs
    else (map group_key gs ++ [key x])%list.
Proof.
  induction gs as [|g r IH]; simpl; [rewrite open_group_key; reflexivity|].
  destruct (key_eqb (group_key g) (key x)); simpl.
  - rewrite accumulate_key. reflexivity.
  - rewrite IH. destruct (existsb _ r); reflexivity.
Qed.

Lemma group_by_NoDup (l : list A) (gs : list G) :
  NoDup (map group_key gs) ->
  NoDup (map group_key (fold_left (fun gs x => add_to x gs) l gs)).
Proof.
  revert gs. induction l as [|x r IH]; simpl; intros gs H; [exact H|].
  apply IH. rewrite add_to_keys.
  destruct (existsb _ gs) eqn:E; [exact H|].
  apply NoDup_app; [exact H | repeat constructor; intros [] |].
  intros k Hk [<-|[]]. apply in_map_iff in Hk. destruct Hk as [g [Hg Hin]].
  assert (existsb (fun g => key_eqb (group_key g) (key x)) gs = true) as Hex.
  { apply existsb_exists. exists g. split; [exact Hin|]. rewrite Hg. apply key_eqb_refl. }
  congruence.
Qed.

End GroupBy.

Arguments add_to {A K G} key key_eqb group_key open_group accumulate x gs.
Arguments group_by {A K G} key key_eqb group_key open_group accumulate l.
Arguments grown {A G} open_group accumulate o x.

Definition loan_kind_eqb (a b : BorrowedMoney.Kind) : bool :=
  match a, b with
  | BorrowedMoney.borrowed, BorrowedMoney.borrowed
  | BorrowedMoney.lent, BorrowedMoney.lent => true
  | _, _ => false
  end.

(** [{ $sum: '$path' }] over the records, in the order of the collection. *)
Definition sum_of (path : BorrowedMoney.t -> Q) (l : list BorrowedMoney.t) : Q :=
  fold_left (fun acc b => (acc + path b)%Q) l 0%Q.

(** A group of [{ $group: { _id: '$type', total_amount: { $sum: '$amount' },
    total_repaid: { $sum: '$repaid_amount' }, count: { $sum: 1 } } }]. *)
Record LoanGroup : Type := {
  loan_group_id : BorrowedMoney.Kind;
  loan_total_amount : Q;
  loan_total_repaid : Q;
  loan_count : nat
}.

Definition open_loan_group (b : BorrowedMoney.t) : LoanGroup :=
  {| loan_group_id := BorrowedMoney.type b;
     loan_total_amount := (0 + BorrowedMoney.amount b)%Q;
     loan_total_repaid := (0 + BorrowedMoney.repaid_amount b)%Q;
     loan_count := 1 |}.

Definition add_loan (g : LoanGroup) (b : BorrowedMoney.t) : LoanGroup :=
  {| loan_group_id := loan_group_id g;
     loan_total_amount := (loan_total_amount g + BorrowedMoney.amount b)%Q;
     loan_total_repaid := (loan_total_repaid g + BorrowedMoney.repaid_amount b)%Q;
     loan_count := S (loan_count g) |}.

Definition group_loans_by_type (l : list BorrowedMoney.t) : list LoanGroup :=
  group_by BorrowedMoney.type loan_kind_eqb loan_group_id open_loan_group add_loan l.

(** The report of [GET /api/borrowed-money/summary/totals]. *)
Module LoanTotals.

Record Entry : Type := { amount : Q; repaid : Q; remaining : Q; count : nat }.

Record t : Type := { borrowed : Entry; lent : Entry }.

End LoanTotals.

Definition zero_loan_entry : LoanTotals.Entry :=
  {| LoanTotals.amount := 0; LoanTotals.repaid := 0; LoanTotals.remaining := 0;
     LoanTotals.count := 0 |}.

Definition loan_entry_of (item : LoanGroup) : LoanTotals.Entry :=
  {| LoanTotals.amount := loan_total_amount item;
     LoanTotals.repaid := loan_total_repaid item;
     LoanTotals.remaining := (loan_total_amount item - loan_total_repaid item)%Q;
     LoanTotals.count := loan_count item |}.

(** The body of the [forEach]. *)
Definition record_loan_group (t : LoanTotals.t) (item : LoanGroup) : LoanTotals.t :=
  match loan_group_id item with
  | BorrowedMoney.borrowed =>
      {| LoanTotals.borrowed := loan_entry_of item; LoanTotals.lent := LoanTotals.lent t |}
  | BorrowedMoney.lent =>
      {| LoanTotals.borrowed := LoanTotals.borrowed t; LoanTotals.lent := loan_entry_of item |}
  end.

Definition loan_of (user : ObjectId) (b : BorrowedMoney.t) : bool :=
  BorrowedMoney.user_id b =? user.

(** [GET /api/borrowed-money/summary/totals] *)
Definition get_borrowed_money_summary_totals (user : ObjectId) : Report LoanTotals.t :=
  try_catch_json
    (summary <- read (fun s => group_loans_by_type
                                 (filter (loan_of user) (borrowedMoney s))) ;;
     ret (fold_left record_loan_group summary
            {| LoanTotals.borrowed := zero_loan_entry; LoanTotals.lent := zero_loan_entry |}))
    (json 500 "Server error while fetching summary" NoPayload).

(** The entry of the report under the key of a record type. *)
Definition loan_entry (k : BorrowedMoney.Kind) (t : LoanTotals.t) : LoanTotals.Entry :=
  match k with
  | BorrowedMoney.borrowed => LoanTotals.borrowed t
  | BorrowedMoney.lent => LoanTotals.lent t
  end.

(** The records of a user that have the type [k]. *)
Definition loans_of_type (user : ObjectId) (k : BorrowedMoney.Kind)
    (l : list BorrowedMoney.t) : list BorrowedMoney.t :=
  filter (fun b => loan_of user b && loan_kind_eqb (BorrowedMoney.type b) k) l.

Lemma loan_kind_eqb_eq (a b : BorrowedMoney.Kind) : loan_kind_eqb a b = true <-> a = b.
Proof. destruct a, b; simpl; split; congruence. Qed.

Lemma fold_grown_loans (l : list BorrowedMoney.t) (o : option LoanGroup) :
  match fold_left (grown open_loan_group add_loan) l o with
  | Some g =>
      loan_total_amount g
      = fold_left (fun acc b => (acc + BorrowedMoney.amount b)%Q) l
          (match o with Some g0 => loan_total_amount g0 | None => 0%Q end)
      /\ loan_total_repaid g
         = fold_left (fun acc b => (acc + BorrowedMoney.repaid_amount b)%Q) l
             (match o with Some g0 => loan_total_repaid g0 | None => 0%Q end)
      /\ loan_count g
         = List.length l + match o with Some g0 => loan_count g0 | None => 0 end
  | None => l = [] /\ o = None
  end.
Proof.
  revert o. induction l as [|b r IH]; intro o; simpl.
  - destruct o; auto.
  - specialize (IH (grown open_loan_group add_loan o b)).
    destruct (fold_left _ r _) as [g|].
    + destruct IH as (Ha & Hr & Hc). destruct o as [g0|]; simpl in *;
        rewrite Ha, Hr, Hc; repeat split; lia.
    + destruct IH as [_ IH]. destruct o; discriminate.
Qed.

Lemma record_loan_group_other (k : BorrowedMoney.Kind) (t : LoanTotals.t)
    (item : LoanGroup) :
  loan_group_id item <> k -> loan_entry k (record_loan_group t item) = loan_entry k t.
Proof.
  unfold record_loan_group. destruct (loan_group_id item), k; simpl; congruence.
Qed.

Lemma loan_totals_found (k : BorrowedMoney.Kind) (summary : list LoanGroup)
    (t : LoanTotals.t) :
  NoDup (map loan_group_id summary) ->
  loan_entry k (fold_left record_loan_group summary t)
  = match find (fun g => loan_kind_eqb (loan_group_id g) k) summary with
    | Some g => loan_entry_of g
    | None => loan_entry k t
    end.
Proof.
  revert t. induction summary as [|g r IH]; simpl; intros t H; [reflexivity|].
  inversion H as [|x xs Hnot Hr]; subst.
  rewrite IH by exact Hr.
  destruct (loan_kind_eqb (loan_group_id g) k) eqn:E.
  - apply loan_kind_eqb_eq in E.
    rewrite find_none_of.
    + unfold record_loan_group. rewrite E. destruct k; reflexivity.
    + intros g' Hin. apply not_true_is_false. intro E'. apply loan_kind_eqb_eq in E'.
      apply Hnot. apply in_map_iff. exists g'. split; [congruence|exact Hin].
  - destruct (find _ r); [reflexivity|].
    apply record_loan_group_other. intro Hid.
    rewrite Hid in E. destruct k; discriminate.
Qed.

Lemma group_loans_NoDup (l : list BorrowedMoney.t) :
  NoDup (map loan_group_id (group_loans_by_type l)).
Proof.
  unfold group_loans_by_type, group_by.
  apply group_by_NoDup; try exact loan_kind_eqb_eq; try reflexivity. constructor.
Qed.

(** X17. [GET /api/borrowed-money/summary/totals] answers with an entry
    under each of the keys ['borrowed'] and ['lent'], and writes nothing:
    the entry holds the sum of the principals, the sum of the repaid
    amounts, their difference as the remaining amount, and the number of
    the caller's records of that type; all are zero when there is none. *)
Theorem borrowed_totals_exact (s : Store) (user : ObjectId) :
  exists t,
    get_borrowed_money_summary_totals user s = (s, inl t)
    /\ forall k,
         loan_entry k t
         = let l := loans_of_type user k (borrowedMoney s) in
           {| LoanTotals.amount := sum_of BorrowedMoney.amount l;
              LoanTotals.repaid := sum_of BorrowedMoney.repaid_amount l;
              LoanTotals.remaining :=
                (sum_of BorrowedMoney.amount l - sum_of BorrowedMoney.repaid_amount l)%Q;
              LoanTotals.count := List.length l |}.
Proof.
  eexists. split; [reflexivity|]. intro k. cbv zeta.
  rewrite loan_totals_found by apply group_loans_NoDup.
  unfold group_loans_by_type, group_by.
  rewrite find_group_by by (try exact loan_kind_eqb_eq; reflexivity).
  unfold loans_of_type. rewrite <- filter_filter.
  set (l := filter (fun b => loan_kind_eqb (BorrowedMoney.type b) k)
                   (filter (loan_of user) (borrowedMoney s))).
  simpl find.
  pose proof (fold_grown_loans l None) as H.
  destruct (fold_left _ l None) as [g|].
  - destruct H as (Ha & Hr & Hc). unfold loan_entry_of, sum_of.
    rewrite Ha, Hr, Hc, Nat.add_0_r. reflexivity.
  - destruct H as [-> _]. destruct k; reflexivity.
Qed.

(** *** The repayment summary *)

Definition status_eqb (a b : BorrowedMoney.Status) : bool :=
  match a, b with
  | BorrowedMoney.pending, BorrowedMoney.pending
  | BorrowedMoney.repaid, BorrowedMoney.repaid
  | BorrowedMoney.partial, BorrowedMoney.partial => true
  | _, _ => false
  end.

(** A group of [{ $group: { _id: '$status', count: { $sum: 1 }, total_amount:
    { $sum: '$amount' }, total_repaid: { $sum: '$repaid_amount' } } }]. *)
Record StatusGroup : Type := {
  status_group_id : BorrowedMoney.Status;
  status_count : nat;
  status_total_amount : Q;
  status_total_repaid : Q
}.

Definition open_status_group (b : BorrowedMoney.t) : StatusGroup :=
  {| status_group_id := BorrowedMoney.status b;
     status_count := 1;
     status_total_amount := (0 + BorrowedMoney.amount b)%Q;
     status_total_repaid := (0 + BorrowedMoney.repaid_amount b)%Q |}.

Definition add_to_status (g : StatusGroup) (b : BorrowedMoney.t) : StatusGroup :=
  {| status_group_id := status_group_id g;
     status_count := S (status_count g);
     status_total_amount := (status_total_amount g + BorrowedMoney.amount b)%Q;
     status_total_repaid := (status_total_repaid g + BorrowedMoney.repaid_amount b)%Q |}.

Definition group_loans_by_status (l : list BorrowedMoney.t) : list StatusGroup :=
  group_by BorrowedMoney.status status_eqb status_group_id open_status_group
           add_to_status l.

(** The group of [{ $group: { _id: null, total_count, total_amount,
    total_repaid } }]: one group when a record matches, none otherwise. *)
Record AllGroup : Type := {
  all_total_count : nat;
  all_total_amount : Q;
  all_total_repaid : Q
}.

Definition group_all (l : list BorrowedMoney.t) : list AllGroup :=
  match l with
  | [] => []
  | _ => [{| all_total_count := List.length l;
             all_total_amount := sum_of BorrowedMoney.amount l;
             all_total_repaid := sum_of BorrowedMoney.repaid_amount l |}]
  end.

(** [v || 0] on an optional number. *)
Definition num_or_zero (v : option Q) : Q :=
  match v with
  | Some q => if Qeq_bool q 0 then 0%Q else q
  | None => 0%Q
  end.

(** The path [date] of a stored record. The schema of BorrowedMoney defines
    no such path (its dates are the timestamps [createdAt] and
    [updatedAt]), and the aggregation reads the stored document. *)
Definition loan_date (b : BorrowedMoney.t) : option Z := None.

(** The condition [{ $gte: a, $lte: b }] on a path, set when one of the
    bounds is given: a missing value satisfies no comparison. *)
Definition matches_range (start_date end_date : option Z) (v : option Z) : bool :=
  match start_date, end_date with
  | None, None => true
  | _, _ =>
      match v with
      | Some d => in_range start_date end_date d
      | None => false
      end
  end.

(** [filter = { user_id }], with [filter.date] under a date bound. *)
Definition summary_filter (user : ObjectId) (start_date end_date : option Z)
    (b : BorrowedMoney.t) : bool :=
  loan_of user b && matches_range start_date end_date (loan_date b).

Module RepaymentSummary.

Record Total : Type := { count : nat; amount : Q; repaid : Q; remaining : Q }.

Record t : Type := { by_status : list StatusGroup; total : Total }.

End RepaymentSummary.

(** [GET /api/borrowed-money/repayments/summary]; an absent or empty query
    parameter is [None]. *)
Definition get_borrowed_money_repayments_summary (user : ObjectId)
    (start_date end_date : option Z) : Report RepaymentSummary.t :=
  try_catch_json
    (summaryByStatus <-
       read (fun s => group_loans_by_status
                        (filter (summary_filter user start_date end_date)
                                (borrowedMoney s))) ;;
     totalSummary <-
       read (fun s => group_all (filter (summary_filter user start_date end_date)
                                        (borrowedMoney s))) ;;
     let first := hd_error totalSummary in
     ret {| RepaymentSummary.by_status := summaryByStatus;
            RepaymentSummary.total :=
              {| RepaymentSummary.count :=
                   match first with Some g => all_total_count g | None => 0 end;
                 RepaymentSummary.amount := num_or_zero (option_map all_total_amount first);
                 RepaymentSummary.repaid := num_or_zero (option_map all_total_repaid first);
                 RepaymentSummary.remaining :=
                   (num_or_zero (option_map all_total_amount first)
                    - num_or_zero (option_map all_total_repaid first))%Q |} |})
    (json 500 "Server error while fetching repayment summary" NoPayload).

Lemma filter_none {A : Type} (f : A -> bool) (l : list A) :
  (forall x, f x = false) -> filter f l = [].
Proof.
  intro H. induction l as [|x r IH]; simpl; [reflexivity|]. rewrite H. exact IH.
Qed.

Lemma summary_filter_dated (user : ObjectId) (start_date end_date : option Z)
    (l : list BorrowedMoney.t) :
  start_date <> None \/ end_date <> None ->
  filter (summary_filter user start_date end_date) l = [].
Proof.
  intro H. apply filter_none. intro b. unfold summary_filter, matches_range, loan_date.
  destruct start_date, end_date; try apply andb_false_r.
  destruct H as [H|H]; congruence.
Qed.

Lemma num_or_zero_eq (q : Q) : (num_or_zero (Some q) == q)%Q.
Proof.
  simpl. destruct (Qeq_bool q 0) eqn:E; [|reflexivity].
  apply Qeq_bool_iff in E. symmetry. exact E.
Qed.

(** X18. [GET /api/borrowed-money/repayments/summary] writes nothing. With
    a start or an end date it reports no status group and zero totals,
    whatever records the caller has: the date condition is put on the path
    [date], which no borrowed-money record has. Without dates the totals
    are the number of the caller's records, the sums of their principals
    and of their repaid amounts, and the difference of the two sums. *)
Theorem repayments_summary_totals (s : Store) (user : ObjectId)
    (start_date end_date : option Z) :
  exists t,
    get_borrowed_money_repayments_summary user start_date end_date s = (s, inl t)
    /\ match start_date, end_date with
       | None, None =>
           let l := filter (loan_of user) (borrowedMoney s) in
           RepaymentSummary.count (RepaymentSummary.total t) = List.length l
           /\ (RepaymentSummary.amount (RepaymentSummary.total t)
               == sum_of BorrowedMoney.amount l)%Q
           /\ (RepaymentSummary.repaid (RepaymentSummary.total t)
               == sum_of BorrowedMoney.repaid_amount l)%Q
           /\ (RepaymentSummary.remaining (RepaymentSummary.total t)
               == sum_of BorrowedMoney.amount l - sum_of BorrowedMoney.repaid_amount l)%Q
       | _, _ =>
           t = {| RepaymentSummary.by_status := [];
                  RepaymentSummary.total :=
                    {| RepaymentSummary.count := 0; RepaymentSummary.amount := 0;
                       RepaymentSummary.repaid := 0; RepaymentSummary.remaining := 0 |} |}
       end.
Proof.
  eexists. split; [reflexivity|].
  assert (start_date <> None \/ end_date <> None ->
          filter (summary_filter user start_date end_date) (borrowedMoney s) = []) as Hd
    by apply summary_filter_dated.
  destruct start_date as [a|], end_date as [b|];
    try (rewrite Hd by (first [left; discriminate | right; discriminate]); reflexivity).
  clear Hd. cbv zeta.
  assert (filter (summary_filter user None None) (borrowedMoney s)
          = filter (loan_of user) (borrowedMoney s)) as ->.
  { apply filter_ext. intro b. unfold summary_filter. apply andb_true_r. }
  set (l := filter (loan_of user) (borrowedMoney s)).
  destruct l as [|b r] eqn:El.
  - simpl. repeat split; reflexivity.
  - unfold group_all, hd_error, option_map.
    cbn [RepaymentSummary.total RepaymentSummary.count RepaymentSummary.amount
         RepaymentSummary.repaid RepaymentSummary.remaining all_total_count all_total_amount
         all_total_repaid].
    split; [reflexivity|].
    pose proof (num_or_zero_eq (sum_of BorrowedMoney.amount (b :: r))) as Ha.
    pose proof (num_or_zero_eq (sum_of BorrowedMoney.repaid_amount (b :: r))) as Hr.
    split; [exact Ha|]. split; [exact Hr|]. rewrite Ha, Hr. reflexivity.
Qed.

(** *** The GET routes of the router, in the order of their declaration *)

(** A segment of a route path: a literal, or a parameter such as [:id]. *)
Inductive Segment : Type :=
| Lit (s : string)
| Param.

(** A path matches a pattern segment by segment; a parameter stands for
    any segment that is not empty. *)
Fixpoint path_matches (pattern : list Segment) (path : list string) : bool :=
  match pattern, path with
  | [], [] => true
  | Lit s :: p, x :: r => (x =? s)%string && path_matches p r
  | Param :: p, x :: r => negb (x =? "")%string && path_matches p r
  | _, _ => false
  end.

Inductive BorrowedMoneyGet : Type :=
| get_records               (* router.get('/') *)
| get_record                (* router.get('/:id') *)
| get_record_repayments     (* router.get('/:id/repayments') *)
| get_repayments_all        (* router.get('/repayments/all') *)
| get_repayments_summary    (* router.get('/repayments/summary') *)
| get_overdue               (* router.get('/overdue') *)
| get_summary_totals.       (* router.get('/summary/totals') *)

Definition borrowed_money_get_routes : list (list Segment * BorrowedMoneyGet) :=
  [([], get_records);
   ([Param], get_record);
   ([Param; Lit "repayments"], get_record_repayments);
   ([Lit "repayments"; Lit "all"], get_repayments_all);
   ([Lit "repayments"; Lit "summary"], get_repayments_summary);
   ([Lit "overdue"], get_overdue);
   ([Lit "summary"; Lit "totals"], get_summary_totals)].

(** The handler that serves a GET request: the first route, in the order
    of the declarations, whose path matches; each of these handlers ends
    the response and none calls [next]. *)
Definition borrowed_money_get (path : list string) : option BorrowedMoneyGet :=
  option_map snd (find (fun r => path_matches (fst r) path) borrowed_money_get_routes).

(** The [summary] of [GET /api/borrowed-money/:id]. *)
Record RecordSummary : Type := {
  summary_borrowedMoney : BorrowedMoney.t;
  summary_remaining_amount : Q;
  summary_payments : list Payment.t;
  summary_total_paid : Q;
  summary_total_remaining : Q;
  summary_payment_count : nat
}.

Section RecordById.

Variable castObjectId : string -> option ObjectId.

(** [.sort({ payment_date: -1 })]; the order among the payments of one
    date is the database's. *)
Variable sort_by_payment_date_desc : list Payment.t -> list Payment.t.

(** [GET /api/borrowed-money/:id] *)
Definition get_borrowed_money_by_id (user : ObjectId) (id : string)
    : Report RecordSummary :=
  try_catch_json
    (match castObjectId id with
     | None => throw
     | Some rid =>
         borrowedMoney_ <-
           read (fun s => findOne (borrowed_owned rid user) (borrowedMoney s)) ;;
         match borrowedMoney_ with
         | None => send (json 404 "Record not found" NoPayload)
         | Some b =>
             payments_ <-
               read (fun s => sort_by_payment_date_desc
                                (filter (repayment_of user rid) (payments s))) ;;
             ret {| summary_borrowedMoney := b;
                    summary_remaining_amount :=
                      (BorrowedMoney.amount b - BorrowedMoney.repaid_amount b)%Q;
                    summary_payments := payments_;
                    summary_total_paid := BorrowedMoney.repaid_amount b;
                    summary_total_remaining :=
                      (BorrowedMoney.amount b - BorrowedMoney.repaid_amount b)%Q;
                    summary_payment_count := List.length payments_ |}
         end
     end)
    (json 500 "Server error while fetching borrowed money record" NoPayload).

(** X19. The route [GET /api/borrowed-money/overdue] is declared after
    [GET /api/borrowed-money/:id], so no request ever reaches its handler:
    the path [/overdue] is served by the handler of [/:id] with the id
    ['overdue'], and as that is not a valid ObjectId the answer is the 500
    of that handler, whatever the store. *)
Theorem overdue_route_is_shadowed (user : ObjectId) (s : Store) :
  castObjectId "overdue" = None ->
  (forall path, borrowed_money_get path <> Some get_overdue)
  /\ borrowed_money_get ["overdue"%string] = Some get_record
  /\ get_borrowed_money_by_id user "overdue" s
     = (s, inr (json 500 "Server error while fetching borrowed money record" NoPayload)).
Proof.
  intro Hcast. split; [|split].
  - intros [|x [|y [|z r]]]; unfold borrowed_money_get; simpl; try discriminate.
    + destruct (x =? "")%string eqn:E; simpl; [|discriminate].
      apply String.eqb_eq in E. subst x. simpl. discriminate.
    + rewrite !andb_true_r, !andb_false_r.
      repeat match goal with
             | |- context [if ?c then _ else _] => destruct c; simpl; try discriminate
             end.
    + rewrite !andb_false_r. simpl. discriminate.
  - reflexivity.
  - unfold get_borrowed_money_by_id, try_catch_json. rewrite Hcast. reflexivity.
Qed.

End RecordById.

(** X19, witness: the cast of the examples refuses ['overdue']. *)
Lemma overdue_route_is_shadowed_witness :
  (forall path, borrowed_money_get path <> Some get_overdue)
  /\ borrowed_money_get ["overdue"%string] = Some get_record
  /\ get_borrowed_money_by_id demo_cast (fun l => l) 7 "overdue" loan_repaid_400
     = (loan_repaid_400,
        inr (json 500 "Server error while fetching borrowed money record" NoPayload)).
Proof.
  exact (overdue_route_is_shadowed demo_cast (fun l => l) 7 loan_repaid_400 eq_refl).
Defined.

(** ** What an update of a record cannot change *)

(** The paths of a borrowed-money record that [PUT /api/borrowed-money/:id]
    leaves out of its update document, with the id and the owner. *)
Definition loan_progress (b : BorrowedMoney.t)
    : ObjectId * ObjectId * Q * BorrowedMoney.Status :=
  (BorrowedMoney._id b, BorrowedMoney.user_id b, BorrowedMoney.repaid_amount b,
   BorrowedMoney.status b).

Section PutBorrowedMoney.

Variable castObjectId : string -> option ObjectId.

(** X20. Whatever the request, [PUT /api/borrowed-money/:id] keeps the id,
    the owner, the repaid amount and the status of every record, in the
    order of the collection, and leaves the payments alone: an edit of the
    principal does not bring the repaid amount or the status in line with
    it. *)
Theorem put_borrowed_money_keeps_progress (s : Store) (user : ObjectId) (id : string)
    (body : BorrowedMoneyBody.t) :
  map loan_progress (borrowedMoney (fst (put_borrowed_money castObjectId user id body s)))
  = map loan_progress (borrowedMoney s)
  /\ payments (fst (put_borrowed_money castObjectId user id body s)) = payments s.
Proof.
  unfold put_borrowed_money. run_handler.
  destruct (castObjectId id) as [rid|]; [|split; reflexivity].
  destruct (negb _); [split; reflexivity|].
  destruct (findOne _ _) as [b|]; [|split; reflexivity].
  split; [|reflexivity]. simpl. apply map_update_first. reflexivity.
Qed.

End PutBorrowedMoney.

(** ** routes/expenses.js: the analytics summary *)

From Stdlib Require Import Sorted Permutation.

Definition mode_eqb (a b : Expense.Mode) : bool :=
  match a, b with
  | Expense.cash, Expense.cash
  | Expense.credit_card, Expense.credit_card
  | Expense.borrowed, Expense.borrowed => true
  | _, _ => false
  end.

Definition month_eqb (a b : Z * Z) : bool :=
  ((fst a =? fst b) && (snd a =? snd b))%Z.

(** The order of [{ $sort: { '_id.year': 1, '_id.month': 1 } }]. *)
Definition month_leb (a b : Z * Z) : bool :=
  ((fst a <? fst b) || ((fst a =? fst b) && (snd a <=? snd b)))%Z.

(** [{ $sum: '$amount' }] over the expenses, in the order of the collection. *)
Definition sum_expenses (l : list Expense.t) : Q :=
  fold_left (fun acc e => (acc + Expense.amount e)%Q) l 0%Q.

(** A group of [{ $group: { _id: '$category_id', total, count } }]. *)
Record CategoryGroup : Type := {
  category_group_id : ObjectId;
  category_total : Q;
  category_count : nat
}.

(** A row of [by_category], after [$lookup], [$unwind] and [$project]. *)
Record CategoryRow : Type := {
  row_id : ObjectId;
  row_total : Q;
  row_count : nat;
  category_name : string;
  category_color : string;
  category_icon : string
}.

(** A group of [{ $group: { _id: '$payment_mode', total, count } }]. *)
Record ModeGroup : Type := {
  mode_group_id : Expense.Mode;
  mode_total : Q;
  mode_count : nat
}.

(** A group of [{ $group: { _id: { year, month }, total } }]. *)
Record MonthGroup : Type := {
  month_group_id : Z * Z;
  month_total : Q
}.

Record Analytics : Type := {
  analytics_total_amount : Q;
  analytics_total_count : nat;
  by_category : list CategoryRow;
  by_payment_mode : list ModeGroup;
  monthly_trend : list MonthGroup
}.

(** [{ $lookup: { from: 'categories', localField: '_id', foreignField:
    '_id', as: 'category' } }, { $unwind: '$category' }, { $project }]: one
    row for each category under the id of the group, none when there is
    no such category. *)
Definition joined_with_category (cats : list Category.t) (g : CategoryGroup)
    : list CategoryRow :=
  map (fun c => {| row_id := category_group_id g;
                   row_total := category_total g;
                   row_count := category_count g;
                   category_name := Category.name c;
                   category_color := Category.color c;
                   category_icon := Category.icon c |})
      (filter (fun c => Category._id c =? category_group_id g) cats).

(** The ascending sort of the months; the groups have distinct keys. *)
Fixpoint insert_month (g : MonthGroup) (l : list MonthGroup) : list MonthGroup :=
  match l with
  | [] => [g]
  | h :: r =>
      if month_leb (month_group_id g) (month_group_id h) then g :: h :: r
      else h :: insert_month g r
  end.

Definition sort_months (l : list MonthGroup) : list MonthGroup :=
  fold_right insert_month [] l.

(** The filter of the analytics: the caller's expenses within the optional
    date range. *)
Definition analytics_filter (user : ObjectId) (start_date end_date : option Z)
    (e : Expense.t) : bool :=
  (Expense.user_id e =? user) && in_range start_date end_date (Expense.date e).

Section Analytics.

(** [$year] and [$month] of a date. *)
Variable year_month : Z -> Z * Z.

(** [{ $sort: { total: -1 } }]; the order among equal totals is the
    database's. *)
Variable sort_by_total_desc : forall A : Type, (A -> Q) -> list A -> list A.

Definition group_by_category (l : list Expense.t) : list CategoryGroup :=
  group_by Expense.category_id Nat.eqb category_group_id
    (fun e => {| category_group_id := Expense.category_id e;
                 category_total := (0 + Expense.amount e)%Q;
                 category_count := 1 |})
    (fun g e => {| category_group_id := category_group_id g;
                   category_total := (category_total g + Expense.amount e)%Q;
                   category_count := S (category_count g) |})
    l.

Definition group_by_payment_mode (l : list Expense.t) : list ModeGroup :=
  group_by Expense.payment_mode mode_eqb mode_group_id
    (fun e => {| mode_group_id := Expense.payment_mode e;
                 mode_total := (0 + Expense.amount e)%Q;
                 mode_count := 1 |})
    (fun g e => {| mode_group_id := mode_group_id g;
                   mode_total := (mode_total g + Expense.amount e)%Q;
                   mode_count := S (mode_count g) |})
    l.

Definition open_month (e : Expense.t) : MonthGroup :=
  {| month_group_id := year_month (Expense.date e);
     month_total := (0 + Expense.amount e)%Q |}.

Definition add_to_month (g : MonthGroup) (e : Expense.t) : MonthGroup :=
  {| month_group_id := month_group_id g;
     month_total := (month_total g + Expense.amount e)%Q |}.

Definition group_by_month (l : list Expense.t) : list MonthGroup :=
  group_by (fun e => year_month (Expense.date e)) month_eqb month_group_id
           open_month add_to_month l.

(** [GET /api/expenses/analytics/summary]; an absent or empty query
    parameter is [None]. *)
Definition get_expenses_analytics_summary (user : ObjectId)
    (start_date end_date : option Z) : Report Analytics :=
  try_catch_json
    (matching_ <- read (fun s => filter (analytics_filter user start_date end_date)
                                        (expenses s)) ;;
     let totalExpenses :=
       match matching_ with [] => [] | _ => [sum_expenses matching_] end in
     cats <- read categories ;;
     let expensesByCategory :=
       sort_by_total_desc CategoryRow row_total
         (flat_map (joined_with_category cats) (group_by_category matching_)) in
     let expensesByPaymentMode :=
       sort_by_total_desc ModeGroup mode_total (group_by_payment_mode matching_) in
     let monthlyTrend := firstn 12 (sort_months (group_by_month matching_)) in
     ret {| analytics_total_amount := num_or_zero (hd_error totalExpenses);
            analytics_total_count := List.length matching_;
            by_category := expensesByCategory;
            by_payment_mode := expensesByPaymentMode;
            monthly_trend := monthlyTrend |})
    (json 500 "Server error while fetching analytics" NoPayload).

End Analytics.

(** *** The months of the trend *)

Lemma month_eqb_eq (a b : Z * Z) : month_eqb a b = true <-> a = b.
Proof.
  destruct a as [y m], b as [y' m']. unfold month_eqb. simpl.
  rewrite andb_true_iff, !Z.eqb_eq. split; [intros [-> ->]; reflexivity|].
  intro H. injection H as -> ->. auto.
Qed.

Lemma month_leb_total (a b : Z * Z) : month_leb a b = false -> month_leb b a = true.
Proof.
  destruct a as [y m], b as [y' m']. unfold month_leb. simpl.
  rewrite orb_false_iff, andb_false_iff, orb_true_iff, andb_true_iff.
  rewrite Z.ltb_ge, Z.ltb_lt, !Z.eqb_neq, Z.eqb_eq, Z.leb_gt, Z.leb_le. lia.
Qed.

Lemma month_leb_trans (a b c : Z * Z) :
  month_leb a b = true -> month_leb b c = true -> month_leb a c = true.
Proof.
  destruct a as [y m], b as [y' m'], c as [y2 m2]. unfold month_leb. simpl.
  rewrite !orb_true_iff, !andb_true_iff, !Z.ltb_lt, !Z.eqb_eq, !Z.leb_le. lia.
Qed.

Lemma month_leb_antisym (a b : Z * Z) :
  month_leb a b = true -> month_leb b a = true -> a = b.
Proof.
  destruct a as [y m], b as [y' m']. unfold month_leb. simpl.
  rewrite !orb_true_iff, !andb_true_iff, !Z.ltb_lt, !Z.eqb_eq, !Z.leb_le.
  intros H1 H2. f_equal; lia.
Qed.

(** [g] comes no later than [h]. *)
Definition month_before (g h : MonthGroup) : Prop :=
  month_leb (month_group_id g) (month_group_id h) = true.

Lemma insert_month_perm (g : MonthGroup) (l : list MonthGroup) :
  Permutation (insert_month g l) (g :: l).
Proof.
  induction l as [|h r IH]; simpl; [reflexivity|].
  destruct (month_leb _ _); [reflexivity|].
  rewrite IH. apply perm_swap.
Qed.

Lemma sort_months_perm (l : list MonthGroup) : Permutation (sort_months l) l.
Proof.
  induction l as [|g r IH]; simpl; [reflexivity|].
  rewrite insert_month_perm. constructor. exact IH.
Qed.

Lemma insert_month_sorted (g : MonthGroup) (l : list MonthGroup) :
  StronglySorted month_before l -> StronglySorted month_before (insert_month g l).
Proof.
  intro H. induction H as [|h r Hr IH Hh]; simpl.
  - repeat constructor.
  - destruct (month_leb (month_group_id g) (month_group_id h)) eqn:E.
    + constructor; [constructor; assumption|].
      constructor; [exact E|].
      rewrite Forall_forall in *. intros x Hx.
      exact (month_leb_trans _ _ _ E (Hh x Hx)).
    + constructor; [exact IH|].
      rewrite Forall_forall in *. intros x Hx.
      apply (Permutation_in _ (insert_month_perm g r)) in Hx.
      destruct Hx as [<-|Hx]; [exact (month_leb_total _ _ E) | exact (Hh x Hx)].
Qed.

Lemma sort_months_sorted (l : list MonthGroup) :
  StronglySorted month_before (sort_months l).
Proof.
  induction l as [|g r IH]; simpl; [constructor|].
  apply insert_month_sorted, IH.
Qed.

Lemma sorted_split {A : Type} (R : A -> A -> Prop) (l1 l2 : list A) (a b : A) :
  StronglySorted R (l1 ++ l2) -> In a l1 -> In b l2 -> R a b.
Proof.
  induction l1 as [|x r IH]; simpl; [tauto|].
  intros H Ha Hb. inversion H as [|? ? Hs Hall]; subst.
  destruct Ha as [<-|Ha]; [|exact (IH Hs Ha Hb)].
  rewrite Forall_forall in Hall. apply Hall. apply in_or_app. right. exact Hb.
Qed.

Lemma NoDup_split {A : Type} (l1 l2 : list A) (a : A) :
  NoDup (l1 ++ l2) -> In a l1 -> In a l2 -> False.
Proof.
  induction l1 as [|x r IH]; simpl; [tauto|].
  intros H Ha Hb. inversion H as [|? ? Hnot Hnd]; subst.
  destruct Ha as [<-|Ha]; [|exact (IH Hnd Ha Hb)].
  apply Hnot. apply in_or_app. right. exact Hb.
Qed.

Section GroupKeys.

Variables A K G : Type.
Variable key : A -> K.
Variable key_eqb : K -> K -> bool.
Variable group_key : G -> K.
Variable open_group : A -> G.
Variable accumulate : G -> A -> G.

Hypothesis key_eqb_eq : forall a b, key_eqb a b = true <-> a = b.
Hypothesis open_group_key : forall x, group_key (open_group x) = key x.
Hypothesis accumulate_key : forall g x, group_key (accumulate g x) = group_key g.

Lemma fold_add_to_keys (k : K) (l : list A) (gs : list G) :
  In k (map group_key
          (fold_left (fun gs x => add_to key key_eqb group_key open_group accumulate x gs)
                     l gs))
  <-> In k (map group_key gs) \/ In k (map key l).
Proof.
  revert gs. induction l as [|x r IH]; simpl; intro gs; [tauto|].
  rewrite IH, (add_to_keys _ _ _ key key_eqb group_key open_group accumulate)
    by assumption.
  destruct (existsb _ gs) eqn:E; cbv iota.
  - apply existsb_exists in E. destruct E as [g [Hg Hk]]. apply key_eqb_eq in Hk.
    split; [tauto|]. intros [H|[<-|H]]; auto.
    left. rewrite <- Hk. apply in_map. exact Hg.
  - rewrite in_app_iff. simpl. tauto.
Qed.

Lemma group_by_keys (k : K) (l : list A) :
  In k (map group_key (group_by key key_eqb group_key open_group accumulate l))
  <-> In k (map key l).
Proof. unfold group_by. rewrite fold_add_to_keys. simpl. tauto. Qed.

End GroupKeys.

Section MonthlyTrend.

Variable year_month : Z -> Z * Z.
Variable sort_by_total_desc : forall A : Type, (A -> Q) -> list A -> list A.

Lemma group_by_month_NoDup (l : list Expense.t) :
  NoDup (map month_group_id (group_by_month year_month l)).
Proof.
  unfold group_by_month, group_by.
  apply group_by_NoDup; try exact month_eqb_eq; try reflexivity. constructor.
Qed.

Lemma group_by_month_keys (k : Z * Z) (l : list Expense.t) :
  In k (map month_group_id (group_by_month year_month l))
  <-> exists e, In e l /\ year_month (Expense.date e) = k.
Proof.
  unfold group_by_month.
  rewrite group_by_keys by (try exact month_eqb_eq; reflexivity).
  rewrite in_map_iff. split; intros [e [H1 H2]]; exists e; auto.
Qed.

(** X21. [GET /api/expenses/analytics/summary] writes nothing, and its
    monthly trend holds at most twelve months, each one a month of a
    matching expense of the caller, and these are the earliest ones: a
    month of a matching expense that the trend leaves out is later than
    every month in the trend. *)
Theorem monthly_trend_keeps_earliest (s : Store) (user : ObjectId)
    (start_date end_date : option Z) :
  exists r,
    get_expenses_analytics_summary year_month sort_by_total_desc user
      start_date end_date s = (s, inl r)
    /\ List.length (monthly_trend r) <= 12
    /\ (forall g, In g (monthly_trend r) ->
          exists e, In e (expenses s)
                    /\ analytics_filter user start_date end_date e = true
                    /\ year_month (Expense.date e) = month_group_id g)
    /\ (forall e, In e (expenses s) ->
          analytics_filter user start_date end_date e = true ->
          In (year_month (Expense.date e)) (map month_group_id (monthly_trend r))
          \/ forall g, In g (monthly_trend r) ->
               month_leb (month_group_id g) (year_month (Expense.date e)) = true
               /\ month_group_id g <> year_month (Expense.date e)).
Proof.
  eexists. split; [reflexivity|]. cbn [monthly_trend].
  set (l := filter (analytics_filter user start_date end_date) (expenses s)).
  set (sorted := sort_months (group_by_month year_month l)).
  assert (Permutation sorted (group_by_month year_month l)) as Hperm
    by apply sort_months_perm.
  assert (StronglySorted month_before sorted) as Hsorted by apply sort_months_sorted.
  assert (NoDup (map month_group_id sorted)) as Hnd.
  { apply (Permutation_NoDup (l := map month_group_id (group_by_month year_month l))).
    - apply Permutation_map. symmetry. exact Hperm.
    - apply group_by_month_NoDup. }
  split; [apply firstn_le_length|]. split.
  - intros g Hg.
    assert (In (month_group_id g) (map month_group_id (group_by_month year_month l)))
      as Hk.
    { apply in_map. apply (Permutation_in _ Hperm).
      rewrite <- (firstn_skipn 12 sorted). apply in_or_app. left. exact Hg. }
    apply group_by_month_keys in Hk. destruct Hk as [e [He Hm]].
    apply filter_In in He. destruct He as [He Hf]. exists e. auto.
  - intros e He Hf.
    assert (In (year_month (Expense.date e))
               (map month_group_id (group_by_month year_month l))) as Hk.
    { apply group_by_month_keys. exists e. split; [|reflexivity].
      apply filter_In. auto. }
    apply in_map_iff in Hk. destruct Hk as [g' [Hid Hg']].
    apply (Permutation_in _ (Permutation_sym Hperm)) in Hg'.
    rewrite <- (firstn_skipn 12 sorted) in Hg', Hsorted, Hnd.
    apply in_app_or in Hg'. destruct Hg' as [Hg'|Hg'].
    + left. rewrite <- Hid. apply in_map. exact Hg'.
    + right. intros g Hg. rewrite <- Hid. split.
      * exact (sorted_split month_before _ _ g g' Hsorted Hg Hg').
      * intro E. rewrite map_app in Hnd.
        apply (NoDup_split _ _ (month_group_id g) Hnd).
        -- apply in_map. exact Hg.
        -- rewrite E. apply in_map. exact Hg'.
Qed.

End MonthlyTrend.

(** ** An expense request touches only the caller's expenses *)


(** A computation that writes nothing. *)
Definition quiet {A : Type} (h : Handler A) : Prop := forall s, fst (h s) = s.

Lemma quiet_ret {A : Type} (a : A) : quiet (ret a).
Proof. intro s. reflexivity. Qed.

Lemma after_quiet {A : Type} (h : Handler unit) (k : Handler A) (P : Store -> Prop)
    (s : Store) :
  quiet h -> P s -> P (fst (k s)) -> P (fst ((h ;;; k) s)).
Proof.
  intros Hq Hs Hk. unfold bind. specialize (Hq s).
  destruct (h s) as [s1 [[]|r|]]; simpl in Hq; subst s1; assumption.
Qed.


Section ExpenseIsolation.

Variable castObjectId : string -> option ObjectId.

Lemma quiet_check_category (user : ObjectId) (v : JsStr) :
  quiet (check_category castObjectId user v).
Proof.
  intro s. destruct (check_category_cases castObjectId user v s)
    as [[-> _] | (r & -> & _)]; reflexivity.
Qed.

Lemma quiet_check_reference {A : Type} (missing : bool) (v : JsStr)
    (lookup : ObjectId -> Store -> option A) (m1 m2 m3 field : string) :
  quiet (check_reference castObjectId missing v lookup m1 m2 m3 field).
Proof.
  intro s. destruct (check_reference_cases castObjectId missing v lookup m1 m2 m3 field s)
    as [(-> & _) | (r & -> & _)]; reflexivity.
Qed.



(** What [PUT /api/expenses/:id] does once the expense is found: the three
    checks write nothing, and the update, when it passes the validators,
    rewrites the first expense with the id. *)
Lemma put_expenses_store (s : Store) (u eid : ObjectId) (id : string)
    (body : ExpenseBody.t) (old : Expense.t) :
  castObjectId id = Some eid ->
  findOne (expense_owned eid u) (expenses s) = Some old ->
  (exists r, put_expenses castObjectId u id body s = (s, r) /\ code r <> 200)
  \/ (expense_update_valid castObjectId (updateData body) = true
      /\ put_expenses castObjectId u id body s
         = (with_expenses
              (update_first (expense_by_id eid)
                 (expense_apply_update castObjectId (updateData body))) s,
            json 200 "Expense updated successfully"
              (ExpenseDoc (expense_apply_update castObjectId (updateData body) old)))).
Proof.
  intros Hid Hold.
  destruct (put_expenses castObjectId u id body s) as [s' r'] eqn:Hrun.
  unfold put_expenses, try_catch in Hrun. rewrite Hid in Hrun.
  unfold bind at 1 in Hrun. unfold read at 1 in Hrun. rewrite Hold in Hrun.
  unfold bind at 1 in Hrun.
  match type of Hrun with
  | context [(if ?c then check_category castObjectId u ?v else ret tt) s] =>
      assert ((if c then check_category castObjectId u v else ret tt) s = (s, Next tt)
              \/ exists r, (if c then check_category castObjectId u v else ret tt) s
                           = (s, Sent r) /\ code r = 400) as H1
        by (destruct c; [|left; reflexivity];
            destruct (check_category_cases castObjectId u v s) as [[E _] | H];
            [left; exact E | right; exact H]);
      destruct H1 as [H1 | (r & H1 & Hr)]; rewrite H1 in Hrun
  end.
  2:{ injection Hrun as <- <-. left. exists r.
      split; [reflexivity | rewrite Hr; discriminate]. }
  unfold bind at 1 in Hrun.
  match type of Hrun with
  | context [(if ?c then check_credit_card castObjectId u ?m ?v else ret tt) s] =>
      assert ((if c then check_credit_card castObjectId u m v else ret tt) s = (s, Next tt)
              \/ exists r, (if c then check_credit_card castObjectId u m v else ret tt) s
                           = (s, Sent r) /\ code r = 400) as H2
        by (destruct c; [|left; reflexivity]; unfold check_credit_card;
            match goal with
            | |- context [check_reference _ ?mi ?vi ?l ?m1 ?m2 ?m3 ?f s] =>
                destruct (check_reference_cases castObjectId mi vi l m1 m2 m3 f s)
                  as [[E _] | H]
            end; [left; exact E | right; exact H]);
      destruct H2 as [H2 | (r & H2 & Hr)]; rewrite H2 in Hrun
  end.
  2:{ injection Hrun as <- <-. left. exists r.
      split; [reflexivity | rewrite Hr; discriminate]. }
  unfold bind at 1 in Hrun.
  match type of Hrun with
  | context [(if ?c then check_borrowed castObjectId u ?m ?v else ret tt) s] =>
      assert ((if c then check_borrowed castObjectId u m v else ret tt) s = (s, Next tt)
              \/ exists r, (if c then check_borrowed castObjectId u m v else ret tt) s
                           = (s, Sent r) /\ code r = 400) as H3
        by (destruct c; [|left; reflexivity]; unfold check_borrowed;
            match goal with
            | |- context [check_reference _ ?mi ?vi ?l ?m1 ?m2 ?m3 ?f s] =>
                destruct (check_reference_cases castObjectId mi vi l m1 m2 m3 f s)
                  as [[E _] | H]
            end; [left; exact E | right; exact H]);
      destruct H3 as [H3 | (r & H3 & Hr)]; rewrite H3 in Hrun
  end.
  2:{ injection Hrun as <- <-. left. exists r.
      split; [reflexivity | rewrite Hr; discriminate]. }
  cbv zeta in Hrun.
  destruct (expense_update_valid castObjectId (updateData body)) eqn:Ev;
    cbn [negb] in Hrun; cbv iota in Hrun.
  - right. split; [reflexivity|]. rewrite <- Hrun. reflexivity.
  - injection Hrun as <- <-. left. eexists. split; [reflexivity | discriminate].
Qed.


(** The update whose body names another user [v] under [user_id] hands the
    expense over: when it is answered 200, the expense it returns and stores
    belongs to [v]. *)
Lemma put_expenses_hands_over (s : Store) (u v eid : ObjectId) (id w : string)
    (body : ExpenseBody.t) (old : Expense.t) :
  NoDup (map Expense._id (expenses s)) ->
  castObjectId id = Some eid ->
  findOne (expense_owned eid u) (expenses s) = Some old ->
  ExpenseBody.user_id body = JString w ->
  castObjectId w = Some v ->
  let (s', r) := put_expenses castObjectId u id body s in
  code r = 200 ->
  exists e',
    payload r = ExpenseDoc e'
    /\ Expense._id e' = eid /\ Expense.user_id e' = v /\ In e' (expenses s').
Proof.
  intros Hnd Hid Hold Hw Hv.
  destruct (put_expenses_store s u eid id body old Hid Hold)
    as [(r & -> & Hr) | [_ ->]]; [intro H; contradiction|].
  intros _. eexists. split; [reflexivity|].
  apply find_some in Hold. destruct Hold as [Hin Hown].
  unfold expense_owned in Hown. apply andb_true_iff in Hown.
  destruct Hown as [Hi _]. apply Nat.eqb_eq in Hi.
  split; [exact Hi|]. split.
  - cbn [Expense.user_id expense_apply_update updateData ExpenseBody.user_id].
    rewrite Hw. cbn [cast_field]. rewrite Hv. reflexivity.
  - simpl expenses. revert Hnd Hin.
    induction (expenses s) as [|x l IH]; intros Hnd Hin; [contradiction|].
    simpl. unfold expense_by_id at 1.
    destruct (Expense._id x =? eid) eqn:E.
    + apply Nat.eqb_eq in E. left.
      assert (x = old) as ->
        by (apply (NoDup_map_eq Expense._id (x :: l)); simpl; auto; congruence).
      reflexivity.
    + right. destruct Hin as [-> | Hin]; [rewrite Hi, Nat.eqb_refl in E; discriminate|].
      apply IH; [inversion Hnd; assumption | exact Hin].
Qed.

End ExpenseIsolation.


(** [PUT /api/expenses/:id] with the body [{ user_id: v }]. *)
Definition owner_only (v : string) : ExpenseBody.t :=
  {| ExpenseBody.user_id := JString v;
     ExpenseBody.amount := None; ExpenseBody.category_id := JUndefined;
     ExpenseBody.payment_mode := None; ExpenseBody.credit_card_id := JUndefined;
     ExpenseBody.borrowed_id := JUndefined; ExpenseBody.date := None;
     ExpenseBody.note := None; ExpenseBody.is_recurring := None;
     ExpenseBody.recurring_frequency := None |}.

(** User 7 updates the expense 1, theirs, with the id of user 8 under
    [user_id]: the request is answered 200 and the expense is now one of
    user 8. *)
Example expense_handed_to_another_user :
  let (s', r) := put_expenses demo_cast 7 "e1" (owner_only "u8") one_expense in
  code r = 200
  /\ map (fun e => (Expense._id e, Expense.user_id e)) (expenses one_expense) = [(1, 7)]
  /\ map (fun e => (Expense._id e, Expense.user_id e)) (expenses s') = [(1, 8)].
Proof. vm_compute. repeat split; reflexivity. Qed.

(** ** A card is deleted without a look at its payments *)

Definition card_by_id (id : ObjectId) (c : CreditCard.t) : bool := CreditCard._id c =? id.

Lemma delete_first_removes {A K : Type} (key : A -> K) (p : A -> bool) (l : list A)
    (c x : A) :
  NoDup (map key l) -> find p l = Some c -> In x (delete_first p l) -> key x <> key c.
Proof.
  induction l as [|y r IH]; simpl; [discriminate|].
  intros Hnd Hfind Hx. inversion Hnd as [|? ? Hnot Hnd']; subst.
  destruct (p y) eqn:E.
  - injection Hfind as <-. intro Hk. apply Hnot. rewrite <- Hk. apply in_map. exact Hx.
  - destruct Hx as [<-|Hx]; [|exact (IH Hnd' Hfind Hx)].
    intro Hk. apply Hnot. rewrite Hk. apply in_map.
    apply find_some in Hfind. apply Hfind.
Qed.

Section CardPayments.

Variable castObjectId : string -> option ObjectId.

(** X23. After [POST /api/payments] has recorded (201) a payment of type
    ['credit_card'] against a card, [DELETE /api/credit-cards/:id] of the
    same user for that card, when no expense of the user is charged to it,
    answers 200: the card is gone and the payment stays, with its reference
    to the deleted card. The cards of the store have distinct ids. *)
Theorem card_payment_outlives_card (s : Store) (user : ObjectId) (now : Z)
    (body : PaymentBody.t) (id : string) (cid : ObjectId) :
  NoDup (map CreditCard._id (creditCards s)) ->
  PaymentBody.type body = Some "credit_card"%string ->
  cast_field castObjectId (PaymentBody.reference_id body) = Some cid ->
  castObjectId id = Some cid ->
  existsb (charged_to cid user) (expenses s) = false ->
  let (s1, r1) := post_payments castObjectId user now body s in
  code r1 = 201 ->
  let (s2, r2) := delete_credit_cards castObjectId user id s1 in
  r2 = json 200 "Credit card deleted successfully" NoPayload
  /\ findOne (card_by_id cid) (creditCards s2) = None
  /\ payments s2 = payments s1
  /\ exists p, In p (payments s2)
               /\ Payment.type p = Payment.credit_card
               /\ Payment.reference_id p = cid
               /\ Payment.user_id p = user.
Proof.
  intros Hnd Hty Href Hid Hnone.
  pose proof (post_payments_cases castObjectId s user now body) as H.
  pose proof (post_payments_elsewhere castObjectId s user now body) as [Hcards Hexp].
  destruct (post_payments castObjectId user now body s) as [s1 r1]. simpl fst in *.
  intro Hcode.
  destruct H as [[_ (p & Hp & _ & _ & Hu & Hr & _ & Hk)] | [[E|E] _]];
    [|rewrite Hcode in E; discriminate..].
  rewrite Href in Hr. injection Hr as Hr.
  destruct (Payment.type p) eqn:Ek; [|destruct Hk as [Hk _]; congruence].
  destruct Hk as (_ & Hcard & _). rewrite <- Hr in Hcard.
  destruct (findOne (card_owned cid user) (creditCards s)) as [c|] eqn:Hc;
    [clear Hcard|congruence].
  unfold delete_credit_cards, try_catch. rewrite Hid.
  unfold bind at 1. unfold read at 1. rewrite Hexp, Hnone.
  unfold reject_if, ret at 1. unfold bind at 1. unfold bind at 1. unfold read at 1.
  rewrite Hcards, Hc. unfold bind, write, ret.
  split; [reflexivity|]. split; [|split; [reflexivity|]].
  - simpl creditCards. rewrite Hcards. unfold findOne in *. apply find_none_of.
    intros x Hx. unfold card_by_id. apply Nat.eqb_neq.
    pose proof (delete_first_removes CreditCard._id _ _ c x Hnd Hc Hx) as Hne.
    apply find_some in Hc. destruct Hc as [_ Hown]. unfold card_owned in Hown.
    apply andb_true_iff in Hown. destruct Hown as [Hi _]. apply Nat.eqb_eq in Hi.
    congruence.
  - exists p. simpl payments. rewrite Hp. split; [apply in_or_app; right; left; reflexivity|].
    auto.
Qed.

End CardPayments.

(** [{ type: 'credit_card', reference_id: 'k5', amount: 100 }] *)
Definition payment_on_card : PaymentBody.t :=
  {| PaymentBody.type := Some "credit_card"%string;
     PaymentBody.reference_id := JString "k5";
     PaymentBody.amount := Some 100%Q; PaymentBody.payment_date := None;
     PaymentBody.note := None; PaymentBody.payment_method := None |}.

(** X23, witness: user 7 pays 100 against the card 5 and deletes the card. *)
Lemma card_payment_outlives_card_witness :
  let (s2, r2) := delete_credit_cards demo_cast 7 "k5"
                    (fst (post_payments demo_cast 7 9%Z payment_on_card one_card)) in
  r2 = json 200 "Credit card deleted successfully" NoPayload
  /\ findOne (card_by_id 5) (creditCards s2) = None
  /\ payments s2 = payments (fst (post_payments demo_cast 7 9%Z payment_on_card one_card))
  /\ exists p, In p (payments s2)
               /\ Payment.type p = Payment.credit_card
               /\ Payment.reference_id p = 5
               /\ Payment.user_id p = 7.
Proof.
  generalize (card_payment_outlives_card demo_cast one_card 7 9%Z payment_on_card
                "k5" 5 (NoDup_cons 5 (fun H : In 5 [] => H) (NoDup_nil _))
                eq_refl eq_refl eq_refl eq_refl).
  destruct (post_payments demo_cast 7 9%Z payment_on_card one_card) as [s1 r1] eqn:E.
  intro W. apply W. vm_compute in E. injection E as <- <-. reflexivity.
Defined.

(** * The repay action on the numbers of the engine

    In the embedding above an amount is an exact rational, and the body of a
    request holds a number under [amount]. The engine computes on IEEE 754
    binary64 numbers, and a body holds whatever JSON value the client sent.
    The repay action is where the difference shows: its guard subtracts,
    its write adds, and nothing clamps the sum. This part embeds
    [POST /api/borrowed-money/:id/repay] again, on the numbers and the
    values of the engine: a number is a [float] with the operations of the
    processor, and the amount of the body is a JavaScript value. *)

Set Warnings "-inexact-float".

Module Binary64.

Import PrimFloat.

(** ** JavaScript values and their conversions *)

(** A value of a JSON or URL-encoded body. [JSObject] is an array or an
    object, with the string that [ToPrimitive] converts it to. *)
Inductive JsValue : Type :=
| JSUndefined
| JSNull
| JSBoolean (b : bool)
| JSNumber (x : float)
| JSString (s : string)
| JSObject (s : string).

(** [!v] is [negb (ToBoolean v)]. *)
Definition ToBoolean (v : JsValue) : bool :=
  match v with
  | JSUndefined | JSNull => false
  | JSBoolean b => b
  | JSNumber x => negb (is_zero x || is_nan x)
  | JSString s => negb (s =? "")%string
  | JSObject _ => true
  end.

Section Conversions.

(** The conversions between strings and numbers are those of the engine:
    [Number(s)] and [String(x)]. *)
Variable StringToNumber : string -> float.
Variable NumberToString : float -> string.

Definition ToNumber (v : JsValue) : float :=
  match v with
  | JSUndefined => nan
  | JSNull => zero
  | JSBoolean b => if b then one else zero
  | JSNumber x => x
  | JSString s | JSObject s => StringToNumber s
  end.

(** [x + v] for a number [x]: a string on the right makes it a concatenation. *)
Definition plus (x : float) (v : JsValue) : JsValue :=
  match v with
  | JSString s | JSObject s => JSString (NumberToString x ++ s)
  | _ => JSNumber (x + ToNumber v)%float
  end.

(** Mongoose's cast of a value to a [Number] path. The outer [None] is a
    CastError; [Some None] is null. *)
Definition castNumber (v : JsValue) : option (option float) :=
  match v with
  | JSUndefined | JSNull => Some None
  | JSBoolean b => Some (Some (if b then one else zero))
  | JSNumber x => if is_nan x then None else Some (Some x)
  | JSString s =>
      if (s =? "")%string then Some None
      else if is_nan (StringToNumber s) then None
      else Some (Some (StringToNumber s))
  | JSObject _ => None
  end.

End Conversions.

(** ** Models *)

Module BorrowedMoney.

Record t : Type := {
  _id : ObjectId;
  user_id : ObjectId;
  name : string;
  phone : option string;
  amount : float;
  type : BorrowedMoney.Kind;
  status : BorrowedMoney.Status;
  note : option string;
  repaid_amount : float
}.

(** The update [{ repaid_amount: r, status: st }], once cast. *)
Definition set_repaid_status (r : float) (st : BorrowedMoney.Status) (b : t) : t :=
  {| _id := _id b; user_id := user_id b; name := name b; phone := phone b;
     amount := amount b; type := type b; status := st; note := note b;
     repaid_amount := r |}.

End BorrowedMoney.

Module Payment.

Record t : Type := {
  _id : ObjectId;
  user_id : ObjectId;
  type : Payment.Kind;
  reference_id : ObjectId;
  amount : float;
  payment_date : Z;
  note : option string;
  payment_method : string
}.

End Payment.

Record Store : Type := {
  borrowedMoney : list BorrowedMoney.t;
  payments : list Payment.t;
  next_id : ObjectId
}.

Definition with_borrowedMoney (f : list BorrowedMoney.t -> list BorrowedMoney.t)
    (s : Store) : Store :=
  {| borrowedMoney := f (borrowedMoney s); payments := payments s;
     next_id := next_id s |}.

Definition with_payments (f : list Payment.t -> list Payment.t) (s : Store) : Store :=
  {| borrowedMoney := borrowedMoney s; payments := f (payments s);
     next_id := next_id s |}.

Definition with_next_id (n : ObjectId) (s : Store) : Store :=
  {| borrowedMoney := borrowedMoney s; payments := payments s; next_id := n |}.

Definition borrowed_by_id (id : ObjectId) (b : BorrowedMoney.t) : bool :=
  BorrowedMoney._id b =? id.

Definition borrowed_owned (id user : ObjectId) (b : BorrowedMoney.t) : bool :=
  (BorrowedMoney._id b =? id) && (BorrowedMoney.user_id b =? user).

(** ** Responses *)

Inductive Message : Type :=
| Msg (s : string)
| RepayExceeds (amount : JsValue) (remaining : float).

Inductive Payload : Type :=
| NoPayload
| RemainingAmount (remaining_amount : float)
| RepaymentDoc (payment : Payment.t) (borrowedMoney : BorrowedMoney.t)
    (remaining_amount : float).

Record Response : Type := {
  code : nat;
  message : Message;
  payload : Payload
}.

Definition json (c : nat) (m : string) (p : Payload) : Response :=
  {| code := c; message := Msg m; payload := p |}.

Definition reported_remaining (r : Response) : option float :=
  match payload r with
  | RemainingAmount x => Some x
  | RepaymentDoc _ _ x => Some x
  | NoPayload => None
  end.

(** ** The handler *)

Inductive Outcome (A : Type) : Type :=
| Next (a : A)
| Sent (r : Response)
| Thrown.

Arguments Next {A} a.
Arguments Sent {A} r.
Arguments Thrown {A}.

Definition Handler (A : Type) : Type := Store -> Store * Outcome A.

Definition ret {A : Type} (a : A) : Handler A := fun s => (s, Next a).

Definition bind {A B : Type} (m : Handler A) (k : A -> Handler B) : Handler B :=
  fun s =>
    match m s with
    | (s', Next a) => k a s'
    | (s', Sent r) => (s', Sent r)
    | (s', Thrown) => (s', Thrown)
    end.

Declare Scope binary64_scope.
Notation "x <- m ;; k" := (bind m (fun x => k))
  (at level 100, m at next level, right associativity) : binary64_scope.
Notation "m ;;; k" := (bind m (fun _ => k))
  (at level 100, right associativity) : binary64_scope.
#[local] Open Scope binary64_scope.

Definition send {A : Type} (r : Response) : Handler A := fun s => (s, Sent r).
Definition throw {A : Type} : Handler A := fun s => (s, Thrown).

Definition reject_if (c : bool) (r : Response) : Handler unit :=
  if c then send r else ret tt.

Definition read {A : Type} (f : Store -> A) : Handler A := fun s => (s, Next (f s)).
Definition write (f : Store -> Store) : Handler unit := fun s => (f s, Next tt).

Definition newObjectId : Handler ObjectId :=
  fun s => (with_next_id (S (next_id s)) s, Next (next_id s)).

Definition Route : Type := Store -> Store * Response.

Definition try_catch (body : Handler Response) (on_error : Response) : Route :=
  fun s =>
    match body s with
    | (s', Next r) => (s', r)
    | (s', Sent r) => (s', r)
    | (s', Thrown) => (s', on_error)
    end.

(** [req.body] of the repay action: [amount] is the value as it was sent. *)
Module RepayBody.
Record t : Type := {
  amount : JsValue;
  payment_date : option Z;
  note : option string;
  payment_method : option string
}.
End RepayBody.

Section Routes.

Variable castObjectId : string -> option ObjectId.
Variable StringToNumber : string -> float.
Variable NumberToString : float -> string.

(** [new Payment({ ... })] followed by the schema validation that [save]
    runs: the amount is cast, required, and at least 0.01. *)
Definition Payment_create (id user : ObjectId) (ref : ObjectId) (amount_ : JsValue)
    (date : Z) (note_ payment_method_ : option string) : option Payment.t :=
  match castNumber StringToNumber amount_ with
  | Some (Some a) =>
      let m := or_else payment_method_ "bank_transfer" in
      if (0.01 <=? a)%float && text_ok 500 note_ && Payment.method_ok m
      then Some {| Payment._id := id; Payment.user_id := user;
                   Payment.type := Payment.borrowed; Payment.reference_id := ref;
                   Payment.amount := a; Payment.payment_date := date;
                   Payment.note := trimmed note_; Payment.payment_method := m |}
      else None
  | Some None | None => None
  end.

(** [BorrowedMoney.findByIdAndUpdate(id, { repaid_amount, status },
    { new: true, runValidators: true })]: the new repaid amount is cast and
    must be at least 0. The sum it is given is never cast to null
    ([plus_not_null] below), so the update always has a number to set. *)
Definition findByIdAndUpdate_repaid (id : ObjectId) (newRepaidAmount : JsValue)
    (st : BorrowedMoney.Status) : Handler (option BorrowedMoney.t) :=
  match castNumber StringToNumber newRepaidAmount with
  | Some (Some r) =>
      if negb (0 <=? r)%float then throw
      else
        fun s =>
          match findOne (borrowed_by_id id) (borrowedMoney s) with
          | Some b =>
              (with_borrowedMoney
                 (update_first (borrowed_by_id id)
                    (BorrowedMoney.set_repaid_status r st)) s,
               Next (Some (BorrowedMoney.set_repaid_status r st b)))
          | None => (s, Next None)
          end
  | Some None | None => throw
  end.

(** [POST /api/borrowed-money/:id/repay] *)
Definition post_borrowed_money_repay (user : ObjectId) (id : string)
    (body : RepayBody.t) : Route :=
  try_catch
    (let amount := RepayBody.amount body in
     reject_if (negb (ToBoolean amount) || (ToNumber StringToNumber amount <=? 0)%float)
       (json 400 "Valid repayment amount is required" NoPayload) ;;;
     match RepayBody.payment_date body with
     | None => send (json 400 "Payment date is required" NoPayload)
     | Some payment_date =>
     match castObjectId id with
     | None => throw
     | Some rid =>
     found <- read (fun s => findOne (borrowed_owned rid user) (borrowedMoney s)) ;;
     match found with
     | None => send (json 404 "Record not found" NoPayload)
     | Some b =>
         let remainingAmount :=
           (BorrowedMoney.amount b - BorrowedMoney.repaid_amount b)%float in
         reject_if (remainingAmount <? ToNumber StringToNumber amount)%float
           {| code := 400;
              message := RepayExceeds amount remainingAmount;
              payload := RemainingAmount remainingAmount |} ;;;
         pid <- newObjectId ;;
         match Payment_create pid user rid amount payment_date
                 (Some (str_or_else (RepayBody.note body)
                                    ("Repayment for " ++ BorrowedMoney.name b)))
                 (Some (str_or_else (RepayBody.payment_method body) "cash")) with
         | None => throw
         | Some payment =>
             write (with_payments (fun l => (l ++ [payment])%list)) ;;;
             let newRepaidAmount :=
               plus StringToNumber NumberToString (BorrowedMoney.repaid_amount b) amount in
             updated <- findByIdAndUpdate_repaid rid newRepaidAmount
                          (if (BorrowedMoney.amount b
                               <=? ToNumber StringToNumber newRepaidAmount)%float
                           then BorrowedMoney.repaid else BorrowedMoney.partial) ;;
             match updated with
             | None => throw
             | Some b' =>
                 ret (json 201 "Repayment recorded successfully"
                        (RepaymentDoc payment b'
                           (BorrowedMoney.amount b' - BorrowedMoney.repaid_amount b')%float))
             end
         end
     end end end)
    (json 500 "Server error while recording repayment" NoPayload).

End Routes.

(** ** The value of a number *)

(** The rational a finite number stands for. *)
Definition exact (x : float) : option Q :=
  match FloatOps.Prim2SF x with
  | SpecFloat.S754_zero _ => Some 0%Q
  | SpecFloat.S754_finite negative m e =>
      Some ((if negative then -1 else 1) * (Z.pos m # 1) * Qpower 2 e)%Q
  | SpecFloat.S754_infinity _ | SpecFloat.S754_nan => None
  end.

End Binary64.

(** ** Comparisons of numbers *)

Section Comparisons.

Import PrimFloat.

Lemma SFeqb_refl (x : SpecFloat.spec_float) :
  x <> SpecFloat.S754_nan -> SpecFloat.SFeqb x x = true.
Proof.
  unfold SpecFloat.SFeqb. destruct x as [s|s| |s m e]; simpl; intro H;
    try reflexivity; try congruence.
  - destruct s; reflexivity.
  - destruct s; rewrite Z.compare_refl, Pos.compare_cont_refl; reflexivity.
Qed.

(** A number that is at least another is a number. *)
Lemma leb_not_nan (x y : float) : (x <=? y)%float = true -> is_nan y = false.
Proof.
  unfold is_nan. rewrite FloatAxioms.leb_spec, FloatAxioms.eqb_spec.
  intro H. rewrite SFeqb_refl; [reflexivity|].
  intro E. rewrite E in H. unfold SpecFloat.SFleb in H.
  destruct (FloatOps.Prim2SF x); discriminate.
Qed.

(** An amount of at least 0.01 passes the check [!amount || amount <= 0]. *)
Lemma minimum_passes_check (a : float) :
  (0.01 <=? a)%float = true ->
  Binary64.ToBoolean (Binary64.JSNumber a) = true /\ (a <=? 0)%float = false.
Proof.
  intro H. pose proof (leb_not_nan _ _ H) as Hnan.
  unfold Binary64.ToBoolean. rewrite Hnan. unfold is_zero.
  revert H. rewrite !FloatAxioms.leb_spec, FloatAxioms.eqb_spec.
  replace (FloatOps.Prim2SF 0.01)
    with (SpecFloat.S754_finite false 5764607523034235 (-59)) by (vm_compute; reflexivity).
  replace (FloatOps.Prim2SF zero) with (SpecFloat.S754_zero false)
    by (vm_compute; reflexivity).
  replace (FloatOps.Prim2SF 0) with (SpecFloat.S754_zero false)
    by (vm_compute; reflexivity).
  unfold SpecFloat.SFleb, SpecFloat.SFeqb.
  destruct (FloatOps.Prim2SF a) as [s|s| |s m e]; simpl; try discriminate;
    destruct s; simpl; try discriminate; intros _; split; reflexivity.
Qed.

End Comparisons.

(** ** The repay action, refused and accepted *)

Section RepayOnNumbers.

Import PrimFloat.

Variable castObjectId : string -> option ObjectId.
Variable StringToNumber : string -> float.
Variable NumberToString : float -> string.

(** The sum the handler writes is never cast to null: once the payment is
    saved the amount of the body is a boolean, a number or a string that is
    not empty, and the sum is a number or a string that ends with it. *)
Lemma plus_not_null (x a : float) (v : Binary64.JsValue) :
  Binary64.castNumber StringToNumber v = Some (Some a) ->
  Binary64.castNumber StringToNumber (Binary64.plus StringToNumber NumberToString x v)
  <> Some None.
Proof.
  destruct v as [| |b|y|t|t]; simpl; try discriminate.
  - intros _. destruct (is_nan _); discriminate.
  - intros _. destruct (is_nan _); discriminate.
  - destruct (t =? "")%string eqn:Et; [discriminate|]. intros _.
    assert ((NumberToString x ++ t =? "")%string = false) as ->.
    { apply String.eqb_neq. intro E. apply String.eqb_neq in Et. apply Et.
      destruct (NumberToString x); simpl in E; [exact E | discriminate]. }
    destruct (is_nan _); discriminate.
Qed.

(** C3, as amended. A repay request for more than the remaining amount of
    an existing record of the caller, as the handler computes it (the
    amount of the body converted to a number, against the difference
    [amount - repaid_amount] in binary64 arithmetic), is answered 400 and
    leaves the store as it was: no payment is created and the record is
    unchanged. When the request also passes the field checks that come
    first (an amount that is truthy and not [<= 0], and a payment date), the
    response reports that remaining amount. *)
Theorem repay_beyond_remaining_rejected
    (s : Binary64.Store) (user rid : ObjectId) (id : string)
    (body : Binary64.RepayBody.t) (b : Binary64.BorrowedMoney.t) :
  castObjectId id = Some rid ->
  findOne (Binary64.borrowed_owned rid user) (Binary64.borrowedMoney s) = Some b ->
  (Binary64.BorrowedMoney.amount b - Binary64.BorrowedMoney.repaid_amount b
   <? Binary64.ToNumber StringToNumber (Binary64.RepayBody.amount body))%float = true ->
  let (s', r) := Binary64.post_borrowed_money_repay castObjectId StringToNumber
                   NumberToString user id body s in
  s' = s /\ Binary64.code r = 400 /\
  (Binary64.ToBoolean (Binary64.RepayBody.amount body) = true ->
   (Binary64.ToNumber StringToNumber (Binary64.RepayBody.amount body) <=? 0)%float = false ->
   Binary64.RepayBody.payment_date body <> None ->
   Binary64.reported_remaining r
   = Some (Binary64.BorrowedMoney.amount b - Binary64.BorrowedMoney.repaid_amount b)%float).
Proof.
  intros Hid Hb Hgt.
  unfold Binary64.post_borrowed_money_repay, Binary64.try_catch. cbv zeta.
  unfold Binary64.bind at 1. unfold Binary64.reject_if at 1.
  destruct (negb (Binary64.ToBoolean _) || _) eqn:Echeck.
  - simpl. split; [reflexivity|]. split; [reflexivity|].
    intros Ht Hle _. rewrite Ht, Hle in Echeck. discriminate.
  - unfold Binary64.ret at 1.
    destruct (Binary64.RepayBody.payment_date body) as [d|] eqn:Ed.
    + rewrite Hid. unfold Binary64.bind at 1. unfold Binary64.read at 1. rewrite Hb.
      unfold Binary64.bind at 1. unfold Binary64.reject_if at 1. rewrite Hgt.
      simpl. repeat split; reflexivity.
    + simpl. split; [reflexivity|]. split; [reflexivity|].
      intros _ _ Hd. congruence.
Qed.

Lemma owned_of_by_id (rid user : ObjectId) (l : list Binary64.BorrowedMoney.t)
    (b : Binary64.BorrowedMoney.t) :
  findOne (Binary64.borrowed_by_id rid) l = Some b ->
  Binary64.BorrowedMoney.user_id b = user ->
  findOne (Binary64.borrowed_owned rid user) l = Some b.
Proof.
  unfold findOne. intros Hb Hu.
  induction l as [|x r IH]; simpl in *; [discriminate|].
  unfold Binary64.borrowed_owned at 1. unfold Binary64.borrowed_by_id at 1 in Hb.
  destruct (Binary64.BorrowedMoney._id x =? rid); simpl.
  - injection Hb as ->. rewrite Hu, Nat.eqb_refl. reflexivity.
  - apply IH. exact Hb.
Qed.

(** The action on a request that passes every check, whatever value the
    body holds under [amount]: the payment carries the amount as the schema
    casts it, [a]; the record is given the sum [repaid_amount + amount] as
    the schema casts it, [x]. *)
Lemma repay_value_accepted (s : Binary64.Store) (user rid : ObjectId) (id : string)
    (body : Binary64.RepayBody.t) (b : Binary64.BorrowedMoney.t) (a x : float) (d : Z) :
  let v := Binary64.RepayBody.amount body in
  let sum := Binary64.plus StringToNumber NumberToString
               (Binary64.BorrowedMoney.repaid_amount b) v in
  castObjectId id = Some rid ->
  findOne (Binary64.borrowed_by_id rid) (Binary64.borrowedMoney s) = Some b ->
  Binary64.BorrowedMoney.user_id b = user ->
  Binary64.ToBoolean v = true ->
  (Binary64.ToNumber StringToNumber v <=? 0)%float = false ->
  Binary64.RepayBody.payment_date body = Some d ->
  (Binary64.BorrowedMoney.amount b - Binary64.BorrowedMoney.repaid_amount b
   <? Binary64.ToNumber StringToNumber v)%float = false ->
  Binary64.castNumber StringToNumber v = Some (Some a) ->
  (0.01 <=? a)%float = true ->
  text_ok 500 (Some (str_or_else (Binary64.RepayBody.note body)
                       ("Repayment for " ++ Binary64.BorrowedMoney.name b))) = true ->
  Payment.method_ok (str_or_else (Binary64.RepayBody.payment_method body) "cash") = true ->
  Binary64.castNumber StringToNumber sum = Some (Some x) ->
  (0 <=? x)%float = true ->
  let p := {| Binary64.Payment._id := Binary64.next_id s;
              Binary64.Payment.user_id := user;
              Binary64.Payment.type := Payment.borrowed;
              Binary64.Payment.reference_id := rid;
              Binary64.Payment.amount := a;
              Binary64.Payment.payment_date := d;
              Binary64.Payment.note :=
                trimmed (Some (str_or_else (Binary64.RepayBody.note body)
                                 ("Repayment for " ++ Binary64.BorrowedMoney.name b)));
              Binary64.Payment.payment_method :=
                str_or_else (Binary64.RepayBody.payment_method body) "cash" |} in
  let st := if (Binary64.BorrowedMoney.amount b
                <=? Binary64.ToNumber StringToNumber sum)%float
            then BorrowedMoney.repaid else BorrowedMoney.partial in
  Binary64.post_borrowed_money_repay castObjectId StringToNumber NumberToString
    user id body s
  = (Binary64.with_borrowedMoney
       (update_first (Binary64.borrowed_by_id rid)
          (Binary64.BorrowedMoney.set_repaid_status x st))
       (Binary64.with_payments (fun l => (l ++ [p])%list)
          (Binary64.with_next_id (S (Binary64.next_id s)) s)),
     Binary64.json 201 "Repayment recorded successfully"
       (Binary64.RepaymentDoc p (Binary64.BorrowedMoney.set_repaid_status x st b)
          (Binary64.BorrowedMoney.amount b - x)%float)).
Proof.
  intros v sum Hid Hb Hu Htruthy Hpos Hd Hguard Hcast Hmin Hnote Hmethod Hsum Hx p st.
  unfold Binary64.post_borrowed_money_repay, Binary64.try_catch. cbv zeta.
  fold v. rewrite Hd, Hid.
  unfold Binary64.bind at 1. unfold Binary64.reject_if at 1.
  rewrite Htruthy, Hpos. cbn [negb orb].
  unfold Binary64.ret at 1.
  unfold Binary64.bind at 1. unfold Binary64.read at 1.
  rewrite (owned_of_by_id rid user _ b Hb Hu).
  unfold Binary64.bind at 1. unfold Binary64.reject_if at 1. rewrite Hguard.
  unfold Binary64.ret at 1.
  unfold Binary64.bind at 1. unfold Binary64.newObjectId at 1.
  unfold Binary64.Payment_create. rewrite Hcast, Hmin, Hnote.
  cbn [or_else]. rewrite Hmethod. cbn [andb].
  unfold Binary64.bind at 1. unfold Binary64.write at 1.
  unfold Binary64.bind at 1. unfold Binary64.findByIdAndUpdate_repaid.
  fold sum. rewrite Hsum, Hx. cbn [negb].
  cbn [Binary64.borrowedMoney Binary64.with_payments Binary64.with_next_id].
  rewrite Hb. unfold Binary64.ret. reflexivity.
Qed.

(** X3. A repay request on a record of the caller with a payment date, a
    number of at least 0.01 as its amount that the guard lets through (it
    is not greater than [amount - repaid_amount] as computed), a note (or
    the default note) within 500 characters and a method (or ['cash'])
    among the four of the schema, and such that the sum
    [repaid_amount + amount], as computed, is not negative, is answered 201.
    The store gains one payment of type ['borrowed'] of the caller, for that
    amount and date against the record; the record keeps its principal, its
    repaid amount becomes the computed sum [repaid_amount + amount], its
    status ['repaid'] when the principal is at most that sum and ['partial']
    otherwise, and the response reports the principal minus the new repaid
    amount. Nothing bounds the new repaid amount by the principal. *)
Theorem repay_accepted (s : Binary64.Store) (user rid : ObjectId) (id : string)
    (body : Binary64.RepayBody.t) (b : Binary64.BorrowedMoney.t) (a : float) (d : Z) :
  castObjectId id = Some rid ->
  findOne (Binary64.borrowed_by_id rid) (Binary64.borrowedMoney s) = Some b ->
  Binary64.BorrowedMoney.user_id b = user ->
  Binary64.RepayBody.amount body = Binary64.JSNumber a ->
  Binary64.RepayBody.payment_date body = Some d ->
  (0.01 <=? a)%float = true ->
  (Binary64.BorrowedMoney.amount b - Binary64.BorrowedMoney.repaid_amount b <? a)%float
  = false ->
  (0 <=? Binary64.BorrowedMoney.repaid_amount b + a)%float = true ->
  js_length (trim (str_or_else (Binary64.RepayBody.note body)
                     ("Repayment for " ++ Binary64.BorrowedMoney.name b))) <= 500 ->
  Payment.method_ok (str_or_else (Binary64.RepayBody.payment_method body) "cash") = true ->
  exists s' p b',
    Binary64.post_borrowed_money_repay castObjectId StringToNumber NumberToString
      user id body s
    = (s', Binary64.json 201 "Repayment recorded successfully"
             (Binary64.RepaymentDoc p b'
                (Binary64.BorrowedMoney.amount b'
                 - Binary64.BorrowedMoney.repaid_amount b')%float))
    /\ Binary64.payments s' = (Binary64.payments s ++ [p])%list
    /\ Binary64.Payment.user_id p = user
    /\ Binary64.Payment.type p = Payment.borrowed
    /\ Binary64.Payment.reference_id p = rid
    /\ Binary64.Payment.amount p = a
    /\ Binary64.Payment.payment_date p = d
    /\ findOne (Binary64.borrowed_by_id rid) (Binary64.borrowedMoney s') = Some b'
    /\ Binary64.BorrowedMoney.amount b' = Binary64.BorrowedMoney.amount b
    /\ Binary64.BorrowedMoney.repaid_amount b'
       = (Binary64.BorrowedMoney.repaid_amount b + a)%float
    /\ Binary64.BorrowedMoney.status b'
       = (if (Binary64.BorrowedMoney.amount b
              <=? Binary64.BorrowedMoney.repaid_amount b + a)%float
          then BorrowedMoney.repaid else BorrowedMoney.partial).
Proof.
  intros Hid Hb Hu Ha Hd Hmin Hguard Hsum Hnote Hmethod.
  destruct (minimum_passes_check a Hmin) as [Htruthy Hpos].
  pose proof (repay_value_accepted s user rid id body b a
                (Binary64.BorrowedMoney.repaid_amount b + a)%float d) as Hrun.
  cbv zeta in Hrun. rewrite Ha in Hrun.
  cbn [Binary64.ToNumber Binary64.castNumber Binary64.plus] in Hrun.
  rewrite (leb_not_nan _ _ Hmin), (leb_not_nan _ _ Hsum) in Hrun.
  rewrite (Hrun Hid Hb Hu Htruthy Hpos Hd Hguard eq_refl Hmin
             (proj2 (Nat.leb_le _ _) Hnote) Hmethod eq_refl Hsum).
  match goal with
  | |- exists s' p b',
         (?S, Binary64.json _ _ (Binary64.RepaymentDoc ?P ?B _)) = _ /\ _ =>
      exists S, P, B
  end.
  split; [reflexivity|].
  split; [reflexivity|].
  repeat (split; [reflexivity|]).
  split; [|repeat split; reflexivity].
  cbn [Binary64.borrowedMoney Binary64.with_borrowedMoney Binary64.with_payments
       Binary64.with_next_id].
  unfold findOne in *.
  rewrite find_update_first by (intro y; reflexivity).
  rewrite Hb. reflexivity.
Qed.

End RepayOnNumbers.

(** ** Examples *)

Section RepayExamples.

Import PrimFloat.

(** [Number(s)] and [String(x)] on the two strings and the one number that
    the examples below convert: ['100'], ['100100'] and 100. *)
Definition demo_number (s : string) : PrimFloat.float :=
  if (s =? "100")%string then 100%float
  else if (s =? "100100")%string then 100100%float
  else PrimFloat.nan.

Definition demo_string (x : PrimFloat.float) : string :=
  if PrimFloat.eqb x 100 then "100" else "NaN".

(** User 7 owes [p] to Asha, record 0, of which [r] is repaid. With nothing
    repaid and the status [pending] this is the record that
    [POST /api/borrowed-money] stores for
    [{ name: 'Asha', amount: p, type: 'borrowed' }]. *)
Definition owing (p r : PrimFloat.float) (st : BorrowedMoney.Status) : Binary64.Store :=
  {| Binary64.borrowedMoney :=
       [{| Binary64.BorrowedMoney._id := 0; Binary64.BorrowedMoney.user_id := 7;
           Binary64.BorrowedMoney.name := "Asha"; Binary64.BorrowedMoney.phone := None;
           Binary64.BorrowedMoney.amount := p;
           Binary64.BorrowedMoney.type := BorrowedMoney.borrowed;
           Binary64.BorrowedMoney.status := st; Binary64.BorrowedMoney.note := None;
           Binary64.BorrowedMoney.repaid_amount := r |}];
     Binary64.payments := [];
     Binary64.next_id := 1 |}.

(** The body [{ amount: v, payment_date: d }] of a repay request. *)
Definition repaying (v : Binary64.JsValue) (d : option Z) : Binary64.RepayBody.t :=
  {| Binary64.RepayBody.amount := v; Binary64.RepayBody.payment_date := d;
     Binary64.RepayBody.note := None; Binary64.RepayBody.payment_method := None |}.

(** The repay action of user 7 on the record 0. *)
Definition repay (v : Binary64.JsValue) (d : option Z) : Binary64.Route :=
  Binary64.post_borrowed_money_repay demo_cast demo_number demo_string 7 "b0"
    (repaying v d).

(** The principal, the repaid amount and the status of each record. *)
Definition accounts (s : Binary64.Store)
    : list (PrimFloat.float * PrimFloat.float * BorrowedMoney.Status) :=
  map (fun b => (Binary64.BorrowedMoney.amount b, Binary64.BorrowedMoney.repaid_amount b,
                 Binary64.BorrowedMoney.status b))
      (Binary64.borrowedMoney s).

(** The number [x] is exactly the rational [q]. *)
Definition exactly (x : PrimFloat.float) (q : Q) : Prop :=
  match Binary64.exact x with
  | Some v => (v == q)%Q
  | None => False
  end.

(** C3, witness: the loan of 1000 with 400 repaid refuses a repayment of
    700 and reports the 600 that remain. *)
Lemma repay_beyond_remaining_rejected_witness :
  let (s', r) := repay (Binary64.JSNumber 700) (Some 6%Z)
                   (owing 1000 400 BorrowedMoney.partial) in
  s' = owing 1000 400 BorrowedMoney.partial /\ Binary64.code r = 400 /\
  (Binary64.ToBoolean (Binary64.JSNumber 700) = true ->
   PrimFloat.leb (Binary64.ToNumber demo_number (Binary64.JSNumber 700)) 0 = false ->
   Some 6%Z <> None ->
   Binary64.reported_remaining r = Some (PrimFloat.sub 1000 400)).
Proof.
  exact (repay_beyond_remaining_rejected demo_cast demo_number demo_string
           (owing 1000 400 BorrowedMoney.partial) 7 0 "b0"
           (repaying (Binary64.JSNumber 700) (Some 6%Z))
           {| Binary64.BorrowedMoney._id := 0; Binary64.BorrowedMoney.user_id := 7;
              Binary64.BorrowedMoney.name := "Asha"; Binary64.BorrowedMoney.phone := None;
              Binary64.BorrowedMoney.amount := 1000;
              Binary64.BorrowedMoney.type := BorrowedMoney.borrowed;
              Binary64.BorrowedMoney.status := BorrowedMoney.partial;
              Binary64.BorrowedMoney.note := None;
              Binary64.BorrowedMoney.repaid_amount := 400 |}
           eq_refl eq_refl eq_refl).
Defined.

(** C3, counterexamples to the claim as stated.

    The field checks come first: the record has the principal 1000 and 400
    repaid, so 600 remain; a repay request for 700 that carries no payment
    date is answered 400 by the check of the date, and that response
    carries no remaining amount.

    The guard subtracts in binary64: user 7 owes 10000000000000000 and
    repays 1, so that 9999999999999999 remain; a repay request for
    10000000000000000, which is more, is answered 201: the difference the
    guard computes is rounded to 10000000000000000. A second payment is
    stored and the record is changed. *)
Lemma repay_over_remaining_accepted :
  (PrimFloat.ltb (PrimFloat.sub 1000 400) 700 = true
   /\ let (s', r) := repay (Binary64.JSNumber 700) None
                       (owing 1000 400 BorrowedMoney.partial) in
      s' = owing 1000 400 BorrowedMoney.partial
      /\ r = Binary64.json 400 "Payment date is required" Binary64.NoPayload
      /\ Binary64.reported_remaining r = None)
  /\
  (let (s1, r1) := repay (Binary64.JSNumber 1) (Some 5%Z)
                     (owing 1e16 0 BorrowedMoney.pending) in
   let (s2, r2) := repay (Binary64.JSNumber 1e16) (Some 6%Z) s1 in
   Binary64.code r1 = 201
   /\ accounts s1 = [(1e16, 1, BorrowedMoney.partial)]%float
   /\ exactly 1e16 10000000000000000 /\ exactly 1 1
   /\ (10000000000000000 - 1 < 10000000000000000)%Q
   /\ Binary64.code r2 = 201
   /\ List.length (Binary64.payments s1) = 1
   /\ List.length (Binary64.payments s2) = 2
   /\ accounts s2 = [(1e16, 1e16, BorrowedMoney.repaid)]%float).
Proof.
  split.
  - vm_compute. repeat split; reflexivity.
  - vm_compute. repeat split; try reflexivity.
Qed.

(** C4. User 7 owes 13.62 and repays 3.55, then 10.07. Both requests pass
    the guard and are answered 201; the second writes the sum
    [3.55 + 10.07] as the engine computes it, 13.620000000000001, which is
    more than the principal: the repaid amount is not [min(r + a, p)], and
    the remaining amount the response reports is negative. The repay
    action writes [repaid_amount + amount] as it is; [Math.min], which
    [POST /api/payments] applies to the same sum, is missing here. The
    amounts are numbers: the conversions of strings play no part. *)
Theorem repay_sum_exceeds_principal
    (StringToNumber : string -> float) (NumberToString : float -> string) :
  let (s1, r1) := Binary64.post_borrowed_money_repay demo_cast StringToNumber
                    NumberToString 7 "b0" (repaying (Binary64.JSNumber 3.55) (Some 5%Z))
                    (owing 13.62 0 BorrowedMoney.pending) in
  let (s2, r2) := Binary64.post_borrowed_money_repay demo_cast StringToNumber
                    NumberToString 7 "b0" (repaying (Binary64.JSNumber 10.07) (Some 6%Z))
                    s1 in
  Binary64.code r1 = 201 /\ Binary64.code r2 = 201
  /\ accounts s1 = [(13.62, 3.55, BorrowedMoney.partial)]%float
  /\ accounts s2 = [(13.62, 13.620000000000001, BorrowedMoney.repaid)]%float
  /\ PrimFloat.ltb 13.62 13.620000000000001 = true
  /\ map Binary64.Payment.amount (Binary64.payments s2) = [3.55; 10.07]%float
  /\ Binary64.reported_remaining r2 = Some (-1.7763568394002505e-15)%float.
Proof. vm_compute. repeat split; reflexivity. Qed.

(** An amount sent as a string is appended, not added: with
    [String(100) = '100'], [Number('100') = 100] and
    [Number('100100') = 100100], as in the engine, user 7 owes 1000, repays
    the number 100 and then the string ['100']. The second request is
    answered 201, its payment is stored with the amount 100, and the record
    ends with 100100 repaid. *)
Lemma repay_text_amount_is_appended
    (StringToNumber : string -> PrimFloat.float)
    (NumberToString : PrimFloat.float -> string) :
  NumberToString 100%float = "100" ->
  StringToNumber "100" = 100%float ->
  StringToNumber "100100" = 100100%float ->
  let (s1, r1) := Binary64.post_borrowed_money_repay demo_cast StringToNumber
                    NumberToString 7 "b0" (repaying (Binary64.JSNumber 100) (Some 5%Z))
                    (owing 1000 0 BorrowedMoney.pending) in
  let (s2, r2) := Binary64.post_borrowed_money_repay demo_cast StringToNumber
                    NumberToString 7 "b0" (repaying (Binary64.JSString "100") (Some 6%Z))
                    s1 in
  Binary64.code r1 = 201 /\ Binary64.code r2 = 201
  /\ accounts s1 = [(1000, 100, BorrowedMoney.partial)]%float
  /\ accounts s2 = [(1000, 100100, BorrowedMoney.repaid)]%float
  /\ map Binary64.Payment.amount (Binary64.payments s2) = [100; 100]%float.
Proof.
  intros Hs Hn Hcat.
  rewrite (repay_value_accepted demo_cast StringToNumber NumberToString
             (owing 1000 0 BorrowedMoney.pending) 7 0 "b0"
             (repaying (Binary64.JSNumber 100) (Some 5%Z))
             {| Binary64.BorrowedMoney._id := 0; Binary64.BorrowedMoney.user_id := 7;
                Binary64.BorrowedMoney.name := "Asha"; Binary64.BorrowedMoney.phone := None;
                Binary64.BorrowedMoney.amount := 1000;
                Binary64.BorrowedMoney.type := BorrowedMoney.borrowed;
                Binary64.BorrowedMoney.status := BorrowedMoney.pending;
                Binary64.BorrowedMoney.note := None;
                Binary64.BorrowedMoney.repaid_amount := 0 |}
             100 (0 + 100) 5%Z);
    try (vm_compute; reflexivity).
  match goal with
  | |- let (s2, r2) := Binary64.post_borrowed_money_repay _ _ _ _ _ _ ?s1 in _ =>
      rewrite (repay_value_accepted demo_cast StringToNumber NumberToString
                 s1 7 0 "b0" (repaying (Binary64.JSString "100") (Some 6%Z))
                 {| Binary64.BorrowedMoney._id := 0; Binary64.BorrowedMoney.user_id := 7;
                    Binary64.BorrowedMoney.name := "Asha";
                    Binary64.BorrowedMoney.phone := None;
                    Binary64.BorrowedMoney.amount := 1000;
                    Binary64.BorrowedMoney.type := BorrowedMoney.borrowed;
                    Binary64.BorrowedMoney.status := BorrowedMoney.partial;
                    Binary64.BorrowedMoney.note := None;
                    Binary64.BorrowedMoney.repaid_amount := 0 + 100 |}
                 100 100100 6%Z)
  end;
    try (vm_compute; reflexivity);
    cbn [repaying Binary64.RepayBody.amount Binary64.ToNumber Binary64.castNumber
         Binary64.plus Binary64.BorrowedMoney.repaid_amount
         Binary64.BorrowedMoney.amount];
    rewrite ?Hn;
    try (vm_compute; reflexivity).
  - cbn [repaying Binary64.RepayBody.amount Binary64.plus Binary64.ToNumber
         Binary64.BorrowedMoney.repaid_amount Binary64.BorrowedMoney.amount].
    change (0 + 100)%float with 100%float. rewrite Hs.
    change ("100" ++ "100")%string with "100100". rewrite Hcat.
    vm_compute. repeat split; reflexivity.
  - change (0 + 100)%float with 100%float. rewrite Hs.
    change ("100" ++ "100")%string with "100100".
    cbn [Binary64.castNumber]. rewrite Hcat. vm_compute. reflexivity.
Qed.

(** X3, witness: user 7 repays 400 of the loan of 1000. *)
Lemma repay_accepted_witness :
  exists s' p b',
    repay (Binary64.JSNumber 400) (Some 5%Z) (owing 1000 0 BorrowedMoney.pending)
    = (s', Binary64.json 201 "Repayment recorded successfully"
             (Binary64.RepaymentDoc p b'
                (PrimFloat.sub (Binary64.BorrowedMoney.amount b')
                               (Binary64.BorrowedMoney.repaid_amount b'))))
    /\ Binary64.payments s'
       = (Binary64.payments (owing 1000 0 BorrowedMoney.pending) ++ [p])%list
    /\ Binary64.Payment.user_id p = 7
    /\ Binary64.Payment.type p = Payment.borrowed
    /\ Binary64.Payment.reference_id p = 0
    /\ Binary64.Payment.amount p = 400%float
    /\ Binary64.Payment.payment_date p = 5%Z
    /\ findOne (Binary64.borrowed_by_id 0) (Binary64.borrowedMoney s') = Some b'
    /\ Binary64.BorrowedMoney.amount b' = 1000%float
    /\ Binary64.BorrowedMoney.repaid_amount b' = PrimFloat.add 0 400
    /\ Binary64.BorrowedMoney.status b'
       = (if PrimFloat.leb 1000 (PrimFloat.add 0 400)
          then BorrowedMoney.repaid else BorrowedMoney.partial).
Proof.
  apply (repay_accepted demo_cast demo_number demo_string
           (owing 1000 0 BorrowedMoney.pending) 7 0 "b0"
           (repaying (Binary64.JSNumber 400) (Some 5%Z))
           {| Binary64.BorrowedMoney._id := 0; Binary64.BorrowedMoney.user_id := 7;
              Binary64.BorrowedMoney.name := "Asha"; Binary64.BorrowedMoney.phone := None;
              Binary64.BorrowedMoney.amount := 1000;
              Binary64.BorrowedMoney.type := BorrowedMoney.borrowed;
              Binary64.BorrowedMoney.status := BorrowedMoney.pending;
              Binary64.BorrowedMoney.note := None;
              Binary64.BorrowedMoney.repaid_amount := 0 |}
           400%float 5%Z);
    try reflexivity.
  - vm_compute. lia.
Defined.

End RepayExamples.
